(** * The statistical prediction engine of lotto_analyser

    A shallow embedding of [src/api/prediction.ts] (class
    [LottoPredictionEngine] and [predictLottoNumbers]) and the properties
    of its specification.

    Conventions of the embedding.

    - A JavaScript [number] that can be fractional, infinite or NaN is a
      value of [num]: NaN, the two infinities, or an exact rational.  The
      arithmetic follows IEEE-754 on the special values (0/0 is NaN,
      NaN is contagious, every comparison with NaN is false); on finite
      values it is exact: rounding to 53 bits and the sign of zero are not
      modelled.  The inputs at which the code is evaluated below are
      chosen so that no comparison is close to its threshold.
    - Numbers that the code only ever uses as integers (the balls of a
      draw, sums of balls, gap sizes, array indices) are [Z] or [nat].
    - An object used as a dictionary with integer keys is an association
      list kept in ascending key order, which is the order in which
      [Object.entries] enumerates integer keys.
    - [Math.random()] is the next element of a sequence of rationals that
      are at least 0 and less than 1; the number of calls made so far is
      threaded through the code as a counter.
    - The code has no [throw], and it reads no property of [undefined]
      (the one access that could is guarded by [?.]), so every function is
      a total function.  The limit that an engine puts on the number of
      arguments of [Math.min(...)] and [Math.max(...)] is not modelled. *)

From Stdlib Require Import String Ascii DecimalString.
From Stdlib Require Import ZArith QArith Qabs Qround Qreduction Qpower.
From Stdlib Require Import Bool Lia Lqa.
From Stdlib Require Import List Permutation Sorted.
Import ListNotations.

Local Open Scope Z_scope.

(** ** JavaScript numbers *)

Module Num.

Inductive num : Type :=
| NaN
| NInf
| Fin (q : Q)
| PInf.

Definition of_Z (z : Z) : num := Fin (inject_Z z).
Definition of_nat (n : nat) : num := of_Z (Z.of_nat n).

Definition zero : num := of_Z 0.

Definition Qltb (a b : Q) : bool := negb (Qle_bool b a).

Definition is_nan (x : num) : bool :=
  match x with NaN => true | _ => false end.

Definition is_finite (x : num) : bool :=
  match x with Fin _ => true | _ => false end.

Definition neg (x : num) : num :=
  match x with
  | NaN => NaN
  | NInf => PInf
  | PInf => NInf
  | Fin q => Fin (Qred (- q))
  end.

Definition add (x y : num) : num :=
  match x, y with
  | NaN, _ | _, NaN => NaN
  | PInf, NInf | NInf, PInf => NaN
  | PInf, _ | _, PInf => PInf
  | NInf, _ | _, NInf => NInf
  | Fin a, Fin b => Fin (Qred (a + b))
  end.

Definition sub (x y : num) : num := add x (neg y).

(** The sign of a rational: -1, 0 or 1. *)
Definition Qsgn (q : Q) : Z := Z.sgn (Qnum q).

Definition signed_inf (s : Z) : num :=
  match s with
  | Z0 => NaN
  | Zpos _ => PInf
  | Zneg _ => NInf
  end.

Definition sgn (x : num) : Z :=
  match x with
  | NaN => 0
  | NInf => -1
  | PInf => 1
  | Fin q => Qsgn q
  end.

Definition mul (x y : num) : num :=
  match x, y with
  | NaN, _ | _, NaN => NaN
  | Fin a, Fin b => Fin (Qred (a * b))
  | _, _ => signed_inf (sgn x * sgn y)
  end.

(** Division: a finite value over an infinity is 0, a non-zero value over
    0 is an infinity, 0/0 and infinity over infinity are NaN. *)
Definition div (x y : num) : num :=
  match x, y with
  | NaN, _ | _, NaN => NaN
  | Fin a, Fin b =>
      if Qeq_bool b 0 then signed_inf (Qsgn a) else Fin (Qred (a / b))
  | Fin _, _ => zero
  | _, Fin b => signed_inf (sgn x * (if Qeq_bool b 0 then 1 else Qsgn b))
  | _, _ => NaN
  end.

Definition leb (x y : num) : bool :=
  match x, y with
  | NaN, _ | _, NaN => false
  | NInf, _ => true
  | _, PInf => true
  | Fin a, Fin b => Qle_bool a b
  | _, _ => false
  end.

Definition ltb (x y : num) : bool :=
  match x, y with
  | NaN, _ | _, NaN => false
  | NInf, NInf | PInf, PInf => false
  | NInf, _ => true
  | _, PInf => true
  | Fin a, Fin b => Qltb a b
  | _, _ => false
  end.

Definition geb (x y : num) : bool := leb y x.
Definition gtb (x y : num) : bool := ltb y x.

(** [Math.min] and [Math.max] of two arguments. *)
Definition min (x y : num) : num :=
  match x, y with
  | NaN, _ | _, NaN => NaN
  | _, _ => if leb x y then x else y
  end.

Definition max (x y : num) : num :=
  match x, y with
  | NaN, _ | _, NaN => NaN
  | _, _ => if leb x y then y else x
  end.

(** [Math.max(...xs)] is -Infinity and [Math.min(...xs)] is +Infinity on
    the empty list. *)
Definition max_list (xs : list num) : num := fold_left max xs NInf.
Definition min_list (xs : list num) : num := fold_left min xs PInf.

Definition abs (x : num) : num :=
  match x with
  | NaN => NaN
  | NInf | PInf => PInf
  | Fin q => Fin (Qred (Qabs q))
  end.

Definition floor (x : num) : num :=
  match x with
  | Fin q => of_Z (Qfloor q)
  | _ => x
  end.

(** [Math.round] rounds to the nearest integer, halves upwards. *)
Definition round (x : num) : num :=
  match x with
  | Fin q => of_Z (Qfloor (q + (1 # 2)))
  | _ => x
  end.

(** [Math.pow(x, n)] for a natural exponent. *)
Definition pow (x : num) (n : nat) : num :=
  match n with
  | O => of_Z 1
  | _ =>
      match x with
      | Fin q => Fin (Qred (Qpower q (Z.of_nat n)))
      | NaN => NaN
      | PInf => PInf
      | NInf => if Nat.even n then PInf else NInf
      end
  end.

(** [Math.sqrt]: exact on the square of a rational, otherwise the root
    truncated to 64 binary digits after the point. *)
Definition Qsqrt (q : Q) : Q :=
  let r := Qred q in
  let n := Qnum r in
  let d := Qden r in
  let sn := Z.sqrt n in
  let sd := Pos.sqrt d in
  if (sn * sn =? n) && (sd * sd =? d)%positive
  then sn # sd
  else Qred (Z.sqrt (n * 2 ^ 128 / Zpos d) # 2 ^ 64).

Definition sqrt (x : num) : num :=
  match x with
  | NaN | NInf => NaN
  | PInf => PInf
  | Fin q => if Qltb q 0 then NaN else Fin (Qsqrt q)
  end.

(** [x || 0]: NaN and 0 are falsy. *)
Definition or0 (x : num) : num :=
  match x with
  | NaN => zero
  | _ => x
  end.

(** [!x] for a number. *)
Definition falsy (x : num) : bool :=
  match x with
  | NaN => true
  | Fin q => Qeq_bool q 0
  | _ => false
  end.

(** The integer a number denotes when it is used as an array index. *)
Definition to_index (x : num) : option nat :=
  match x with
  | Fin q =>
      if Qeq_bool q (inject_Z (Qfloor q)) && (0 <=? Qfloor q)
      then Some (Z.to_nat (Qfloor q)) else None
  | _ => None
  end.

End Num.

Import Num.

(** ** Arrays and dictionaries *)

(** [Array.prototype.slice(start, end)]: a negative index counts from the
    end of the array, and both indices are clamped to the array. *)
Definition clamp_index (len i : Z) : Z :=
  if i <? 0 then Z.max (len + i) 0 else Z.min i len.

Definition slice {A : Type} (start end_ : Z) (l : list A) : list A :=
  let len := Z.of_nat (length l) in
  let s := clamp_index len start in
  let e := clamp_index len end_ in
  firstn (Z.to_nat (e - s)) (skipn (Z.to_nat s) l).

(** [l.slice(start)]. *)
Definition slice_from {A : Type} (start : Z) (l : list A) : list A :=
  slice start (Z.of_nat (length l)) l.

(** The elements of an array with their indices, as [forEach] and [map]
    pass them to their callbacks. *)
Definition indexed {A : Type} (l : list A) : list (nat * A) :=
  combine (seq 0 (length l)) l.

Definition includes (l : list Z) (n : Z) : bool := existsb (Z.eqb n) l.

(** [l.reduce((a, b) => a + b, 0)] on integers. *)
Definition sumZ (l : list Z) : Z := fold_left Z.add l 0.

(** [Array.prototype.sort(cmp)]: a stable sort; [b] is placed before [a]
    when [cmp a b] is positive, and a NaN from the comparator counts as 0.
    With a comparator that is not a consistent order the result is left to
    the implementation by ECMAScript; the insertion sort below is then one
    of the possible results. *)
Fixpoint insert_by {A : Type} (cmp : A -> A -> num) (x : A) (l : list A)
  : list A :=
  match l with
  | [] => [x]
  | y :: l' => if gtb (cmp x y) zero then y :: insert_by cmp x l' else x :: l
  end.

Definition sort_by {A : Type} (cmp : A -> A -> num) (l : list A) : list A :=
  fold_right (insert_by cmp) [] l.

(** [l.sort((a, b) => a - b)]. *)
Definition sort_ascending (l : list Z) : list Z :=
  sort_by (fun a b => of_Z (a - b)) l.

(** A dictionary with integer keys, in ascending key order. *)
Definition dict (A : Type) : Type := list (Z * A).

Fixpoint lookup {A : Type} (k : Z) (t : dict A) : option A :=
  match t with
  | [] => None
  | (k', v) :: t' => if k =? k' then Some v else lookup k t'
  end.

Fixpoint store {A : Type} (k : Z) (v : A) (t : dict A) : dict A :=
  match t with
  | [] => [(k, v)]
  | (k', v') :: t' =>
      if k =? k' then (k, v) :: t'
      else if k <? k' then (k, v) :: t
      else (k', v') :: store k v t'
  end.

(** [t[k] || 0]. *)
Definition get_or0 (k : Z) (t : dict num) : num :=
  match lookup k t with
  | Some v => or0 v
  | None => zero
  end.

(** [t[k]] used in arithmetic: [undefined] becomes NaN. *)
Definition get_num (k : Z) (t : dict num) : num :=
  match lookup k t with
  | Some v => v
  | None => NaN
  end.

Definition Object_values {A : Type} (t : dict A) : list A := map snd t.

(** ** The data model *)

Record LottoDraw : Type := {
  Date : string;
  B1 : Z; B2 : Z; B3 : Z; B4 : Z; B5 : Z; B6 : Z;
  BB : Z
}.

(** [[draw.B1, draw.B2, draw.B3, draw.B4, draw.B5, draw.B6]]. *)
Definition balls (d : LottoDraw) : list Z :=
  [B1 d; B2 d; B3 d; B4 d; B5 d; B6 d].

(** [draw.B1 + draw.B2 + draw.B3 + draw.B4 + draw.B5 + draw.B6]. *)
Definition ballSum (d : LottoDraw) : Z :=
  B1 d + B2 d + B3 d + B4 d + B5 d + B6 d.

Record PredictionWeights : Type := {
  frequency : num;
  recency : num;
  gaps : num;
  patterns : num;
  distribution : num;
  correlation : num
}.

(** [Partial<PredictionWeights>]. *)
Record PartialWeights : Type := {
  frequency_opt : option num;
  recency_opt : option num;
  gaps_opt : option num;
  patterns_opt : option num;
  distribution_opt : option num;
  correlation_opt : option num
}.

Definition noCustomWeights : PartialWeights :=
  {| frequency_opt := None; recency_opt := None; gaps_opt := None;
     patterns_opt := None; distribution_opt := None;
     correlation_opt := None |}.

Record SumRange : Type := {
  min : num;
  max : num;
  target : num
}.

Record StatisticalBasis : Type := {
  sb_hotNumbers : list Z;
  sb_coldNumbers : list Z;
  sb_dueNumbers : list Z;
  sb_avoidNumbers : list Z;
  sb_sumRange : SumRange;
  sb_patterns : list string
}.

Record PredictionResult : Type := {
  suggestedNumbers : list Z;
  bonusBall : Z;
  confidence : num;
  reasoning : list string;
  statisticalBasis : StatisticalBasis;
  alternativeSets : list (list Z)
}.

(** The engine object: [this.draws] and [this.weights]. *)
Record LottoPredictionEngine : Type := {
  draws : list LottoDraw;
  weights : PredictionWeights
}.

Definition orElse {A : Type} (o : option A) (d : A) : A :=
  match o with Some a => a | None => d end.

(** The constructor: the defaults, overridden by the custom weights. *)
Definition newEngine (ds : list LottoDraw) (customWeights : PartialWeights)
  : LottoPredictionEngine :=
  {| draws := ds;
     weights :=
       {| frequency := orElse (frequency_opt customWeights) (Fin (1 # 4));
          recency := orElse (recency_opt customWeights) (Fin (1 # 5));
          gaps := orElse (gaps_opt customWeights) (Fin (1 # 5));
          patterns := orElse (patterns_opt customWeights) (Fin (3 # 20));
          distribution :=
            orElse (distribution_opt customWeights) (Fin (1 # 10));
          correlation :=
            orElse (correlation_opt customWeights) (Fin (1 # 10)) |} |}.

(** The numbers of the domain, 1 to 49, as every [for (num = 1; num <= 49;
    num++)] loop visits them. *)
Definition domain : list Z := map Z.of_nat (seq 1 49).

(** ** Frequency analysis *)

(** [index >= this.draws.length - 100]. *)
Definition isRecentIndex (this : LottoPredictionEngine) (index : Z) : bool :=
  index >=? Z.of_nat (length (draws this)) - 100.

(** [frequency[num] = (frequency[num] || 0) + weight]. *)
Definition bump (weight : num) (freq : dict num) (n : Z) : dict num :=
  store n (add (get_or0 n freq) weight) freq.

Definition calculateAllTimeFrequency (this : LottoPredictionEngine)
  : dict num :=
  fold_left
    (fun freq '(index, draw) =>
       let isRecent := isRecentIndex this (Z.of_nat index) in
       let weight := if isRecent then of_Z 2 else of_Z 1 in
       fold_left (bump weight) (balls draw) freq)
    (indexed (draws this)) [].

Definition calculateRecentFrequency (this : LottoPredictionEngine)
  (drawCount : Z) : dict num :=
  let recentDraws := slice_from (- drawCount) (draws this) in
  fold_left
    (fun freq draw => fold_left (bump (of_Z 1)) (balls draw) freq)
    recentDraws [].

(** ** Gap analysis *)

(** The body of the loop of [calculateGaps] for one number: the gaps
    pushed so far and [lastSeen], updated by one draw. *)
Definition gapStep (this : LottoPredictionEngine) (num : Z)
  (st : list Z * Z) (entry : nat * LottoDraw) : list Z * Z :=
  let '(gs, lastSeen) := st in
  let '(i, draw) := entry in
  let index := Z.of_nat i in
  if includes (balls draw) num then
    if negb (lastSeen =? -1) then
      let gapSize := index - lastSeen in
      let isRecentGap := isRecentIndex this index in
      let gs1 := gs ++ [gapSize] in
      ((if isRecentGap then gs1 ++ [gapSize] else gs1), index)
    else (gs, index)
  else (gs, lastSeen).

Definition gapsOf (this : LottoPredictionEngine) (num : Z) : list Z :=
  let '(gs, lastSeen) :=
    fold_left (gapStep this num) (indexed (draws this)) ([], -1) in
  if negb (lastSeen =? -1) then
    let currentGap := Z.of_nat (length (draws this)) - 1 - lastSeen in
    let isRecentPosition := isRecentIndex this lastSeen in
    let gs1 := gs ++ [currentGap] in
    if isRecentPosition then gs1 ++ [currentGap] else gs1
  else gs.

Definition calculateGaps (this : LottoPredictionEngine) : dict (list Z) :=
  map (fun num => (num, gapsOf this num)) domain.

Definition calculateTotalWeightedDraws (this : LottoPredictionEngine) : Z :=
  let totalDraws := Z.of_nat (length (draws this)) in
  if totalDraws <=? 100 then totalDraws * 2
  else (totalDraws - 100) + (100 * 2).

Definition calculateExpectedGaps (this : LottoPredictionEngine) : dict num :=
  let totalWeightedDraws := of_Z (calculateTotalWeightedDraws this) in
  let frequency := calculateAllTimeFrequency this in
  map (fun num =>
         let weightedFreq := get_or0 num frequency in
         (num, if gtb weightedFreq zero
               then div totalWeightedDraws weightedFreq
               else totalWeightedDraws))
      domain.

(** [gapArray[gapArray.length - 1] || 0]. *)
Definition lastGap (gapArray : list Z) : Z := last gapArray 0.

(** ** Pattern and distribution analysis *)

(** The number of [i] with [numbers[i + 1] === numbers[i] + 1]. *)
Fixpoint countConsecutive (numbers : list Z) : Z :=
  match numbers with
  | a :: (b :: _) as rest =>
      (if b =? a + 1 then 1 else 0) + countConsecutive rest
  | _ => 0
  end.

Record ConsecutivePattern : Type := {
  cp_count : Z;
  cp_frequency : num
}.

Definition analyzeConsecutivePatterns (this : LottoPredictionEngine)
  : list ConsecutivePattern :=
  let consecutiveCount :=
    map (fun draw => countConsecutive (sort_ascending (balls draw)))
        (draws this) in
  map (fun count =>
         {| cp_count := count;
            cp_frequency :=
              div (of_nat (length (filter (fun c => c =? count)
                                          consecutiveCount)))
                  (of_nat (length (draws this))) |})
      [0; 1; 2; 3; 4; 5].

(** [values.reduce((a, b) => a + b, 0) / values.length] and the mean of
    the squared deviations from it. *)
Definition meanOf (values : list Z) : num :=
  div (of_Z (sumZ values)) (of_nat (length values)).

Definition varianceOf (values : list Z) (mean : num) : num :=
  div (fold_left (fun acc val => add acc (pow (sub (of_Z val) mean) 2))
                 values zero)
      (of_nat (length values)).

Definition analyzePositionPatterns (this : LottoPredictionEngine)
  : list (string * num) :=
  flat_map
    (fun '(pos, field) =>
       let values := map field (draws this) in
       let mean := meanOf values in
       let variance := varianceOf values mean in
       [((pos ++ "_mean")%string, mean);
        ((pos ++ "_variance")%string, variance)])
    [("B1"%string, B1); ("B2"%string, B2); ("B3"%string, B3);
     ("B4"%string, B4); ("B5"%string, B5); ("B6"%string, B6)].

Record SumDistribution : Type := {
  sd_mean : num;
  sd_stdDev : num;
  sd_range_min : num;
  sd_range_max : num
}.

(** The sums of the draws, each pushed twice when the draw is recent. *)
Definition weightedSumsOf (this : LottoPredictionEngine) : list Z :=
  fold_left
    (fun weightedSums '(index, draw) =>
       let sum := ballSum draw in
       let isRecent := isRecentIndex this (Z.of_nat index) in
       let weight := if isRecent then 2%nat else 1%nat in
       weightedSums ++ repeat sum weight)
    (indexed (draws this)) [].

Definition analyzeSumDistribution (this : LottoPredictionEngine)
  : SumDistribution :=
  let weightedSums := weightedSumsOf this in
  let mean := meanOf weightedSums in
  let variance := varianceOf weightedSums mean in
  let stdDev := sqrt variance in
  {| sd_mean := mean;
     sd_stdDev := stdDev;
     sd_range_min := min_list (map of_Z weightedSums);
     sd_range_max := max_list (map of_Z weightedSums) |}.

Record RangeDistribution : Type := {
  range_1_10 : num;
  range_11_20 : num;
  range_21_30 : num;
  range_31_40 : num;
  range_41_49 : num
}.

Definition analyzeRangeDistribution (this : LottoPredictionEngine)
  : RangeDistribution :=
  fold_left
    (fun ranges '(index, draw) =>
       let isRecent := isRecentIndex this (Z.of_nat index) in
       let weight := if isRecent then of_Z 2 else of_Z 1 in
       fold_left
         (fun r n =>
            if n <=? 10 then
              {| range_1_10 := add (range_1_10 r) weight;
                 range_11_20 := range_11_20 r; range_21_30 := range_21_30 r;
                 range_31_40 := range_31_40 r; range_41_49 := range_41_49 r |}
            else if n <=? 20 then
              {| range_1_10 := range_1_10 r;
                 range_11_20 := add (range_11_20 r) weight;
                 range_21_30 := range_21_30 r;
                 range_31_40 := range_31_40 r; range_41_49 := range_41_49 r |}
            else if n <=? 30 then
              {| range_1_10 := range_1_10 r; range_11_20 := range_11_20 r;
                 range_21_30 := add (range_21_30 r) weight;
                 range_31_40 := range_31_40 r; range_41_49 := range_41_49 r |}
            else if n <=? 40 then
              {| range_1_10 := range_1_10 r; range_11_20 := range_11_20 r;
                 range_21_30 := range_21_30 r;
                 range_31_40 := add (range_31_40 r) weight;
                 range_41_49 := range_41_49 r |}
            else
              {| range_1_10 := range_1_10 r; range_11_20 := range_11_20 r;
                 range_21_30 := range_21_30 r; range_31_40 := range_31_40 r;
                 range_41_49 := add (range_41_49 r) weight |})
         (balls draw) ranges)
    (indexed (draws this))
    {| range_1_10 := zero; range_11_20 := zero; range_21_30 := zero;
       range_31_40 := zero; range_41_49 := zero |}.

(** ** Trend analysis *)

Record Trends : Type := {
  recentTrend : num;
  volatility : num
}.

Definition analyzeTrends (this : LottoPredictionEngine) : Trends :=
  let recentSums := map ballSum (slice_from (-10) (draws this)) in
  let olderSums := map ballSum (slice (-20) (-10) (draws this)) in
  let recentAvg := meanOf recentSums in
  let olderAvg := meanOf olderSums in
  {| recentTrend := sub recentAvg olderAvg;
     volatility := sqrt (varianceOf recentSums recentAvg) |}.

(** The inner loop of [detectCycles],
    [for (i = 0; i < cycleLength && i + cycleLength < sums.length; i++)],
    started at [i] with [cycleLength - i] in [left]: the value of
    [isPattern] when the loop is left. *)
Fixpoint cycleScan (sums : list Z) (cycleLength : nat) (left i : nat)
  : bool :=
  match left with
  | O => true
  | S left' =>
      if (i + cycleLength <? length sums)%nat then
        if Z.abs (nth i sums 0 - nth (i + cycleLength) sums 0) >? 10
        then false
        else cycleScan sums cycleLength left' (S i)
      else true
  end.

(** The sums that [detectCycles] looks at. *)
Definition cycleSums (this : LottoPredictionEngine) : list Z :=
  map ballSum (slice_from (-30) (draws this)).

Definition detectCycles (this : LottoPredictionEngine) : list nat :=
  let sums := cycleSums this in
  filter (fun cycleLength => cycleScan sums cycleLength cycleLength 0)
         (seq 3 8).

(** ** Hot, cold, due and avoid numbers *)

(** The comparator [(a, b) => b[1] - a[1]] on the entries of a
    dictionary of numbers. *)
Definition byValueDescending (a b : Z * num) : num := sub (snd b) (snd a).

Definition identifyHotNumbers (this : LottoPredictionEngine) : list Z :=
  let recentFreq := calculateRecentFrequency this 15 in
  map fst (slice 0 12 (sort_by byValueDescending recentFreq)).

Definition identifyColdNumbers (this : LottoPredictionEngine) : list Z :=
  let recentFreq := calculateRecentFrequency this 20 in
  let allNumbers := domain in
  slice 0 15
    (filter (fun num =>
               match lookup num recentFreq with
               | Some v => falsy v
               | None => true
               end)
            allNumbers).

Definition identifyDueNumbers (this : LottoPredictionEngine) : list Z :=
  let gaps := calculateGaps this in
  let expectedGaps := calculateExpectedGaps this in
  map fst
    (slice 0 10
       (sort_by
          (fun a b =>
             let aGap := of_Z (lastGap (snd a)) in
             let bGap := of_Z (lastGap (snd b)) in
             let aExpected := get_num (fst a) expectedGaps in
             let bExpected := get_num (fst b) expectedGaps in
             sub (div bGap bExpected) (div aGap aExpected))
          (filter
             (fun '(num, gapArray) =>
                let currentGap := of_Z (lastGap gapArray) in
                let expected := get_num num expectedGaps in
                gtb currentGap (mul expected (Fin (3 # 2))))
             gaps))).

Definition identifyAvoidNumbers (this : LottoPredictionEngine) : list Z :=
  let recentFreq := calculateRecentFrequency this 10 in
  map fst
    (slice 0 8
       (sort_by byValueDescending
          (filter (fun '(_, freq) => geb freq (of_Z 3)) recentFreq))).

Definition calculateOptimalSumRange (this : LottoPredictionEngine)
  : SumRange :=
  let distribution := analyzeSumDistribution this in
  {| min := round (sub (sd_mean distribution) (sd_stdDev distribution));
     max := round (add (sd_mean distribution) (sd_stdDev distribution));
     target := round (sd_mean distribution) |}.

Definition detectPatterns (this : LottoPredictionEngine) : list string :=
  let recentDraws := slice_from (-10) (draws this) in
  let highLowBalance :=
    map (fun draw =>
           Z.of_nat (length (filter (fun n => n >? 24) (balls draw))))
        recentDraws in
  let avgHighs := meanOf highLowBalance in
  let p1 :=
    if gtb avgHighs (of_Z 4)
    then ["Recent bias toward high numbers"%string] else [] in
  let p2 :=
    if ltb avgHighs (of_Z 2)
    then ["Recent bias toward low numbers"%string] else [] in
  let consecutivePatterns := analyzeConsecutivePatterns this in
  let recentConsecutive :=
    find (fun p => cp_count p >=? 2) consecutivePatterns in
  let p3 :=
    match recentConsecutive with
    | Some p =>
        if gtb (cp_frequency p) (Fin (3 # 10))
        then ["Higher than normal consecutive number frequency"%string]
        else []
    | None => []
    end in
  p1 ++ p2 ++ p3.

(** ** The analysis snapshot *)

Module Analysis.
Record t : Type := {
  allTimeFrequency : dict num;
  recentFrequency : dict num;
  gaps : dict (list Z);
  expectedGaps : dict num;
  consecutivePatterns : list ConsecutivePattern;
  positionPatterns : list (string * num);
  sumDistribution : SumDistribution;
  rangeDistribution : RangeDistribution;
  trends : Trends;
  cycles : list nat;
  hotNumbers : list Z;
  coldNumbers : list Z;
  dueNumbers : list Z;
  avoidNumbers : list Z;
  optimalSumRange : SumRange;
  detectedPatterns : list string
}.
End Analysis.

Definition performCompleteAnalysis (this : LottoPredictionEngine)
  : Analysis.t :=
  {| Analysis.allTimeFrequency := calculateAllTimeFrequency this;
     Analysis.recentFrequency := calculateRecentFrequency this 20;
     Analysis.gaps := calculateGaps this;
     Analysis.expectedGaps := calculateExpectedGaps this;
     Analysis.consecutivePatterns := analyzeConsecutivePatterns this;
     Analysis.positionPatterns := analyzePositionPatterns this;
     Analysis.sumDistribution := analyzeSumDistribution this;
     Analysis.rangeDistribution := analyzeRangeDistribution this;
     Analysis.trends := analyzeTrends this;
     Analysis.cycles := detectCycles this;
     Analysis.hotNumbers := identifyHotNumbers this;
     Analysis.coldNumbers := identifyColdNumbers this;
     Analysis.dueNumbers := identifyDueNumbers this;
     Analysis.avoidNumbers := identifyAvoidNumbers this;
     Analysis.optimalSumRange := calculateOptimalSumRange this;
     Analysis.detectedPatterns := detectPatterns this |}.

(** ** The random source *)

(** A value that [Math.random()] can return: at least 0 and less than 1. *)
Record Unit01 : Type := {
  u_val : Q;
  u_ok : Qle_bool 0 u_val && Qltb u_val 1 = true
}.

Definition RandomSource : Type := nat -> Unit01.

(** The result of the [k]-th call of [Math.random()]. *)
Definition Math_random (rnd : RandomSource) (k : nat) : num :=
  Fin (u_val (rnd k)).

(** ** The number scoring model *)

Definition calculateNumberScores (this : LottoPredictionEngine)
  (analysis : Analysis.t) : dict num :=
  map
    (fun num =>
       let score := zero in
       let allTimeFreq := get_or0 num (Analysis.allTimeFrequency analysis) in
       let maxFreq :=
         max_list (Object_values (Analysis.allTimeFrequency analysis)) in
       let score :=
         add score
             (mul (mul (div allTimeFreq maxFreq) (frequency (weights this)))
                  (of_Z 100)) in
       let recentFreq := get_or0 num (Analysis.recentFrequency analysis) in
       let score :=
         add score
             (mul (Num.min (mul recentFreq (of_Z 25)) (of_Z 100))
                  (recency (weights this))) in
       let currentGap :=
         of_Z (lastGap (orElse (lookup num (Analysis.gaps analysis)) [])) in
       let expectedGap := get_num num (Analysis.expectedGaps analysis) in
       let gapRatio :=
         if gtb expectedGap zero then div currentGap expectedGap else zero in
       let score :=
         add score
             (mul (Num.min (mul gapRatio (of_Z 50)) (of_Z 100))
                  (gaps (weights this))) in
       let score :=
         if includes (Analysis.avoidNumbers analysis) num
         then mul score (Fin (3 # 10)) else score in
       let score :=
         if includes (Analysis.dueNumbers analysis) num
         then mul score (Fin (3 # 2)) else score in
       let score :=
         if includes (Analysis.hotNumbers analysis) num
         then mul score (Fin (6 # 5)) else score in
       (num, score))
    domain.

(** ** The constrained selection *)

(** The candidates in the order of their scores:
    [Object.entries(scores).sort((a, b) => b[1] - a[1]).map(parseInt)]. *)
Definition rankedCandidates (scores : dict num) : list Z :=
  map fst (sort_by byValueDescending scores).

(** [availableCandidates.map((num, index) => Math.pow(0.8, index))]. *)
Definition decayWeights (availableCandidates : list Z) : list num :=
  map (fun '(index, _) => pow (Fin (4 # 5)) index)
      (indexed availableCandidates).

(** The loop over [j]: subtract the weights from [random] one by one and
    take the first candidate at which it is 0 or less; none when the loop
    runs to the end of the array. *)
Fixpoint pickWeighted (random : num) (weights : list num)
  (availableCandidates : list Z) : option Z :=
  match availableCandidates, weights with
  | c :: cs, w :: ws =>
      let random := sub random w in
      if leb random zero then Some c else pickWeighted random ws cs
  | _, _ => None
  end.

(** The loop [for (let i = 0; i < 6; i++)] with [n] rounds to go. *)
Fixpoint drawLoop (rnd : RandomSource) (candidates : list Z) (n : nat)
  (selected : list Z) (k : nat) : list Z * nat :=
  match n with
  | O => (selected, k)
  | S n' =>
      let availableCandidates :=
        filter (fun num => negb (includes selected num)) candidates in
      let weights := decayWeights availableCandidates in
      let totalWeight := fold_left add weights zero in
      let random := mul (Math_random rnd k) totalWeight in
      match pickWeighted random weights availableCandidates with
      | Some c => drawLoop rnd candidates n' (selected ++ [c]) (S k)
      | None => drawLoop rnd candidates n' selected (S k)
      end
  end.

(** One attempt: [selected.length = 0] and the six rounds. *)
Definition attempt (rnd : RandomSource) (candidates : list Z) (k : nat)
  : list Z * nat :=
  drawLoop rnd candidates 6 [] k.

Definition inSumRange (range : SumRange) (selected : list Z) : bool :=
  let currentSum := of_Z (sumZ selected) in
  geb currentSum (min range) && leb currentSum (max range).

(** The loop [while (selected.length < 6 && attempts < maxAttempts)], with
    [maxAttempts - attempts] in [left]. *)
Fixpoint selectLoop (rnd : RandomSource) (candidates : list Z)
  (range : SumRange) (left : nat) (selected : list Z) (k : nat)
  : list Z * nat :=
  match left with
  | O => (selected, k)
  | S left' =>
      if (length selected <? 6)%nat then
        let '(selected, k) := attempt rnd candidates k in
        if inSumRange range selected then (selected, k)
        else selectLoop rnd candidates range left' selected k
      else (selected, k)
  end.

Definition maxAttempts : nat := 1000.

Definition selectOptimalNumbers (rnd : RandomSource)
  (scores : dict num) (analysis : Analysis.t) (k : nat) : list Z * nat :=
  let candidates := rankedCandidates scores in
  let '(selected, k) :=
    selectLoop rnd candidates (Analysis.optimalSumRange analysis)
               maxAttempts [] k in
  if negb (length selected =? 6)%nat
  then (slice 0 6 candidates, k)
  else (selected, k).

(** ** The bonus ball *)

Definition bonusFrequency (this : LottoPredictionEngine) : dict num :=
  fold_left
    (fun bonusFreq '(index, draw) =>
       let isRecent := isRecentIndex this (Z.of_nat index) in
       let weight := if isRecent then of_Z 2 else of_Z 1 in
       bump weight bonusFreq (BB draw))
    (indexed (draws this)) [].

Definition bonusScoresOf (this : LottoPredictionEngine) : dict num :=
  let bonusFreq := bonusFrequency this in
  let maxFreq := max_list (Object_values bonusFreq) in
  map (fun num =>
         let freq := get_or0 num bonusFreq in
         (num, mul (div freq maxFreq) (of_Z 100)))
      domain.

(** [Math.floor(Math.random() * n)] as an array index.  [Math.random()]
    is at least 0 and less than 1, so the value is a natural number below
    [n] (lemma [randomIndexBelow_lt]); the 0 of [orElse] stands for a
    value that is not an index, which cannot arise. *)
Definition randomIndexBelow (rnd : RandomSource) (k : nat) (n : num) : nat :=
  orElse (to_index (floor (mul (Math_random rnd k) n))) 0%nat.

(** [topBonus[randomIndex]]: the index is below 5 and [topBonus] has 10
    elements, so the default of [nth] ([undefined] in the code) is never
    returned. *)
Definition predictBonusBall (rnd : RandomSource)
  (this : LottoPredictionEngine) (analysis : Analysis.t) (k : nat)
  : Z * nat :=
  let sortedBonus := rankedCandidates (bonusScoresOf this) in
  let topBonus := slice 0 10 sortedBonus in
  let randomIndex :=
    randomIndexBelow rnd k (Num.min (of_nat (length topBonus)) (of_Z 5)) in
  (nth randomIndex topBonus 0, S k).

(** ** Confidence and reasoning *)

(** [selectedNumbers.filter(n => l.includes(n))]. *)
Definition selectedIn (l selectedNumbers : list Z) : list Z :=
  filter (includes l) selectedNumbers.

Definition calculateConfidence (analysis : Analysis.t)
  (selectedNumbers : list Z) : num :=
  let confidence := of_Z 50 in
  let dueCount :=
    length (selectedIn (Analysis.dueNumbers analysis) selectedNumbers) in
  let confidence := add confidence (mul (of_nat dueCount) (of_Z 8)) in
  let hotCount :=
    length (selectedIn (Analysis.hotNumbers analysis) selectedNumbers) in
  let confidence := add confidence (mul (of_nat hotCount) (of_Z 5)) in
  let coldCount :=
    length (selectedIn (Analysis.coldNumbers analysis) selectedNumbers) in
  let confidence := add confidence (mul (of_nat coldCount) (of_Z 3)) in
  let avoidCount :=
    length (selectedIn (Analysis.avoidNumbers analysis) selectedNumbers) in
  let confidence := sub confidence (mul (of_nat avoidCount) (of_Z 15)) in
  let sum := of_Z (sumZ selectedNumbers) in
  let sumAlignment :=
    abs (sub sum (target (Analysis.optimalSumRange analysis))) in
  let confidence := sub confidence (mul sumAlignment (Fin (1 # 2))) in
  Num.max (of_Z 10) (Num.min (of_Z 95) confidence).

Local Open Scope string_scope.

Definition showZ (z : Z) : string := NilZero.string_of_int (Z.to_int z).

Definition showNat (n : nat) : string := showZ (Z.of_nat n).

(** The text of a number in a template string.  The engine prints only
    results of [Math.round], which are integers or NaN; a fraction is
    shown as numerator and denominator. *)
Definition showNum (x : num) : string :=
  match x with
  | NaN => "NaN"
  | PInf => "Infinity"
  | NInf => "-Infinity"
  | Fin q =>
      let r := Qred q in
      if (Qden r =? 1)%positive then showZ (Qnum r)
      else showZ (Qnum r) ++ "/" ++ showZ (Zpos (Qden r))
  end.

(** [l.join(sep)] on numbers. *)
Definition joinZ (sep : string) (l : list Z) : string :=
  String.concat sep (map showZ l).

Record TriBand : Type := {
  low : nat;
  mid : nat;
  high : nat
}.

Definition generateReasoning (analysis : Analysis.t)
  (selectedNumbers : list Z) : list string :=
  let r0 :=
    ["Analysis uses doubled weight for last 100 draws vs normal weight for older data"] in
  let dueNumbers := selectedIn (Analysis.dueNumbers analysis) selectedNumbers in
  let r1 :=
    if (0 <? length dueNumbers)%nat
    then ["Selected " ++ showNat (length dueNumbers)
          ++ " statistically due numbers: " ++ joinZ ", " dueNumbers]
    else [] in
  let hotNumbers := selectedIn (Analysis.hotNumbers analysis) selectedNumbers in
  let r2 :=
    if (0 <? length hotNumbers)%nat
    then ["Included " ++ showNat (length hotNumbers)
          ++ " recently hot numbers: " ++ joinZ ", " hotNumbers]
    else [] in
  let coldNumbers :=
    selectedIn (Analysis.coldNumbers analysis) selectedNumbers in
  let r3 :=
    if (0 <? length coldNumbers)%nat
    then ["Balanced with " ++ showNat (length coldNumbers)
          ++ " cold numbers for variety: " ++ joinZ ", " coldNumbers]
    else [] in
  let sum := sumZ selectedNumbers in
  let r4 :=
    ["Total sum (" ++ showZ sum ++ ") falls within weighted optimal range "
     ++ showNum (min (Analysis.optimalSumRange analysis)) ++ "-"
     ++ showNum (max (Analysis.optimalSumRange analysis))] in
  let r5 :=
    if (0 <? length (Analysis.detectedPatterns analysis))%nat
    then ["Considered detected patterns: "
          ++ String.concat "; " (Analysis.detectedPatterns analysis)]
    else [] in
  let ranges :=
    fold_left
      (fun ranges n =>
         if (n <=? 16)%Z then
           {| low := S (low ranges); mid := mid ranges;
              high := high ranges |}
         else if (n <=? 33)%Z then
           {| low := low ranges; mid := S (mid ranges);
              high := high ranges |}
         else
           {| low := low ranges; mid := mid ranges;
              high := S (high ranges) |})
      selectedNumbers {| low := 0; mid := 0; high := 0 |} in
  let r6 :=
    ["Number distribution - Low(1-16): " ++ showNat (low ranges)
     ++ ", Mid(17-33): " ++ showNat (mid ranges)
     ++ ", High(34-49): " ++ showNat (high ranges)] in
  (r0 ++ r1 ++ r2 ++ r3 ++ r4 ++ r5 ++ r6)%list.

Local Close Scope string_scope.

(** ** Alternative sets *)

Inductive Strategy : Type := conservative | aggressive | balanced.

(** [candidatePool.splice(randomIndex, 1)]: the pool without the element
    at [randomIndex]. *)
Definition removeAt (randomIndex : nat) (candidatePool : list Z) : list Z :=
  (firstn randomIndex candidatePool
   ++ skipn (S randomIndex) candidatePool)%list.

(** The loop [while (selected.length < 6 && candidatePool.length > 0)],
    with [6 - selected.length] in [left].  [randomIndex] is below the
    length of the pool, so [splice] always removes one element and [nth]
    returns it. *)
Fixpoint poolLoop (rnd : RandomSource) (left : nat)
  (candidatePool selected : list Z) (k : nat) : list Z * nat :=
  match left with
  | O => (selected, k)
  | S left' =>
      if (0 <? length candidatePool)%nat then
        let randomIndex :=
          randomIndexBelow rnd k (of_nat (length candidatePool)) in
        poolLoop rnd left' (removeAt randomIndex candidatePool)
                 (selected ++ [nth randomIndex candidatePool 0]) (S k)
      else (selected, k)
  end.

Definition poolOf (strategy : Strategy) (topCandidates : list Z)
  (analysis : Analysis.t) : list Z :=
  match strategy with
  | conservative =>
      filter (fun n =>
                match lookup n (Analysis.allTimeFrequency analysis) with
                | Some v => gtb v (of_Z 10)
                | None => false
                end)
             topCandidates
  | aggressive =>
      slice 0 15
            (Analysis.dueNumbers analysis ++ Analysis.coldNumbers analysis)
  | balanced => topCandidates
  end.

Definition generateAlternativeSets (rnd : RandomSource)
  (scores : dict num) (analysis : Analysis.t) (k : nat)
  : list (list Z) * nat :=
  let topCandidates := slice 0 20 (rankedCandidates scores) in
  fold_left
    (fun '(alternatives, k) strategy =>
       let candidatePool := poolOf strategy topCandidates analysis in
       let '(selected, k) := poolLoop rnd 6 candidatePool [] k in
       if (length selected =? 6)%nat
       then (alternatives ++ [sort_ascending selected], k)
       else (alternatives, k))
    [conservative; aggressive; balanced]
    ([], k).

(** ** The entry points *)

Definition generatePrediction (rnd : RandomSource)
  (this : LottoPredictionEngine) : PredictionResult :=
  let analysis := performCompleteAnalysis this in
  let scores := calculateNumberScores this analysis in
  let '(suggestedNumbers, k) := selectOptimalNumbers rnd scores analysis 0 in
  let '(bonusBall, k) := predictBonusBall rnd this analysis k in
  let confidence := calculateConfidence analysis suggestedNumbers in
  let reasoning := generateReasoning analysis suggestedNumbers in
  let '(alternativeSets, _) := generateAlternativeSets rnd scores analysis k in
  {| suggestedNumbers := sort_ascending suggestedNumbers;
     bonusBall := bonusBall;
     confidence := confidence;
     reasoning := reasoning;
     statisticalBasis :=
       {| sb_hotNumbers := Analysis.hotNumbers analysis;
          sb_coldNumbers := Analysis.coldNumbers analysis;
          sb_dueNumbers := Analysis.dueNumbers analysis;
          sb_avoidNumbers := Analysis.avoidNumbers analysis;
          sb_sumRange := Analysis.optimalSumRange analysis;
          sb_patterns := Analysis.detectedPatterns analysis |};
     alternativeSets := alternativeSets |}.

Definition predictLottoNumbers (rnd : RandomSource)
  (draws : list LottoDraw) (customWeights : PartialWeights)
  : PredictionResult :=
  let engine := newEngine draws customWeights in
  generatePrediction rnd engine.

(** ** Predicates of the specification *)

(** A number that is finite and 0 or more. *)
Definition nonNegative (x : num) : bool := is_finite x && geb x zero.

(** Every weight is finite and 0 or more. *)
Definition nonNegativeWeights (w : PredictionWeights) : bool :=
  nonNegative (frequency w) && nonNegative (recency w)
  && nonNegative (gaps w) && nonNegative (patterns w)
  && nonNegative (distribution w) && nonNegative (correlation w).

(** The weights as the specification words them, each a float that is
    not negative: every weight is 0 or more.  [Infinity] is such a weight,
    NaN is not. *)
Definition weightsAtLeastZero (w : PredictionWeights) : bool :=
  geb (frequency w) zero && geb (recency w) zero
  && geb (gaps w) zero && geb (patterns w) zero
  && geb (distribution w) zero && geb (correlation w) zero.

(** A finite number that is 0 or more, and one that is more than 0. *)
Definition finiteNonNeg (x : num) : Prop :=
  exists q : Q, x = Fin q /\ (0 <= q)%Q.

Definition finitePos (x : num) : Prop :=
  exists q : Q, x = Fin q /\ (0 < q)%Q.

(** Every value of a dictionary is finite and more than 0. *)
Definition positiveValues (t : dict num) : Prop :=
  Forall (fun kv => finitePos (snd kv)) t.

(** [lo <= x && x <= hi]. *)
Definition between (lo hi x : num) : bool := leb lo x && leb x hi.

(** The constrained selection as section 4.5 of the specification words
    it, for comparison with [selectOptimalNumbers]: up to 1000 attempts,
    each a draw of six candidates as in [attempt]; the first attempt whose
    sum is in the optimal range is returned, and the top six candidates
    when no attempt is. *)
Fixpoint specifiedSelectLoop (rnd : RandomSource) (candidates : list Z)
  (range : SumRange) (left : nat) (k : nat) : option (list Z) * nat :=
  match left with
  | O => (None, k)
  | S left' =>
      let '(selected, k) := attempt rnd candidates k in
      if inSumRange range selected then (Some selected, k)
      else specifiedSelectLoop rnd candidates range left' k
  end.

Definition specifiedSelection (rnd : RandomSource)
  (scores : dict num) (analysis : Analysis.t) (k : nat) : list Z * nat :=
  let candidates := rankedCandidates scores in
  match specifiedSelectLoop rnd candidates
          (Analysis.optimalSumRange analysis) maxAttempts k with
  | (Some selected, k) => (selected, k)
  | (None, k) => (slice 0 6 candidates, k)
  end.

(** ** Sample histories and random sources *)

Definition draw_1_to_6 : LottoDraw :=
  {| Date := "06/01/2024";
     B1 := 1; B2 := 2; B3 := 3; B4 := 4; B5 := 5; B6 := 6; BB := 7 |}.

Definition draw_sum_100 : LottoDraw :=
  {| Date := "13/01/2024";
     B1 := 10; B2 := 12; B3 := 14; B4 := 16; B5 := 18; B6 := 30; BB := 7 |}.

Definition draw_1_and_high : LottoDraw :=
  {| Date := "20/01/2024";
     B1 := 1; B2 := 44; B3 := 45; B4 := 46; B5 := 47; B6 := 48; BB := 49 |}.

Definition draw_high : LottoDraw :=
  {| Date := "27/01/2024";
     B1 := 44; B2 := 45; B3 := 46; B4 := 47; B5 := 48; B6 := 49; BB := 1 |}.

(** 150 identical draws. *)
Definition history150 : list LottoDraw := repeat draw_1_to_6 150.

(** Six draws of sum 21 and then one of sum 100. *)
Definition historyCycle : list LottoDraw :=
  (repeat draw_1_to_6 6 ++ [draw_sum_100])%list.

(** Number 1 in the first 10 draws and in none of the next 30. *)
Definition historyDueCold : list LottoDraw :=
  (repeat draw_1_and_high 10 ++ repeat draw_high 30)%list.

Definition random_small : Unit01 := {| u_val := 1 # 100; u_ok := eq_refl |}.
Definition random_half : Unit01 := {| u_val := 1 # 2; u_ok := eq_refl |}.

(** [Math.random()] returns 0.01 at every call. *)
Definition alwaysSmall : RandomSource := fun _ => random_small.

(** [Math.random()] returns 0.5 at every call. *)
Definition alwaysHalf : RandomSource := fun _ => random_half.

(** 0.5 for the first six calls and 0.01 afterwards. *)
Definition halfThenSmall : RandomSource :=
  fun k => if (k <? 6)%nat then random_half else random_small.

(** The custom weights [{ frequency: Infinity }]. *)
Definition infiniteFrequency : PartialWeights :=
  {| frequency_opt := Some PInf; recency_opt := None; gaps_opt := None;
     patterns_opt := None; distribution_opt := None;
     correlation_opt := None |}.

(** ** Notions used to state what the analysis computes *)

(** The main numbers of a list of draws, draw after draw. *)
Definition ballsOf (ds : list LottoDraw) : list Z := flat_map balls ds.

(** How many times [n] occurs in a list of numbers. *)
Definition occurrences (n : Z) (l : list Z) : Z :=
  Z.of_nat (count_occ Z.eq_dec l n).

(** The draws whose index is at least [this.draws.length - 100], and the
    draws before them. *)
Definition last100Draws (this : LottoPredictionEngine) : list LottoDraw :=
  skipn (length (draws this) - 100) (draws this).

Definition olderDraws (this : LottoPredictionEngine) : list LottoDraw :=
  firstn (length (draws this) - 100) (draws this).

(** The sum of the values of a dictionary. *)
Definition dictTotal (t : dict num) : num :=
  fold_left add (Object_values t) zero.

(** The dictionary [t] holds the count [c k] under every key [k] with a
    count other than 0, holds no other key, and has its keys in ascending
    order. *)
Definition tabulates (t : dict num) (c : Z -> Z) : Prop :=
  StronglySorted Z.lt (map fst t) /\
  forall k : Z,
    0 <= c k /\
    lookup k t = if c k =? 0 then None else Some (of_Z (c k)).

(** The integer that an integer-valued number denotes, and the sum of
    the integers held by a dictionary. *)
Definition toZ (x : num) : Z :=
  match x with
  | Fin q => Qfloor q
  | _ => 0
  end.

Definition integerTotal (t : dict num) : Z :=
  fold_right (fun kv s => toZ (snd kv) + s) 0 t.

(** The sum of the five buckets of a range distribution. *)
Definition rangeTotal (r : RangeDistribution) : num :=
  add (add (add (add (range_1_10 r) (range_11_20 r)) (range_21_30 r))
           (range_31_40 r))
      (range_41_49 r).

(** What holds of a due number [n]: it is a number of the domain, a draw
    holds it, and the draw at the last index does not. *)
Definition overdue (this : LottoPredictionEngine) (n : Z) : Prop :=
  1 <= n <= 49 /\
  In n (ballsOf (draws this)) /\
  forall older newest,
    draws this = (older ++ [newest])%list -> ~ In n (balls newest).

(** The balls of the last [n] draws, as [draws.slice(-n)] selects them. *)
Definition lastBalls (this : LottoPredictionEngine) (n : nat) : list Z :=
  ballsOf (slice_from (- Z.of_nat n) (draws this)).

(** A range distribution whose five counters are the integers that add
    up to [s]. *)
Definition integerRanges (r : RangeDistribution) (s : Z) : Prop :=
  exists a b c d e : Z,
    r = {| range_1_10 := of_Z a; range_11_20 := of_Z b;
           range_21_30 := of_Z c; range_31_40 := of_Z d;
           range_41_49 := of_Z e |} /\
    a + b + c + d + e = s.

(** The bonus balls of a list of draws. *)
Definition bonusBallsOf (ds : list LottoDraw) : list Z := map BB ds.

(** A finite number between 0 and [q]. *)
Definition boundedBy (x : num) (q : Q) : Prop :=
  exists a : Q, x = Fin a /\ (0 <= a <= q)%Q.

(** What [calculateNumberScores] computes, operation by operation, for a
    number whose frequency is the largest one and whose recency and gap
    components reach their cap of 100, and that is due and hot and not to
    avoid. *)
Definition maximalScore (w : PredictionWeights) : num :=
  let score := zero in
  let score := add score (mul (mul (of_Z 1) (frequency w)) (of_Z 100)) in
  let score := add score (mul (of_Z 100) (recency w)) in
  let score := add score (mul (of_Z 100) (gaps w)) in
  let score := mul score (Fin (3 # 2)) in
  mul score (Fin (6 # 5)).

(** * Properties of the embedding *)

(** ** Numbers *)

#[local] Arguments add : simpl never.
#[local] Arguments sub : simpl never.
#[local] Arguments mul : simpl never.
#[local] Arguments div : simpl never.
#[local] Arguments leb : simpl never.
#[local] Arguments ltb : simpl never.
#[local] Arguments geb : simpl never.
#[local] Arguments gtb : simpl never.
#[local] Arguments Num.min : simpl never.
#[local] Arguments Num.max : simpl never.
#[local] Arguments of_Z : simpl never.
#[local] Arguments of_nat : simpl never.
#[local] Arguments zero : simpl never.

Lemma gtb_of_Z_zero (z : Z) : gtb (of_Z z) zero = (0 <? z).
Proof.
  unfold gtb, ltb, of_Z, zero, Qltb, Qle_bool, inject_Z; simpl.
  rewrite Z.mul_1_r.
  destruct (Z.leb_spec z 0), (Z.ltb_spec 0 z); simpl; trivial; lia.
Qed.

Lemma sub_nan_r (x : num) : sub x NaN = NaN.
Proof. destruct x; reflexivity. Qed.

Lemma u_bounds (u : Unit01) : (0 <= u_val u /\ u_val u < 1)%Q.
Proof.
  destruct u as [q H]; simpl.
  apply andb_true_iff in H; destruct H as [H0 H1]; split.
  - now apply Qle_bool_iff.
  - unfold Qltb in H1. apply negb_true_iff in H1.
    apply Qnot_le_lt. intro Hle. apply Qle_bool_iff in Hle. congruence.
Qed.

(** [Math.floor(Math.random() * m)] is an index below [m]. *)
Lemma randomIndexBelow_lt (rnd : RandomSource) (k m : nat) :
  (0 < m)%nat -> (randomIndexBelow rnd k (of_nat m) < m)%nat.
Proof.
  intros Hm. unfold randomIndexBelow, Math_random, of_nat, of_Z, mul, floor.
  destruct (u_bounds (rnd k)) as [H0 H1].
  set (r := u_val (rnd k)) in *.
  set (z := Qfloor (Qred (r * inject_Z (Z.of_nat m)))).
  assert (Hz : z = Qfloor (r * inject_Z (Z.of_nat m)))
    by (apply Qfloor_comp, Qred_correct).
  assert (Hm' : (0 < inject_Z (Z.of_nat m))%Q)
    by (change (inject_Z 0 < inject_Z (Z.of_nat m))%Q;
        rewrite <- Zlt_Qlt; lia).
  assert (Hlo : 0 <= z).
  { rewrite Hz. change 0 with (Qfloor 0). apply Qfloor_resp_le.
    apply Qmult_le_0_compat; trivial. now apply Qlt_le_weak. }
  assert (Hhi : z < Z.of_nat m).
  { rewrite Zlt_Qlt. eapply Qle_lt_trans; [rewrite Hz; apply Qfloor_le|].
    rewrite <- (Qmult_1_l (inject_Z (Z.of_nat m))) at 2.
    apply Qmult_lt_compat_r; trivial. }
  unfold to_index, of_Z. rewrite Qfloor_Z, Qeq_bool_refl.
  destruct (Z.leb_spec 0 z); [simpl; lia | lia].
Qed.

(** ** Arrays *)

Lemma insert_by_perm {A : Type} (cmp : A -> A -> num) (x : A) (l : list A) :
  Permutation (insert_by cmp x l) (x :: l).
Proof.
  induction l as [|y l IH]; simpl; [reflexivity|].
  destruct (gtb (cmp x y) zero); [|reflexivity].
  rewrite IH. apply perm_swap.
Qed.

Lemma sort_by_perm {A : Type} (cmp : A -> A -> num) (l : list A) :
  Permutation (sort_by cmp l) l.
Proof.
  induction l as [|x l IH]; simpl; [constructor|].
  rewrite insert_by_perm. now constructor.
Qed.

Lemma sort_ascending_perm (l : list Z) : Permutation (sort_ascending l) l.
Proof. apply sort_by_perm. Qed.

Lemma insert_ascending_sorted (x : Z) (l : list Z) :
  Sorted Z.le l ->
  Sorted Z.le (insert_by (fun a b => of_Z (a - b)) x l).
Proof.
  induction 1 as [|y l Hs IH Hd]; simpl.
  - repeat constructor.
  - rewrite gtb_of_Z_zero. destruct (Z.ltb_spec 0 (x - y)).
    + constructor; trivial.
      destruct Hd as [|z l Hyz]; simpl.
      * constructor; lia.
      * destruct (gtb _ _); constructor; trivial; lia.
    + constructor; [now constructor | constructor; lia].
Qed.

Lemma sort_ascending_sorted (l : list Z) : Sorted Z.le (sort_ascending l).
Proof.
  unfold sort_ascending, sort_by.
  induction l as [|x l IH]; simpl; [constructor|].
  now apply insert_ascending_sorted.
Qed.

Lemma slice_firstn {A : Type} (n : nat) (l : list A) :
  slice 0 (Z.of_nat n) l = firstn n l.
Proof.
  unfold slice, clamp_index. change (0 <? 0) with false. cbv iota.
  destruct (Z.ltb_spec (Z.of_nat n) 0); [lia|].
  replace (Z.min 0 (Z.of_nat (length l))) with 0 by lia.
  change (skipn (Z.to_nat 0) l) with l.
  destruct (Nat.le_gt_cases n (length l)).
  - f_equal. lia.
  - rewrite !firstn_all2; trivial; lia.
Qed.

Lemma slice_from_skipn {A : Type} (n : nat) (l : list A) :
  (0 < n)%nat ->
  slice_from (- Z.of_nat n) l = skipn (length l - n) l.
Proof.
  intros Hn. unfold slice_from, slice, clamp_index.
  destruct (Z.ltb_spec (- Z.of_nat n) 0); [|lia].
  destruct (Z.ltb_spec (Z.of_nat (length l)) 0); [lia|].
  rewrite Z.min_id.
  replace (Z.to_nat (Z.max (Z.of_nat (length l) + - Z.of_nat n) 0))
    with (length l - n)%nat by lia.
  apply firstn_all2. rewrite length_skipn. lia.
Qed.

(** The older window of [analyzeTrends] is empty up to 10 draws. *)
Lemma slice_older_empty {A : Type} (l : list A) :
  (length l <= 10)%nat -> slice (-20) (-10) l = [].
Proof.
  intros Hl. unfold slice, clamp_index. simpl.
  rewrite !Z.max_r by lia. reflexivity.
Qed.

Lemma in_indexed {A : Type} (l : list A) (i : nat) (x : A) :
  In (i, x) (indexed l) -> (i < length l)%nat.
Proof.
  unfold indexed. intros H. apply in_combine_l in H.
  apply in_seq in H. lia.
Qed.

(** ** The domain *)

Lemma in_domain (n : Z) : In n domain <-> 1 <= n <= 49.
Proof.
  unfold domain. rewrite in_map_iff. split.
  - intros [i [<- Hi]]. apply in_seq in Hi. lia.
  - intros H. exists (Z.to_nat n). split; [lia|]. apply in_seq. lia.
Qed.

Lemma NoDup_domain : NoDup domain.
Proof.
  unfold domain. apply Finite.Injective_map_NoDup.
  - intros a b. apply Nat2Z.inj.
  - apply seq_NoDup.
Qed.

Lemma length_domain : length domain = 49%nat.
Proof. reflexivity. Qed.

(** ** The ranking of the candidates *)

Lemma rankedCandidates_perm (scores : dict num) :
  Permutation (rankedCandidates scores) (map fst scores).
Proof. unfold rankedCandidates. apply Permutation_map, sort_by_perm. Qed.

Lemma keys_calculateNumberScores (this : LottoPredictionEngine)
  (analysis : Analysis.t) :
  map fst (calculateNumberScores this analysis) = domain.
Proof.
  unfold calculateNumberScores. rewrite map_map. apply map_id.
Qed.

Lemma keys_bonusScoresOf (this : LottoPredictionEngine) :
  map fst (bonusScoresOf this) = domain.
Proof. unfold bonusScoresOf. rewrite map_map. apply map_id. Qed.

(** A ranking of a dictionary whose keys are the domain holds the 49
    numbers of the domain, each once. *)
Section Ranking.

Variable scores : dict num.
Hypothesis keys : map fst scores = domain.

Lemma ranked_perm_domain : Permutation (rankedCandidates scores) domain.
Proof. rewrite <- keys. apply rankedCandidates_perm. Qed.

Lemma ranked_NoDup : NoDup (rankedCandidates scores).
Proof.
  eapply Permutation_NoDup; [symmetry; apply ranked_perm_domain|].
  apply NoDup_domain.
Qed.

Lemma ranked_length : length (rankedCandidates scores) = 49%nat.
Proof.
  rewrite (Permutation_length ranked_perm_domain). apply length_domain.
Qed.

Lemma ranked_in (n : Z) : In n (rankedCandidates scores) -> 1 <= n <= 49.
Proof.
  intros H. apply in_domain.
  eapply Permutation_in; [apply ranked_perm_domain | exact H].
Qed.

End Ranking.

(** ** Weighted sampling *)

Lemma pickWeighted_in (random : num) (ws : list num) (cs : list Z) (c : Z) :
  pickWeighted random ws cs = Some c -> In c cs.
Proof.
  revert random cs.
  induction ws as [|w ws IH]; intros random [|c0 cs]; simpl;
    try discriminate.
  destruct (leb (sub random w) zero).
  - intros [= ->]. now left.
  - intros H. right. eapply IH, H.
Qed.

Lemma decayWeights_length (l : list Z) :
  length (decayWeights l) = length l.
Proof.
  unfold decayWeights, indexed.
  rewrite length_map, length_combine, length_seq. lia.
Qed.

Lemma pow_decay_nonneg (i : nat) : finiteNonNeg (pow (Fin (4 # 5)) i).
Proof.
  destruct i as [|i].
  - exists 1%Q. split; [reflexivity | discriminate].
  - eexists. split; [reflexivity|].
    rewrite Qred_correct. apply Qpower_0_le. discriminate.
Qed.

Lemma decayWeights_nonneg (l : list Z) :
  Forall finiteNonNeg (decayWeights l).
Proof.
  unfold decayWeights. apply Forall_forall. intros w Hw.
  apply in_map_iff in Hw. destruct Hw as [[i c] [<- _]].
  apply pow_decay_nonneg.
Qed.

(** The total of non-negative weights added to [a] is finite and at
    least [a]. *)
Lemma total_nonneg (ws : list num) (a : Q) :
  Forall finiteNonNeg ws ->
  exists t : Q, fold_left add ws (Fin a) = Fin t /\ (a <= t)%Q.
Proof.
  intros H. revert a. induction H as [|w ws [q [-> Hq]] _ IH]; intros a.
  - exists a. split; [reflexivity | apply Qle_refl].
  - simpl. destruct (IH (Qred (a + q))) as [t [Ht Hle]].
    exists t. split; [exact Ht|].
    rewrite Qred_correct in Hle. lra.
Qed.

(** With exact arithmetic the loop over [j] always takes a candidate:
    once every weight is subtracted, [random] is 0 or less. *)
Lemma pickWeighted_some (ws : list num) (cs : list Z) (x a t : Q) :
  Forall finiteNonNeg ws ->
  length ws = length cs ->
  cs <> [] ->
  fold_left add ws (Fin a) = Fin t ->
  (x + a <= t)%Q ->
  exists c : Z, pickWeighted (Fin x) ws cs = Some c.
Proof.
  intros Hws. revert cs x a.
  induction Hws as [|w ws [q [-> Hq]] Hws IH]; intros cs x a Hlen Hne Ht Hx.
  - destruct cs; [congruence | discriminate].
  - destruct cs as [|c cs]; [congruence|].
    cbn [pickWeighted fold_left length] in *.
    destruct (leb (sub (Fin x) (Fin q)) zero) eqn:E; [now exists c|].
    assert (Hpos : ~ (x + - q <= 0)%Q).
    { intros Hle. unfold leb, sub, neg, add, zero, of_Z in E.
      rewrite <- Qle_bool_iff in Hle.
      erewrite Qleb_comp in E; [rewrite Hle in E; discriminate | | reflexivity].
      rewrite Qred_correct, Qred_correct. reflexivity. }
    destruct cs as [|c' cs].
    + destruct ws; [|discriminate]. cbn [fold_left] in Ht.
      unfold add in Ht.
      assert (Et : t = Qred (a + q)) by congruence.
      exfalso. apply Hpos. rewrite Et, Qred_correct in Hx. lra.
    + apply (IH (c' :: cs) _ (Qred (a + q))); trivial.
      * now injection Hlen.
      * discriminate.
      * rewrite !Qred_correct. lra.
Qed.

(** ** One attempt of the selection *)

Lemma includes_true (l : list Z) (n : Z) :
  includes l n = true <-> In n l.
Proof.
  unfold includes. rewrite existsb_exists. split.
  - intros [x [Hx E]]. apply Z.eqb_eq in E. now subst.
  - intros H. exists n. split; trivial. apply Z.eqb_refl.
Qed.

Lemma includes_false (l : list Z) (n : Z) :
  includes l n = false <-> ~ In n l.
Proof.
  rewrite <- includes_true. destruct (includes l n); split; congruence.
Qed.

Section Attempt.

Variable rnd : RandomSource.
Variable candidates : list Z.

(** Every round of the loop over [i] calls [Math.random()] once. *)
Lemma drawLoop_counter (n : nat) (selected : list Z) (k : nat) :
  snd (drawLoop rnd candidates n selected k) = (k + n)%nat.
Proof.
  revert selected k. induction n as [|n IH]; intros selected k;
    cbn [drawLoop].
  - simpl. lia.
  - destruct (pickWeighted _ _ _); rewrite IH; lia.
Qed.

(** The numbers pushed by the loop over [i] are candidates that were not
    selected before, whether or not every round pushes one. *)
Lemma drawLoop_distinct (n : nat) (selected : list Z) (k : nat) :
  NoDup selected ->
  incl selected candidates ->
  NoDup (fst (drawLoop rnd candidates n selected k)) /\
  incl (fst (drawLoop rnd candidates n selected k)) candidates.
Proof.
  revert selected k. induction n as [|n IH]; intros selected k Hnd Hincl;
    cbn [drawLoop].
  - now split.
  - destruct (pickWeighted _ _ _) as [c|] eqn:Hc; [|now apply IH].
    apply pickWeighted_in in Hc. apply filter_In in Hc.
    destruct Hc as [Hcin Hcnot].
    apply negb_true_iff, includes_false in Hcnot.
    apply IH.
    + eapply Permutation_NoDup; [apply Permutation_cons_append|].
      now constructor.
    + intros x Hx. apply in_app_or in Hx.
      destruct Hx as [Hx|[<-|[]]]; auto.
Qed.

Lemma attempt_distinct (k : nat) :
  NoDup (fst (attempt rnd candidates k)) /\
  incl (fst (attempt rnd candidates k)) candidates.
Proof.
  unfold attempt. apply drawLoop_distinct; [constructor | intros x []].
Qed.

(** Whatever number of attempts the loop makes, what it leaves in
    [selected] are distinct candidates. *)
Lemma selectLoop_distinct (range : SumRange) (left : nat)
  (selected : list Z) (k : nat) :
  NoDup selected ->
  incl selected candidates ->
  NoDup (fst (selectLoop rnd candidates range left selected k)) /\
  incl (fst (selectLoop rnd candidates range left selected k)) candidates.
Proof.
  revert selected k. induction left as [|left IH]; intros selected k Hnd Hincl;
    cbn [selectLoop].
  - now split.
  - destruct (length selected <? 6)%nat; [|now split].
    destruct (attempt_distinct k) as [Hnd' Hincl'].
    destruct (attempt rnd candidates k) as [selected' k'].
    cbn [fst] in Hnd', Hincl'.
    destruct (inSumRange range selected'); [now split | now apply IH].
Qed.

Lemma selectLoop_counter (range : SumRange) (left : nat)
  (selected : list Z) (k : nat) :
  (k <= snd (selectLoop rnd candidates range left selected k))%nat.
Proof.
  revert selected k. induction left as [|left IH]; intros selected k;
    cbn [selectLoop].
  - simpl. lia.
  - destruct (length selected <? 6)%nat; [|simpl; lia].
    pose proof (drawLoop_counter 6 [] k) as Hk.
    fold (attempt rnd candidates k) in Hk.
    destruct (attempt rnd candidates k) as [selected' k'].
    cbn [snd] in Hk. subst k'.
    destruct (inSumRange range selected'); [simpl; lia|].
    eapply Nat.le_trans; [|apply IH]. lia.
Qed.

(** The loop starts with an empty selection, so it makes at least one
    attempt: six calls of [Math.random()]. *)
Lemma selectLoop_first_calls (range : SumRange) (left k : nat) :
  (k + 6 <= snd (selectLoop rnd candidates range (S left) [] k))%nat.
Proof.
  cbn [selectLoop]. change (length [] <? 6)%nat with true. cbv iota.
  pose proof (drawLoop_counter 6 [] k) as Hk.
  fold (attempt rnd candidates k) in Hk.
  destruct (attempt rnd candidates k) as [selected' k'].
  cbn [snd] in Hk. subst k'.
  destruct (inSumRange range selected'); [simpl; lia|].
  apply selectLoop_counter.
Qed.

(** *** With exact arithmetic *)

Hypothesis candidates_NoDup : NoDup candidates.

(** While fewer numbers are selected than there are candidates, a
    candidate is available. *)
Lemma available_nonempty (selected : list Z) :
  (length selected < length candidates)%nat ->
  filter (fun num => negb (includes selected num)) candidates <> [].
Proof.
  intros Hlt Hnil.
  assert (Hincl : incl candidates selected).
  { intros c Hc. destruct (includes selected c) eqn:E.
    - now apply includes_true.
    - exfalso. assert (Hin : In c []); [|destruct Hin].
      rewrite <- Hnil. apply filter_In. split; trivial. now rewrite E. }
  pose proof (NoDup_incl_length candidates_NoDup Hincl). lia.
Qed.

(** With exact arithmetic every round of the loop over [i] pushes a
    candidate. *)
Lemma drawLoop_length (n : nat) (selected : list Z) (k : nat) :
  (length selected + n <= length candidates)%nat ->
  length (fst (drawLoop rnd candidates n selected k))
  = (length selected + n)%nat.
Proof.
  revert selected k. induction n as [|n IH]; intros selected k Hlen.
  - simpl. lia.
  - cbn [drawLoop].
    set (avail := filter (fun num => negb (includes selected num)) candidates).
    assert (Hne : avail <> []) by (apply available_nonempty; lia).
    destruct (total_nonneg (decayWeights avail) 0 (decayWeights_nonneg avail))
      as [t [Ht Hpos]].
    change (Fin 0) with zero in Ht. rewrite Ht.
    destruct (u_bounds (rnd k)) as [Hr0 Hr1].
    destruct (pickWeighted_some (decayWeights avail) avail
                (Qred (u_val (rnd k) * t)) 0 t) as [c Hc]; trivial.
    + apply decayWeights_nonneg.
    + apply decayWeights_length.
    + rewrite Qred_correct, Qplus_0_r.
      rewrite <- (Qmult_1_l t) at 2.
      apply Qmult_le_compat_r; trivial. now apply Qlt_le_weak.
    + unfold Math_random, mul. rewrite Hc.
      rewrite IH; rewrite length_app; simpl; lia.
Qed.

Lemma attempt_length (k : nat) :
  (6 <= length candidates)%nat ->
  length (fst (attempt rnd candidates k)) = 6%nat.
Proof. intros H. unfold attempt. now rewrite drawLoop_length. Qed.

(** The loop over the attempts is then left after the first attempt:
    either by [break], or because [selected.length < 6] no longer
    holds. *)
Lemma selectLoop_first_attempt (range : SumRange) (left k : nat) :
  (6 <= length candidates)%nat ->
  selectLoop rnd candidates range (S left) [] k = attempt rnd candidates k.
Proof.
  intros H. pose proof (attempt_length k H) as Hlen.
  cbn [selectLoop]. change (length [] <? 6)%nat with true. cbv iota.
  destruct (attempt rnd candidates k) as [selected k'] eqn:E.
  simpl in Hlen.
  destruct (inSumRange range selected); [reflexivity|].
  destruct left as [|left]; [reflexivity|].
  cbn [selectLoop]. rewrite Hlen. reflexivity.
Qed.

End Attempt.

Lemma NoDup_firstn {A : Type} (n : nat) (l : list A) :
  NoDup l -> NoDup (firstn n l).
Proof.
  intros H. rewrite <- (firstn_skipn n l) in H.
  now apply NoDup_app_remove_r in H.
Qed.

Lemma in_firstn {A : Type} (n : nat) (l : list A) (x : A) :
  In x (firstn n l) -> In x l.
Proof.
  intros H. rewrite <- (firstn_skipn n l). apply in_or_app. now left.
Qed.

(** The selection returns 6 distinct candidates, by its loop or by its
    fallback, and calls [Math.random()] at least six times. *)
Lemma selectOptimalNumbers_valid (rnd : RandomSource)
  (scores : dict num) (analysis : Analysis.t) (k : nat) :
  map fst scores = domain ->
  let r := selectOptimalNumbers rnd scores analysis k in
  length (fst r) = 6%nat /\ NoDup (fst r) /\
  incl (fst r) (rankedCandidates scores) /\ (k + 6 <= snd r)%nat.
Proof.
  intros keys. unfold selectOptimalNumbers, maxAttempts. cbv zeta.
  pose proof (selectLoop_distinct rnd (rankedCandidates scores)
                (Analysis.optimalSumRange analysis) 1000 [] k
                (NoDup_nil Z) (incl_nil_l _)) as [Hnd Hincl].
  pose proof (selectLoop_first_calls rnd (rankedCandidates scores)
                (Analysis.optimalSumRange analysis) 999 k) as Hk.
  destruct (selectLoop rnd (rankedCandidates scores) _ 1000 [] k)
    as [selected k'].
  cbn [fst snd] in Hnd, Hincl, Hk.
  destruct (Nat.eqb_spec (length selected) 6) as [E|E]; cbn [negb fst snd].
  - repeat split; trivial.
  - change 6 with (Z.of_nat 6). rewrite slice_firstn.
    split; [|split; [|split]]; trivial.
    + apply firstn_length_le. rewrite (ranked_length scores keys). lia.
    + apply NoDup_firstn, (ranked_NoDup scores keys).
    + intros x Hx. now apply in_firstn in Hx.
Qed.

(** With exact arithmetic the selection returns its first attempt,
    whatever the sum of that attempt is: no second attempt is made and the
    fallback is not reached.  (With the rounding of IEEE-754 the loop over
    [j] could end without a pick; only then would an attempt hold fewer
    than six numbers and the loop go on.) *)
Lemma selectOptimalNumbers_first_attempt (rnd : RandomSource)
  (scores : dict num) (analysis : Analysis.t) (k : nat) :
  map fst scores = domain ->
  selectOptimalNumbers rnd scores analysis k =
  attempt rnd (rankedCandidates scores) k.
Proof.
  intros keys. unfold selectOptimalNumbers, maxAttempts.
  assert (Hlen : (6 <= length (rankedCandidates scores))%nat)
    by (rewrite (ranked_length scores keys); lia).
  rewrite (selectLoop_first_attempt rnd _ (ranked_NoDup scores keys)
             _ 999 k Hlen).
  pose proof (attempt_length rnd _ (ranked_NoDup scores keys) k Hlen) as H6.
  destruct (attempt rnd (rankedCandidates scores) k) as [selected k'].
  simpl in H6. rewrite H6. reflexivity.
Qed.

(** ** The bonus ball *)

Lemma predictBonusBall_domain (rnd : RandomSource)
  (this : LottoPredictionEngine) (analysis : Analysis.t) (k : nat) :
  1 <= fst (predictBonusBall rnd this analysis k) <= 49.
Proof.
  unfold predictBonusBall. cbn [fst].
  change 10 with (Z.of_nat 10). rewrite slice_firstn.
  assert (Hlen : length (firstn 10 (rankedCandidates (bonusScoresOf this)))
                 = 10%nat).
  { apply firstn_length_le.
    rewrite (ranked_length _ (keys_bonusScoresOf this)). lia. }
  rewrite Hlen.
  change (Num.min (of_nat 10) (of_Z 5)) with (of_nat 5).
  pose proof (randomIndexBelow_lt rnd k 5 ltac:(lia)) as Hidx.
  apply (ranked_in _ (keys_bonusScoresOf this)).
  apply (in_firstn 10). apply nth_In. rewrite Hlen.
  eapply Nat.lt_trans; [exact Hidx | lia].
Qed.

(** ** The alternative sets *)

Lemma fold_left_invariant {A B : Type} (P : A -> Prop) (f : A -> B -> A)
  (l : list B) (a : A) :
  (forall a b, P a -> P (f a b)) -> P a -> P (fold_left f l a).
Proof.
  intros Hstep. revert a. induction l as [|b l IH]; intros a Ha; simpl; auto.
Qed.

Lemma generateAlternativeSets_shape (rnd : RandomSource) (scores : dict num)
  (analysis : Analysis.t) (k : nat) :
  Forall (fun set => length set = 6%nat /\ Sorted Z.le set)
         (fst (generateAlternativeSets rnd scores analysis k)).
Proof.
  unfold generateAlternativeSets.
  apply (fold_left_invariant
           (fun st : list (list Z) * nat =>
              Forall (fun set => length set = 6%nat /\ Sorted Z.le set)
                     (fst st))).
  - intros [alternatives k0] strategy Halt. cbn [fst] in Halt.
    destruct (poolLoop rnd 6 _ [] k0) as [selected k1].
    destruct (length selected =? 6)%nat eqn:E; cbn [fst]; trivial.
    apply Forall_app. split; trivial.
    constructor; [|constructor]. split.
    + rewrite (Permutation_length (sort_ascending_perm selected)).
      now apply Nat.eqb_eq.
    + apply sort_ascending_sorted.
  - constructor.
Qed.

(** ** The fields of a prediction *)

Lemma generatePrediction_fields (rnd : RandomSource)
  (this : LottoPredictionEngine) :
  let analysis := performCompleteAnalysis this in
  let scores := calculateNumberScores this analysis in
  let sel := selectOptimalNumbers rnd scores analysis 0 in
  let bon := predictBonusBall rnd this analysis (snd sel) in
  let alt := generateAlternativeSets rnd scores analysis (snd bon) in
  generatePrediction rnd this =
  {| suggestedNumbers := sort_ascending (fst sel);
     bonusBall := fst bon;
     confidence := calculateConfidence analysis (fst sel);
     reasoning := generateReasoning analysis (fst sel);
     statisticalBasis :=
       {| sb_hotNumbers := Analysis.hotNumbers analysis;
          sb_coldNumbers := Analysis.coldNumbers analysis;
          sb_dueNumbers := Analysis.dueNumbers analysis;
          sb_avoidNumbers := Analysis.avoidNumbers analysis;
          sb_sumRange := Analysis.optimalSumRange analysis;
          sb_patterns := Analysis.detectedPatterns analysis |};
     alternativeSets := fst alt |}.
Proof.
  intros analysis scores sel bon alt.
  unfold generatePrediction. fold analysis. fold scores.
  subst alt bon sel.
  destruct (selectOptimalNumbers rnd scores analysis 0) as [s k].
  cbn [fst snd].
  destruct (predictBonusBall rnd this analysis k) as [b k'].
  cbn [fst snd].
  destruct (generateAlternativeSets rnd scores analysis k') as [a k''].
  reflexivity.
Qed.

Lemma suggestedNumbers_valid (rnd : RandomSource)
  (this : LottoPredictionEngine) :
  let numbers := suggestedNumbers (generatePrediction rnd this) in
  length numbers = 6%nat /\ NoDup numbers /\
  Forall (fun n => 1 <= n <= 49) numbers /\ Sorted Z.le numbers.
Proof.
  intros numbers. subst numbers. rewrite generatePrediction_fields.
  cbn [suggestedNumbers].
  set (analysis := performCompleteAnalysis this).
  set (scores := calculateNumberScores this analysis).
  pose proof (keys_calculateNumberScores this analysis) as keys.
  fold scores in keys.
  destruct (selectOptimalNumbers_valid rnd scores analysis 0 keys)
    as [Hlen [Hnd [Hincl _]]].
  pose proof (sort_ascending_perm
                (fst (selectOptimalNumbers rnd scores analysis 0))) as Hperm.
  split; [|split; [|split]].
  - now rewrite (Permutation_length Hperm).
  - eapply Permutation_NoDup; [symmetry; exact Hperm | exact Hnd].
  - apply Forall_forall. intros n Hn. apply (ranked_in scores keys), Hincl.
    eapply Permutation_in; [exact Hperm | exact Hn].
  - apply sort_ascending_sorted.
Qed.

(** ** Cycle detection *)

Lemma cycleScan_spec (sums : list Z) (cycleLength left i : nat) :
  cycleScan sums cycleLength left i = true <->
  (forall j : nat,
      (i <= j < i + left)%nat ->
      (j + cycleLength < length sums)%nat ->
      Z.abs (nth j sums 0 - nth (j + cycleLength) sums 0) <= 10).
Proof.
  revert i. induction left as [|left IH]; intros i; cbn [cycleScan].
  - split; trivial. intros _ j Hj. lia.
  - destruct (Nat.ltb_spec (i + cycleLength) (length sums)) as [Hlt|Hge].
    + destruct (Z.gtb_spec
                  (Z.abs (nth i sums 0 - nth (i + cycleLength) sums 0)) 10)
        as [Hfar|Hnear].
      * split; [discriminate|]. intros H.
        specialize (H i ltac:(lia) Hlt). lia.
      * rewrite IH. split; intros H j Hj Hjl.
        -- destruct (Nat.eq_dec j i) as [->|Hne]; [lia|].
           apply H; trivial. lia.
        -- apply H; trivial. lia.
    + split; trivial. intros _ j Hj Hjl. lia.
Qed.

Lemma cycleSums_last30 (this : LottoPredictionEngine) :
  cycleSums this =
  map ballSum (skipn (length (draws this) - 30) (draws this)).
Proof.
  unfold cycleSums. change (-30) with (- Z.of_nat 30).
  rewrite slice_from_skipn by lia. reflexivity.
Qed.

(** ** Trends *)

Lemma meanOf_nil : meanOf [] = NaN.
Proof. reflexivity. Qed.

Lemma recentTrend_short (this : LottoPredictionEngine) :
  (length (draws this) <= 10)%nat -> recentTrend (analyzeTrends this) = NaN.
Proof.
  intros H. unfold analyzeTrends. cbn [recentTrend].
  rewrite slice_older_empty by exact H.
  cbn [map]. rewrite meanOf_nil. apply sub_nan_r.
Qed.

(** ** Confidence *)

Lemma calculateConfidence_nan (analysis : Analysis.t) (selected : list Z) :
  target (Analysis.optimalSumRange analysis) = NaN ->
  calculateConfidence analysis selected = NaN.
Proof.
  intros H. unfold calculateConfidence. cbv zeta. rewrite H, sub_nan_r.
  reflexivity.
Qed.

(** ** What the analysis and the scores depend on *)

(** The analysis reads the draws of the engine and not its weights. *)
Section SameDraws.

Variable history : list LottoDraw.
Variables w1 w2 : PredictionWeights.

Let engine1 := {| draws := history; weights := w1 |}.
Let engine2 := {| draws := history; weights := w2 |}.

Lemma calculateAllTimeFrequency_weights :
  calculateAllTimeFrequency engine1 = calculateAllTimeFrequency engine2.
Proof. reflexivity. Qed.

Lemma calculateRecentFrequency_weights (drawCount : Z) :
  calculateRecentFrequency engine1 drawCount
  = calculateRecentFrequency engine2 drawCount.
Proof. reflexivity. Qed.

Lemma calculateGaps_weights : calculateGaps engine1 = calculateGaps engine2.
Proof. reflexivity. Qed.

Lemma calculateExpectedGaps_weights :
  calculateExpectedGaps engine1 = calculateExpectedGaps engine2.
Proof. reflexivity. Qed.

Lemma identifyColdNumbers_weights :
  identifyColdNumbers engine1 = identifyColdNumbers engine2.
Proof.
  unfold identifyColdNumbers.
  now rewrite calculateRecentFrequency_weights.
Qed.

Lemma identifyDueNumbers_weights :
  identifyDueNumbers engine1 = identifyDueNumbers engine2.
Proof.
  unfold identifyDueNumbers.
  now rewrite calculateGaps_weights, calculateExpectedGaps_weights.
Qed.

Lemma performCompleteAnalysis_weights :
  performCompleteAnalysis engine1 = performCompleteAnalysis engine2.
Proof.
  unfold performCompleteAnalysis.
  rewrite identifyColdNumbers_weights, identifyDueNumbers_weights.
  reflexivity.
Qed.

Lemma predictBonusBall_weights (rnd : RandomSource) (analysis : Analysis.t)
  (k : nat) :
  predictBonusBall rnd engine1 analysis k
  = predictBonusBall rnd engine2 analysis k.
Proof. reflexivity. Qed.

Hypothesis same_frequency : frequency w1 = frequency w2.
Hypothesis same_recency : recency w1 = recency w2.
Hypothesis same_gaps : gaps w1 = gaps w2.

Lemma calculateNumberScores_weights (analysis : Analysis.t) :
  calculateNumberScores engine1 analysis
  = calculateNumberScores engine2 analysis.
Proof.
  unfold calculateNumberScores. cbn [weights engine1 engine2].
  rewrite same_frequency, same_recency, same_gaps. reflexivity.
Qed.

End SameDraws.

(** ** The scores are not negative *)

Lemma finitePos_nonneg (x : num) : finitePos x -> finiteNonNeg x.
Proof. intros [q [-> H]]. exists q. split; trivial. lra. Qed.

Lemma nonneg_zero : finiteNonNeg zero.
Proof. exists 0%Q. split; [reflexivity | lra]. Qed.

Lemma nonneg_of_Z (z : Z) : 0 <= z -> finiteNonNeg (of_Z z).
Proof.
  intros H. exists (inject_Z z). split; [reflexivity|].
  change 0%Q with (inject_Z 0). now rewrite <- Zle_Qle.
Qed.

Lemma nonneg_add (x y : num) :
  finiteNonNeg x -> finiteNonNeg y -> finiteNonNeg (add x y).
Proof.
  intros [a [-> Ha]] [b [-> Hb]]. eexists. split; [reflexivity|].
  rewrite Qred_correct. lra.
Qed.

Lemma pos_add (x y : num) :
  finiteNonNeg x -> finitePos y -> finitePos (add x y).
Proof.
  intros [a [-> Ha]] [b [-> Hb]]. eexists. split; [reflexivity|].
  rewrite Qred_correct. lra.
Qed.

Lemma nonneg_mul (x y : num) :
  finiteNonNeg x -> finiteNonNeg y -> finiteNonNeg (mul x y).
Proof.
  intros [a [-> Ha]] [b [-> Hb]]. eexists. split; [reflexivity|].
  rewrite Qred_correct. now apply Qmult_le_0_compat.
Qed.

Lemma nonneg_min (x y : num) :
  finiteNonNeg x -> finiteNonNeg y -> finiteNonNeg (Num.min x y).
Proof.
  intros [a [-> Ha]] [b [-> Hb]]. unfold Num.min.
  destruct (leb (Fin a) (Fin b)); eexists; split; try reflexivity; trivial.
Qed.

Lemma nonneg_or0 (x : num) : finiteNonNeg x -> finiteNonNeg (or0 x).
Proof. intros [a [-> Ha]]. now exists a. Qed.

Lemma gtb_zero_cases (y : num) :
  gtb y zero = true -> y = PInf \/ finitePos y.
Proof.
  destruct y as [| |q|]; try discriminate; [|now left].
  intros H. right. exists q. split; trivial.
  unfold gtb, ltb, zero, of_Z, Qltb in H. apply negb_true_iff in H.
  apply Qnot_le_lt. intros Hle. apply Qle_bool_iff in Hle.
  change (inject_Z 0) with 0%Q in H. congruence.
Qed.

Lemma nonneg_div_pos (x y : num) :
  finiteNonNeg x -> finitePos y -> finiteNonNeg (div x y).
Proof.
  intros [a [-> Ha]] [b [-> Hb]]. unfold div.
  destruct (Qeq_bool b 0) eqn:E.
  - apply Qeq_bool_eq in E. rewrite E in Hb. lra.
  - eexists. split; [reflexivity|]. rewrite Qred_correct.
    apply Qle_shift_div_l; trivial. lra.
Qed.

Lemma nonneg_div_inf (x y : num) :
  finiteNonNeg x -> y = PInf \/ y = NInf -> finiteNonNeg (div x y).
Proof. intros [a [-> Ha]] [-> | ->]; apply nonneg_zero. Qed.

Lemma nonneg_geb (x : num) : finiteNonNeg x -> geb x zero = true.
Proof.
  intros [a [-> Ha]]. unfold geb, leb, zero, of_Z.
  now apply Qle_bool_iff.
Qed.

(** *** The frequency tables hold positive counts *)

Lemma lookup_in {A : Type} (k : Z) (t : dict A) (v : A) :
  lookup k t = Some v -> In (k, v) t.
Proof.
  induction t as [|[k' v'] t IH]; simpl; [discriminate|].
  destruct (Z.eqb_spec k k') as [->|Hne].
  - intros [= ->]. now left.
  - intros H. right. auto.
Qed.

Lemma get_or0_nonneg (k : Z) (t : dict num) :
  positiveValues t -> finiteNonNeg (get_or0 k t).
Proof.
  intros Ht. unfold get_or0. destruct (lookup k t) as [v|] eqn:E.
  - apply nonneg_or0, finitePos_nonneg.
    apply lookup_in in E.
    exact (proj1 (Forall_forall _ _) Ht _ E).
  - apply nonneg_zero.
Qed.

Lemma store_positive (k : Z) (v : num) (t : dict num) :
  finitePos v -> positiveValues t -> positiveValues (store k v t).
Proof.
  intros Hv. induction 1 as [|[k' v'] t Hkv Ht IH]; simpl.
  - repeat constructor. exact Hv.
  - destruct (k =? k'); [constructor; trivial|].
    destruct (k <? k'); constructor; trivial. now constructor.
Qed.

Lemma bump_positive (w : num) (t : dict num) (n : Z) :
  finitePos w -> positiveValues t -> positiveValues (bump w t n).
Proof.
  intros Hw Ht. apply store_positive; trivial.
  apply pos_add; trivial. now apply get_or0_nonneg.
Qed.

Lemma finitePos_1 : finitePos (of_Z 1).
Proof. exists 1%Q. split; [reflexivity | lra]. Qed.

Lemma finitePos_2 : finitePos (of_Z 2).
Proof. exists 2%Q. split; [reflexivity | lra]. Qed.

Lemma calculateAllTimeFrequency_positive (this : LottoPredictionEngine) :
  positiveValues (calculateAllTimeFrequency this).
Proof.
  unfold calculateAllTimeFrequency.
  apply fold_left_invariant; [|constructor].
  intros freq [index draw] Hfreq.
  apply fold_left_invariant; trivial.
  intros f n Hf. apply bump_positive; trivial.
  destruct (isRecentIndex this (Z.of_nat index));
    [apply finitePos_2 | apply finitePos_1].
Qed.

Lemma calculateRecentFrequency_positive (this : LottoPredictionEngine)
  (drawCount : Z) :
  positiveValues (calculateRecentFrequency this drawCount).
Proof.
  unfold calculateRecentFrequency.
  apply fold_left_invariant; [|constructor].
  intros freq draw Hfreq.
  apply fold_left_invariant; trivial.
  intros f n Hf. apply bump_positive; trivial. apply finitePos_1.
Qed.

(** [Math.max(...Object.values(t))] is -Infinity on the empty table and
    a positive count otherwise. *)
Lemma max_list_positive (t : dict num) :
  positiveValues t ->
  max_list (Object_values t) = NInf \/ finitePos (max_list (Object_values t)).
Proof.
  unfold max_list, Object_values. intros Ht.
  assert (H : forall acc, acc = NInf \/ finitePos acc ->
              fold_left Num.max (map snd t) acc = NInf \/
              finitePos (fold_left Num.max (map snd t) acc)).
  { induction Ht as [|[k v] t [q [Hv Hq]] _ IH]; intros acc Hacc; simpl.
    - exact Hacc.
    - apply IH. right. simpl in Hv. subst v.
      destruct Hacc as [->|[a [-> Ha]]].
      + exists q. split; trivial.
      + unfold Num.max. destruct (leb (Fin a) (Fin q)); eexists; eauto. }
  apply H. now left.
Qed.

(** *** The current gap is not negative *)

Lemma fold_left_invariant_in {A B : Type} (P : A -> Prop) (f : A -> B -> A)
  (l : list B) (a : A) :
  (forall a b, In b l -> P a -> P (f a b)) -> P a -> P (fold_left f l a).
Proof.
  revert a. induction l as [|b l IH]; intros a Hstep Ha; simpl; trivial.
  apply IH.
  - intros a' b' Hb'. apply Hstep. now right.
  - apply Hstep; trivial. now left.
Qed.

Lemma lastGap_gapsOf_nonneg (this : LottoPredictionEngine) (num : Z) :
  0 <= lastGap (gapsOf this num).
Proof.
  unfold gapsOf.
  set (len := Z.of_nat (length (draws this))).
  assert (Hinv : let st := fold_left (gapStep this num)
                                     (indexed (draws this)) ([], -1) in
                 (snd st = -1 /\ fst st = []) \/ 0 <= snd st < len).
  { apply (fold_left_invariant_in
             (fun st : list Z * Z =>
                (snd st = -1 /\ fst st = []) \/ 0 <= snd st < len)).
    - intros [gs lastSeen] [i draw] Hin Hst.
      apply in_indexed in Hin. unfold gapStep.
      destruct (includes (balls draw) num); [|exact Hst].
      destruct (negb (lastSeen =? -1));
        [destruct (isRecentIndex this (Z.of_nat i))|];
        right; cbn [snd]; unfold len; lia.
    - left. split; reflexivity. }
  destruct (fold_left (gapStep this num) (indexed (draws this)) ([], -1))
    as [gs lastSeen].
  cbn [fst snd] in Hinv. unfold lastGap.
  destruct (Z.eqb_spec lastSeen (-1)) as [E|E]; cbn [negb].
  - destruct Hinv as [[_ ->]|H]; [simpl; lia | lia].
  - destruct Hinv as [[H _]|H]; [contradiction|].
    destruct (isRecentIndex this lastSeen); rewrite last_last; fold len; lia.
Qed.

Lemma lookup_map_domain {A : Type} (g : Z -> A) (l : list Z) (k : Z) (v : A) :
  lookup k (map (fun n => (n, g n)) l) = Some v -> v = g k.
Proof.
  induction l as [|n l IH]; simpl; [discriminate|].
  destruct (Z.eqb_spec k n) as [->|Hne]; [congruence | exact IH].
Qed.

Lemma lookup_map_domain_in {A : Type} (g : Z -> A) (l : list Z) (k : Z) :
  In k l -> lookup k (map (fun n => (n, g n)) l) = Some (g k).
Proof.
  induction l as [|n l IH]; simpl; [contradiction|].
  destruct (Z.eqb_spec k n) as [->|Hne]; trivial.
  intros [H|H]; [congruence | auto].
Qed.

Lemma currentGap_nonneg (this : LottoPredictionEngine) (num : Z) :
  0 <= lastGap (orElse (lookup num (calculateGaps this)) []).
Proof.
  unfold calculateGaps.
  destruct (lookup num _) as [g|] eqn:E; cbn [orElse].
  - apply lookup_map_domain in E. subst g. apply lastGap_gapsOf_nonneg.
  - unfold lastGap. simpl. lia.
Qed.

(** *** The score *)

Section Scores.

Variable this : LottoPredictionEngine.
Hypothesis frequency_nonneg : finiteNonNeg (frequency (weights this)).
Hypothesis recency_nonneg : finiteNonNeg (recency (weights this)).
Hypothesis gaps_nonneg : finiteNonNeg (gaps (weights this)).

Lemma scaled_nonneg (cond : bool) (score factor : num) :
  finiteNonNeg score -> finiteNonNeg factor ->
  finiteNonNeg (if cond then mul score factor else score).
Proof. intros Hs Hf. destruct cond; trivial. now apply nonneg_mul. Qed.

Lemma score_nonneg (n : Z) (s : num) :
  lookup n (calculateNumberScores this (performCompleteAnalysis this))
  = Some s ->
  finiteNonNeg s.
Proof.
  unfold calculateNumberScores. cbv zeta. intros H.
  apply lookup_map_domain in H. subst s.
  cbn [Analysis.allTimeFrequency Analysis.recentFrequency Analysis.gaps
       Analysis.expectedGaps Analysis.avoidNumbers Analysis.dueNumbers
       Analysis.hotNumbers performCompleteAnalysis].
  repeat apply scaled_nonneg;
    try (eexists; split; [reflexivity | lra]).
  repeat apply nonneg_add.
  - apply nonneg_zero.
  - apply nonneg_mul; [apply nonneg_mul; trivial | now apply nonneg_of_Z].
    pose proof (get_or0_nonneg n _ (calculateAllTimeFrequency_positive this)).
    destruct (max_list_positive _ (calculateAllTimeFrequency_positive this))
      as [-> | Hpos].
    + apply nonneg_div_inf; auto.
    + now apply nonneg_div_pos.
  - apply nonneg_mul; trivial.
    apply nonneg_min; [|now apply nonneg_of_Z].
    apply nonneg_mul; [|now apply nonneg_of_Z].
    apply get_or0_nonneg, calculateRecentFrequency_positive.
  - apply nonneg_mul; trivial.
    apply nonneg_min; [|now apply nonneg_of_Z].
    apply nonneg_mul; [|now apply nonneg_of_Z].
    destruct (gtb (get_num n (calculateExpectedGaps this)) zero) eqn:E;
      [|apply nonneg_zero].
    pose proof (nonneg_of_Z _ (currentGap_nonneg this n)) as Hgap.
    apply gtb_zero_cases in E. destruct E as [-> | Hpos].
    + apply nonneg_div_inf; auto.
    + now apply nonneg_div_pos.
Qed.

End Scores.

(** ** The confidence on a non-empty history *)

Lemma weightedSums_length (this : LottoPredictionEngine)
  (l : list (nat * LottoDraw)) (acc : list Z) :
  (length acc + length l <=
   length (fold_left
             (fun weightedSums '(index, draw) =>
                let sum := ballSum draw in
                let isRecent := isRecentIndex this (Z.of_nat index) in
                let weight := if isRecent then 2%nat else 1%nat in
                weightedSums ++ repeat sum weight)
             l acc))%nat.
Proof.
  revert acc. induction l as [|[index draw] l IH]; intros acc; simpl.
  - lia.
  - eapply Nat.le_trans; [|apply IH]. rewrite length_app, repeat_length.
    destruct (isRecentIndex this (Z.of_nat index)); lia.
Qed.

Lemma weightedSumsOf_nonempty (this : LottoPredictionEngine) :
  draws this <> [] -> weightedSumsOf this <> [].
Proof.
  intros Hne Hnil.
  assert (H : (length (@nil Z) + length (indexed (draws this))
                <= length (weightedSumsOf this))%nat)
    by apply weightedSums_length.
  rewrite Hnil in H.
  unfold indexed in H. rewrite length_combine, length_seq in H.
  destruct (draws this); [congruence | simpl in H; lia].
Qed.

Lemma meanOf_finite (values : list Z) :
  values <> [] -> is_finite (meanOf values) = true.
Proof.
  intros Hne. unfold meanOf, div, of_nat, of_Z.
  destruct (Qeq_bool (inject_Z (Z.of_nat (length values))) 0) eqn:E;
    [|reflexivity].
  apply Qeq_bool_eq in E. exfalso.
  assert (H : Z.of_nat (length values) = 0).
  { apply inject_Z_injective. exact E. }
  destruct values; [congruence | simpl in H; lia].
Qed.

Lemma clamp_between (q : Q) :
  between (of_Z 10) (of_Z 95) (Num.max (of_Z 10) (Num.min (of_Z 95) (Fin q)))
  = true.
Proof.
  unfold between, Num.max, Num.min, leb, of_Z.
  destruct (Qle_bool (inject_Z 95) q) eqn:E1.
  - reflexivity.
  - destruct (Qle_bool (inject_Z 10) q) eqn:E2.
    + rewrite E2. simpl. apply Qle_bool_iff.
      apply Qlt_le_weak, Qnot_le_lt. intros H.
      apply Qle_bool_iff in H. congruence.
    + reflexivity.
Qed.

(** With a finite target the confidence is clamped to the interval from
    10 to 95. *)
Lemma calculateConfidence_between (analysis : Analysis.t)
  (selected : list Z) :
  is_finite (target (Analysis.optimalSumRange analysis)) = true ->
  between (of_Z 10) (of_Z 95) (calculateConfidence analysis selected) = true.
Proof.
  unfold calculateConfidence. cbv zeta.
  destruct (target (Analysis.optimalSumRange analysis)); try discriminate.
  intros _. apply clamp_between.
Qed.

Lemma target_finite (this : LottoPredictionEngine) :
  draws this <> [] ->
  is_finite (target (Analysis.optimalSumRange (performCompleteAnalysis this)))
  = true.
Proof.
  intros Hne. cbn [performCompleteAnalysis Analysis.optimalSumRange].
  unfold calculateOptimalSumRange, analyzeSumDistribution.
  cbn [target sd_mean].
  pose proof (meanOf_finite _ (weightedSumsOf_nonempty this Hne)) as H.
  destruct (meanOf (weightedSumsOf this)); try discriminate. reflexivity.
Qed.

(** On every non-empty history the confidence is in the interval from 10
    to 95. *)
Lemma confidence_nonempty_history (rnd : RandomSource)
  (this : LottoPredictionEngine) :
  draws this <> [] ->
  between (of_Z 10) (of_Z 95) (confidence (generatePrediction rnd this))
  = true.
Proof.
  intros Hne. rewrite generatePrediction_fields. cbn [confidence].
  apply calculateConfidence_between, target_finite, Hne.
Qed.

(** A window of the last [n] draws holds [n] draws, or all of them when
    there are fewer. *)
Lemma slice_from_length {A : Type} (n : nat) (l : list A) :
  (0 < n)%nat ->
  length (slice_from (- Z.of_nat n) l) = Nat.min n (length l).
Proof.
  intros Hn. rewrite slice_from_skipn by exact Hn.
  rewrite length_skipn. lia.
Qed.

(** * The claims of the specification *)

(** C1 (failing input).  On the history of the single draw 1..6 the
    optimal sum range is 21 to 21.  With 0.5 from [Math.random()] for six
    calls the first attempt is 4..9, of sum 39; the selection returns it
    after those six calls, although its sum is outside the range.  The
    selection that the specification describes goes on to the next
    attempt, 1..6 of sum 21, and returns that one; the set returned by the
    code is not the top six by score either. *)
Theorem selectOptimalNumbers_ignores_sum_range :
  let this := newEngine [draw_1_to_6] noCustomWeights in
  let analysis := performCompleteAnalysis this in
  let scores := calculateNumberScores this analysis in
  let range := Analysis.optimalSumRange analysis in
  range = {| min := of_Z 21; max := of_Z 21; target := of_Z 21 |} /\
  selectOptimalNumbers halfThenSmall scores analysis 0
  = ([4; 5; 6; 7; 8; 9], 6%nat) /\
  inSumRange range [4; 5; 6; 7; 8; 9] = false /\
  specifiedSelection halfThenSmall scores analysis 0
  = ([1; 2; 3; 4; 5; 6], 12%nat) /\
  inSumRange range [1; 2; 3; 4; 5; 6] = true /\
  slice 0 6 (rankedCandidates scores) = [1; 2; 3; 4; 5; 6].
Proof. vm_compute. repeat split; reflexivity. Qed.

(** C2.  For every non-empty history, every weight configuration and
    every random source, the prediction has exactly 6 main numbers, which
    are distinct, lie between 1 and 49 and are in ascending order, and a
    bonus number between 1 and 49. *)
Theorem generatePrediction_numbers_valid (rnd : RandomSource)
  (this : LottoPredictionEngine) :
  (0 < length (draws this))%nat ->
  let result := generatePrediction rnd this in
  length (suggestedNumbers result) = 6%nat /\
  NoDup (suggestedNumbers result) /\
  Forall (fun n => 1 <= n <= 49) (suggestedNumbers result) /\
  Sorted Z.le (suggestedNumbers result) /\
  1 <= bonusBall result <= 49.
Proof.
  intros _ result.
  destruct (suggestedNumbers_valid rnd this) as [H1 [H2 [H3 H4]]].
  do 4 (split; trivial).
  unfold result. rewrite generatePrediction_fields. cbn [bonusBall].
  apply predictBonusBall_domain.
Qed.

Lemma generatePrediction_numbers_valid_witness :
  (0 < length (draws (newEngine [draw_1_to_6] noCustomWeights)))%nat /\
  let result :=
    generatePrediction alwaysHalf (newEngine [draw_1_to_6] noCustomWeights) in
  length (suggestedNumbers result) = 6%nat /\
  NoDup (suggestedNumbers result) /\
  Forall (fun n => 1 <= n <= 49) (suggestedNumbers result) /\
  Sorted Z.le (suggestedNumbers result) /\
  1 <= bonusBall result <= 49.
Proof.
  split; [simpl; lia|].
  apply (generatePrediction_numbers_valid alwaysHalf
           (newEngine [draw_1_to_6] noCustomWeights)).
  simpl; lia.
Defined.

(** C3 (failing input).  On the empty history the confidence is NaN,
    for every weight configuration and every random source: it is not in
    the interval from 10 to 95. *)
Theorem confidence_empty_history (rnd : RandomSource)
  (w : PredictionWeights) :
  let result := generatePrediction rnd {| draws := []; weights := w |} in
  confidence result = NaN /\
  between (of_Z 10) (of_Z 95) (confidence result) = false.
Proof.
  intros result.
  assert (H : confidence result = NaN).
  { unfold result. rewrite generatePrediction_fields. cbn [confidence].
    apply calculateConfidence_nan. reflexivity. }
  rewrite H. split; reflexivity.
Qed.

(** C4 (the claim as stated fails).  On the empty history, with 0.5
    from every call of [Math.random()], the selection returns 4..9, which
    is not the fallback set, the top six candidates 1..6. *)
Lemma empty_history_selection_is_not_fallback :
  let this := newEngine [] noCustomWeights in
  let analysis := performCompleteAnalysis this in
  let scores := calculateNumberScores this analysis in
  fst (selectOptimalNumbers alwaysHalf scores analysis 0)
  <> slice 0 6 (rankedCandidates scores).
Proof. vm_compute. discriminate. Qed.

(** C4 (amended).  On the empty history the prediction is computed for
    every weight configuration and every random source.  The ranking
    holds all 49 numbers of the domain, so the selection has candidates
    and makes at least one attempt of six draws; the main numbers are 6
    distinct numbers between 1 and 49 in ascending order, the bonus number
    is between 1 and 49, and every alternative set has 6 numbers in
    ascending order. *)
Theorem empty_history_prediction (rnd : RandomSource)
  (w : PredictionWeights) :
  let this := {| draws := []; weights := w |} in
  let analysis := performCompleteAnalysis this in
  let scores := calculateNumberScores this analysis in
  let result := generatePrediction rnd this in
  Permutation (rankedCandidates scores) domain /\
  (6 <= snd (selectOptimalNumbers rnd scores analysis 0))%nat /\
  length (suggestedNumbers result) = 6%nat /\
  NoDup (suggestedNumbers result) /\
  Forall (fun n => 1 <= n <= 49) (suggestedNumbers result) /\
  Sorted Z.le (suggestedNumbers result) /\
  1 <= bonusBall result <= 49 /\
  Forall (fun set => length set = 6%nat /\ Sorted Z.le set)
         (alternativeSets result).
Proof.
  intros this analysis scores result.
  pose proof (keys_calculateNumberScores this analysis) as keys.
  fold scores in keys.
  destruct (suggestedNumbers_valid rnd this) as [H1 [H2 [H3 H4]]].
  split; [now apply ranked_perm_domain|].
  split.
  { now destruct (selectOptimalNumbers_valid rnd scores analysis 0 keys)
      as [_ [_ [_ Hk]]]. }
  do 4 (split; trivial).
  unfold result. rewrite generatePrediction_fields.
  cbn [bonusBall alternativeSets]. split.
  - apply predictBonusBall_domain.
  - apply generateAlternativeSets_shape.
Qed.

(** C5 (the claim as stated fails).  [Infinity] is a weight that is 0 or
    more.  With it as the frequency weight and the default weights
    elsewhere, on the history of the single draw 1..6 the number 7, which
    was never drawn, has the frequency component 0 * Infinity = NaN, so its
    score is NaN, which is not 0 or more. *)
Lemma infinite_weight_gives_nan_score :
  let this := newEngine [draw_1_to_6] infiniteFrequency in
  weightsAtLeastZero (weights this) = true /\
  lookup 7 (calculateNumberScores this (performCompleteAnalysis this))
  = Some NaN /\
  geb NaN zero = false.
Proof. vm_compute. repeat split. Qed.

(** C5 (amended).  When every weight is finite and 0 or more, each of the
    numbers 1 to 49 has a score, and the score is 0 or more. *)
Theorem scores_nonnegative (this : LottoPredictionEngine) :
  nonNegativeWeights (weights this) = true ->
  forall n : Z, 1 <= n <= 49 ->
  exists s : num,
    lookup n (calculateNumberScores this (performCompleteAnalysis this))
    = Some s /\
    geb s zero = true.
Proof.
  intros Hw n Hn.
  assert (Hnn : forall x, nonNegative x = true -> finiteNonNeg x).
  { intros [| |q|]; try discriminate. intros H. exists q. split; trivial.
    unfold nonNegative, geb, leb, zero, of_Z in H. simpl in H.
    now apply Qle_bool_iff in H. }
  unfold nonNegativeWeights in Hw. rewrite !andb_true_iff in Hw.
  destruct Hw as [[[[[Hf Hr] Hg] _] _] _].
  assert (Hs : exists s,
             lookup n (calculateNumberScores this
                         (performCompleteAnalysis this)) = Some s).
  { unfold calculateNumberScores. cbv zeta. eexists.
    apply lookup_map_domain_in. now apply in_domain. }
  destruct Hs as [s Hs]. exists s. split; trivial.
  apply nonneg_geb.
  exact (score_nonneg this (Hnn _ Hf) (Hnn _ Hr) (Hnn _ Hg) n s Hs).
Qed.

Lemma scores_nonnegative_witness :
  nonNegativeWeights (weights (newEngine [draw_1_to_6] noCustomWeights))
  = true /\
  1 <= 1 <= 49 /\
  exists s : num,
    lookup 1 (calculateNumberScores
                (newEngine [draw_1_to_6] noCustomWeights)
                (performCompleteAnalysis
                   (newEngine [draw_1_to_6] noCustomWeights)))
    = Some s /\
    geb s zero = true.
Proof.
  split; [reflexivity|]. split; [lia|].
  apply (scores_nonnegative (newEngine [draw_1_to_6] noCustomWeights));
    [reflexivity | lia].
Defined.

(** C6 (the claim as stated fails).  On 150 identical draws 1..6 the
    number 49 is not in the cold set. *)
Lemma cold_set_150_lacks_49 :
  let this := newEngine history150 noCustomWeights in
  ~ (Forall (fun n => lookup n (calculateAllTimeFrequency this)
                      = Some (of_Z 250))
            [1; 2; 3; 4; 5; 6] /\
     In 49 (identifyColdNumbers this)).
Proof.
  intros this [_ H]. vm_compute in H.
  repeat (destruct H as [H|H]; [discriminate H|]). exact H.
Qed.

(** C6 (amended).  On 150 identical draws 1..6 with bonus 7, each of
    1..6 has the all-time weighted frequency 250; the number 49 has no
    occurrence in the window of 20 draws, and the cold set is the first 15
    of the numbers without occurrence, 7 to 21. *)
Theorem frequency_and_cold_set_150 :
  let this := newEngine history150 noCustomWeights in
  calculateAllTimeFrequency this
  = [(1, of_Z 250); (2, of_Z 250); (3, of_Z 250);
     (4, of_Z 250); (5, of_Z 250); (6, of_Z 250)] /\
  lookup 49 (calculateRecentFrequency this 20) = None /\
  identifyColdNumbers this
  = [7; 8; 9; 10; 11; 12; 13; 14; 15; 16; 17; 18; 19; 20; 21].
Proof.
  vm_compute. repeat split; reflexivity.
Qed.

(** C7 (the claim as stated fails).  On six draws of sum 21 followed by
    one of sum 100 the length 3 is reported, although the sums at the
    offsets 3 and 6 differ by 79. *)
Lemma cycle_3_detected_with_distant_sums :
  let this := newEngine historyCycle noCustomWeights in
  let sums := cycleSums this in
  In 3%nat (detectCycles this) /\
  ~ (forall i : nat,
       (i + 3 < length sums)%nat ->
       Z.abs (nth i sums 0 - nth (i + 3) sums 0) <= 10).
Proof.
  intros this sums. split.
  - vm_compute. now left.
  - intros H. specialize (H 3%nat). vm_compute in H.
    apply H; reflexivity.
Qed.

(** C7 (amended).  The sums are those of the last 30 draws.  A length
    is reported exactly when it is between 3 and 10 and every sum at an
    offset [i] below the length is within 10 of the sum at the offset [i]
    plus the length, whenever that offset is in the sequence. *)
Theorem detectCycles_spec (this : LottoPredictionEngine) (cycleLength : nat) :
  let sums :=
    map ballSum (skipn (length (draws this) - 30) (draws this)) in
  In cycleLength (detectCycles this) <->
  (3 <= cycleLength <= 10)%nat /\
  (forall i : nat,
     (i < cycleLength)%nat ->
     (i + cycleLength < length sums)%nat ->
     Z.abs (nth i sums 0 - nth (i + cycleLength) sums 0) <= 10).
Proof.
  intros sums. unfold detectCycles.
  rewrite filter_In, in_seq, cycleScan_spec, cycleSums_last30.
  fold sums. split; intros [Hr H]; (split; [lia|]); intros i Hi; apply H; lia.
Qed.

(** C8 (failing input).  For every history of fewer than 10 draws the
    older window of the trend analysis is empty, its average is 0/0, and
    the reported trend is NaN: the division is not guarded. *)
Theorem recentTrend_short_history (this : LottoPredictionEngine) :
  (length (draws this) < 10)%nat ->
  recentTrend (analyzeTrends this) = NaN.
Proof. intros H. apply recentTrend_short. lia. Qed.

Lemma recentTrend_short_history_witness :
  (length (draws (newEngine (repeat draw_1_to_6 5) noCustomWeights)) < 10)%nat
  /\ recentTrend
       (analyzeTrends (newEngine (repeat draw_1_to_6 5) noCustomWeights))
     = NaN.
Proof.
  split; [simpl; lia|].
  apply (recentTrend_short_history
           (newEngine (repeat draw_1_to_6 5) noCustomWeights)).
  simpl; lia.
Defined.

(** C9.  Two weight configurations with the same frequency, recency and
    gaps components give, on the same history and with the same random
    source, the same scores and the same prediction, whatever their
    patterns, distribution and correlation components are. *)
Theorem reserved_weights_have_no_effect (rnd : RandomSource)
  (history : list LottoDraw) (w1 w2 : PredictionWeights) :
  frequency w1 = frequency w2 ->
  recency w1 = recency w2 ->
  gaps w1 = gaps w2 ->
  let engine1 := {| draws := history; weights := w1 |} in
  let engine2 := {| draws := history; weights := w2 |} in
  calculateNumberScores engine1 (performCompleteAnalysis engine1)
  = calculateNumberScores engine2 (performCompleteAnalysis engine2) /\
  generatePrediction rnd engine1 = generatePrediction rnd engine2.
Proof.
  intros Hf Hr Hg engine1 engine2.
  assert (Hs : forall analysis,
             calculateNumberScores engine1 analysis
             = calculateNumberScores engine2 analysis)
    by (intros analysis; now apply calculateNumberScores_weights).
  assert (Ha : performCompleteAnalysis engine1
               = performCompleteAnalysis engine2)
    by apply performCompleteAnalysis_weights.
  split.
  - rewrite Ha. apply Hs.
  - unfold generatePrediction. rewrite Ha, Hs.
    assert (Hb : forall k,
               predictBonusBall rnd engine1
                 (performCompleteAnalysis engine2) k
               = predictBonusBall rnd engine2
                   (performCompleteAnalysis engine2) k)
      by (intros k; apply predictBonusBall_weights).
    destruct (selectOptimalNumbers rnd _ _ 0) as [selected k].
    rewrite Hb. reflexivity.
Qed.

Lemma reserved_weights_have_no_effect_witness :
  let w1 := weights (newEngine [] noCustomWeights) in
  let w2 :=
    {| frequency := Fin (1 # 4); recency := Fin (1 # 5); gaps := Fin (1 # 5);
       patterns := of_Z 7; distribution := zero; correlation := of_Z 3 |} in
  frequency w1 = frequency w2 /\
  recency w1 = recency w2 /\
  gaps w1 = gaps w2 /\
  let engine1 := {| draws := [draw_1_to_6]; weights := w1 |} in
  let engine2 := {| draws := [draw_1_to_6]; weights := w2 |} in
  calculateNumberScores engine1 (performCompleteAnalysis engine1)
  = calculateNumberScores engine2 (performCompleteAnalysis engine2) /\
  generatePrediction alwaysHalf engine1 = generatePrediction alwaysHalf engine2.
Proof.
  intros w1 w2.
  split; [reflexivity|]. split; [reflexivity|]. split; [reflexivity|].
  apply (reserved_weights_have_no_effect alwaysHalf [draw_1_to_6] w1 w2);
    reflexivity.
Defined.

(** C10.  Every alternative set has exactly 6 elements, in ascending
    order.  The elements need not be distinct: on a history in which the
    number 1 is both in the due list and in the cold list, the pool of the
    aggressive strategy holds 1 twice, and with 0.01 from every call of
    [Math.random()] the second alternative set is 1, 1, 2, 3, 4, 5. *)
Theorem alternative_sets_sorted_not_distinct :
  (forall (rnd : RandomSource) (this : LottoPredictionEngine),
      Forall (fun set => length set = 6%nat /\ Sorted Z.le set)
             (alternativeSets (generatePrediction rnd this))) /\
  (exists (rnd : RandomSource) (this : LottoPredictionEngine) (set : list Z),
      let analysis := performCompleteAnalysis this in
      In 1 (Analysis.dueNumbers analysis) /\
      In 1 (Analysis.coldNumbers analysis) /\
      poolOf aggressive [] analysis
      = [1; 1; 2; 3; 4; 5; 6; 7; 8; 9; 10; 11; 12; 13; 14] /\
      In set (alternativeSets (generatePrediction rnd this)) /\
      ~ NoDup set).
Proof.
  split.
  - intros rnd this. rewrite generatePrediction_fields.
    cbn [alternativeSets]. apply generateAlternativeSets_shape.
  - exists alwaysSmall, (newEngine historyDueCold noCustomWeights),
      [1; 1; 2; 3; 4; 5].
    split; [vm_compute; now left|].
    split; [vm_compute; now left|].
    split; [vm_compute; reflexivity|].
    split; [vm_compute; right; now left|].
    intros H. inversion H as [|x l Hnotin _]. apply Hnotin. now left.
Qed.

(** * Further properties of the engine *)

(** The lemmas below prepare the properties X1 to X27, which follow
    them in the order of the methods of the engine. *)

(** ** Integers as numbers *)

Lemma Qred_inject_Z (z : Z) : Qred (inject_Z z) = inject_Z z.
Proof.
  unfold Qred, inject_Z. simpl Qnum. simpl Qden.
  pose proof (Z.ggcd_gcd z 1) as Hg.
  pose proof (Z.ggcd_correct_divisors z 1) as Hd.
  destruct (Z.ggcd z 1) as [g [a b]]. simpl in *.
  rewrite Z.gcd_1_r in Hg. subst g. destruct Hd as [Ha Hb].
  rewrite Z.mul_1_l in Ha, Hb. subst a b. reflexivity.
Qed.

Lemma add_of_Z (a b : Z) : add (of_Z a) (of_Z b) = of_Z (a + b).
Proof.
  unfold add, of_Z. f_equal. rewrite <- (Qred_inject_Z (a + b)).
  apply Qred_complete. rewrite inject_Z_plus. reflexivity.
Qed.

Lemma mul_of_Z (a b : Z) : mul (of_Z a) (of_Z b) = of_Z (a * b).
Proof.
  unfold mul, of_Z. f_equal. rewrite <- (Qred_inject_Z (a * b)).
  apply Qred_complete. rewrite inject_Z_mult. reflexivity.
Qed.

Lemma of_Z_inj (a b : Z) : of_Z a = of_Z b -> a = b.
Proof. unfold of_Z, inject_Z. congruence. Qed.

Lemma leb_of_Z (a b : Z) : leb (of_Z a) (of_Z b) = (a <=? b).
Proof.
  unfold leb, of_Z, Qle_bool, inject_Z. simpl. now rewrite !Z.mul_1_r.
Qed.

Lemma gtb_of_Z (a b : Z) : gtb (of_Z a) (of_Z b) = (b <? a).
Proof.
  unfold gtb, ltb, of_Z, Qltb, Qle_bool, inject_Z. simpl.
  rewrite !Z.mul_1_r. destruct (Z.leb_spec a b), (Z.ltb_spec b a);
    simpl; trivial; lia.
Qed.

(** ** Loops over the draws with their indices *)

Lemma combine_app {A B : Type} (l1 l2 : list A) (m1 m2 : list B) :
  length l1 = length m1 ->
  combine (l1 ++ l2) (m1 ++ m2) = (combine l1 m1 ++ combine l2 m2)%list.
Proof.
  revert m1. induction l1 as [|a l1 IH]; intros [|b m1] H;
    simpl in *; try discriminate; trivial.
  f_equal. apply IH. now injection H.
Qed.

Lemma indexed_app {A : Type} (l1 l2 : list A) :
  indexed (l1 ++ l2)
  = (indexed l1 ++ combine (seq (length l1) (length l2)) l2)%list.
Proof.
  unfold indexed. rewrite length_app, seq_app, combine_app.
  - reflexivity.
  - now rewrite length_seq.
Qed.

Lemma fold_left_ext_in {A B : Type} (f g : A -> B -> A) (l : list B) (a : A) :
  (forall a b, In b l -> f a b = g a b) ->
  fold_left f l a = fold_left g l a.
Proof.
  revert a. induction l as [|b l IH]; intros a H; simpl; trivial.
  rewrite H by now left. apply IH. intros a' b' Hb'. apply H. now right.
Qed.

Lemma fold_left_combine_seq {A B : Type} (h : A -> B -> A) (l : list B)
  (s : nat) (a : A) :
  fold_left (fun a '(_, d) => h a d) (combine (seq s (length l)) l) a
  = fold_left h l a.
Proof.
  revert s a. induction l as [|d l IH]; intros s a; simpl; trivial.
Qed.

(** A loop over the draws whose body reads the index only through
    [index >= this.draws.length - 100] first runs over the older draws
    with the test false, then over the recent draws with the test true. *)
Lemma fold_indexed_recent {A : Type} (this : LottoPredictionEngine)
  (h : bool -> A -> LottoDraw -> A) (a : A) :
  fold_left (fun a '(index, draw) =>
               h (isRecentIndex this (Z.of_nat index)) a draw)
            (indexed (draws this)) a
  = fold_left (h true) (last100Draws this)
              (fold_left (h false) (olderDraws this) a).
Proof.
  unfold last100Draws, olderDraws.
  set (l := draws this). set (m := (length l - 100)%nat).
  rewrite <- (firstn_skipn m l) at 1.
  rewrite indexed_app, fold_left_app. unfold indexed.
  assert (Hrecent : forall i, (length (firstn m l) <= i)%nat ->
                      isRecentIndex this (Z.of_nat i) = true).
  { intros i Hi. rewrite length_firstn in Hi. unfold m in Hi.
    unfold isRecentIndex. fold l.
    destruct (Z.geb_spec (Z.of_nat i) (Z.of_nat (length l) - 100));
      trivial; lia. }
  assert (Holder : forall i, (i < length (firstn m l))%nat ->
                     isRecentIndex this (Z.of_nat i) = false).
  { intros i Hi. rewrite length_firstn in Hi. unfold m in Hi.
    unfold isRecentIndex. fold l.
    destruct (Z.geb_spec (Z.of_nat i) (Z.of_nat (length l) - 100));
      trivial; lia. }
  transitivity
    (fold_left (fun a '(_, d) => h true a d)
       (combine (seq (length (firstn m l)) (length (skipn m l))) (skipn m l))
       (fold_left (fun a '(_, d) => h false a d)
          (combine (seq 0 (length (firstn m l))) (firstn m l)) a)).
  - rewrite (fold_left_ext_in _ (fun a '(_, d) => h false a d)
               (combine (seq 0 _) (firstn m l))).
    + apply fold_left_ext_in. intros a' [i d] Hin.
      apply in_combine_l in Hin. apply in_seq in Hin.
      rewrite Hrecent; trivial; lia.
    + intros a' [i d] Hin. apply in_combine_l in Hin. apply in_seq in Hin.
      rewrite Holder; trivial; lia.
  - now rewrite !fold_left_combine_seq.
Qed.

Lemma length_last100Draws (this : LottoPredictionEngine) :
  length (last100Draws this) = Nat.min (length (draws this)) 100.
Proof. unfold last100Draws. rewrite length_skipn. lia. Qed.

Lemma length_olderDraws (this : LottoPredictionEngine) :
  length (olderDraws this) = (length (draws this) - 100)%nat.
Proof. unfold olderDraws. rewrite length_firstn. lia. Qed.

(** ** Dictionaries of counts *)

Lemma lookup_store_same {A : Type} (k : Z) (v : A) (t : dict A) :
  lookup k (store k v t) = Some v.
Proof.
  induction t as [|[k' v'] t IH]; simpl.
  - now rewrite Z.eqb_refl.
  - destruct (Z.eqb_spec k k') as [->|Hne]; simpl.
    + now rewrite Z.eqb_refl.
    + destruct (k <? k'); simpl.
      * now rewrite Z.eqb_refl.
      * destruct (Z.eqb_spec k k'); [contradiction | exact IH].
Qed.

Lemma lookup_store_other {A : Type} (k k2 : Z) (v : A) (t : dict A) :
  k2 <> k -> lookup k2 (store k v t) = lookup k2 t.
Proof.
  intros Hne. induction t as [|[k' v'] t IH]; simpl.
  - destruct (Z.eqb_spec k2 k); [contradiction | reflexivity].
  - destruct (Z.eqb_spec k k') as [->|Hkk']; simpl.
    + destruct (Z.eqb_spec k2 k'); [contradiction | reflexivity].
    + destruct (k <? k'); simpl.
      * destruct (Z.eqb_spec k2 k); [contradiction | reflexivity].
      * destruct (k2 =? k'); [reflexivity | exact IH].
Qed.

Lemma store_keys_Forall {A : Type} (P : Z -> Prop) (k : Z) (v : A)
  (t : dict A) :
  P k -> Forall P (map fst t) -> Forall P (map fst (store k v t)).
Proof.
  intros Hk. induction t as [|[k' v'] t IH]; simpl; intros H.
  - now constructor.
  - inversion H as [|x l Hk' Ht]; subst.
    destruct (k =? k'); simpl; [now constructor|].
    destruct (k <? k'); simpl; constructor; auto.
Qed.

Lemma store_sorted {A : Type} (k : Z) (v : A) (t : dict A) :
  StronglySorted Z.lt (map fst t) ->
  StronglySorted Z.lt (map fst (store k v t)).
Proof.
  induction t as [|[k' v'] t IH]; simpl; intros H.
  - repeat constructor.
  - inversion H as [|x l Hs Hf]; subst.
    destruct (Z.eqb_spec k k') as [->|Hne]; simpl.
    + now constructor.
    + destruct (Z.ltb_spec k k'); simpl.
      * constructor; trivial. constructor; trivial.
        eapply Forall_impl; [|exact Hf]. intros; lia.
      * constructor; [now apply IH|].
        apply store_keys_Forall; trivial. lia.
Qed.

Lemma in_sorted_lookup {A : Type} (k : Z) (v : A) (t : dict A) :
  StronglySorted Z.lt (map fst t) -> In (k, v) t -> lookup k t = Some v.
Proof.
  induction t as [|[k' v'] t IH]; simpl; intros H Hin; [contradiction|].
  inversion H as [|x l Hs Hf]; subst.
  destruct Hin as [E|Hin].
  - injection E as -> ->. now rewrite Z.eqb_refl.
  - destruct (Z.eqb_spec k k') as [->|Hne]; [|auto].
    exfalso. rewrite Forall_forall in Hf.
    specialize (Hf k' (in_map fst _ _ Hin)). simpl in Hf. lia.
Qed.

Lemma tabulates_nil : tabulates [] (fun _ => 0).
Proof. split; [constructor | intros k; split; [lia | reflexivity]]. Qed.

Lemma tabulates_ext (t : dict num) (c c' : Z -> Z) :
  (forall k, c k = c' k) -> tabulates t c -> tabulates t c'.
Proof.
  intros E [Hs H]. split; trivial. intros k. rewrite <- E. apply H.
Qed.

Lemma tabulates_get_or0 (t : dict num) (c : Z -> Z) (k : Z) :
  tabulates t c -> get_or0 k t = of_Z (c k).
Proof.
  intros [_ H]. destruct (H k) as [_ Hk]. unfold get_or0. rewrite Hk.
  destruct (Z.eqb_spec (c k) 0) as [->|]; reflexivity.
Qed.

Lemma tabulates_bump (t : dict num) (c : Z -> Z) (w n : Z) :
  0 < w -> tabulates t c ->
  tabulates (bump (of_Z w) t n) (fun k => c k + if k =? n then w else 0).
Proof.
  intros Hw Ht. pose proof (tabulates_get_or0 t c n Ht) as Hn.
  destruct Ht as [Hs H]. unfold bump. split; [now apply store_sorted|].
  intros k. destruct (H k) as [Hk0 Hk]. destruct (Z.eqb_spec k n) as [->|Hne].
  - split; [lia|]. rewrite lookup_store_same, Hn, add_of_Z.
    destruct (Z.eqb_spec (c n + w) 0); [lia | reflexivity].
  - rewrite Z.add_0_r. split; trivial.
    now rewrite lookup_store_other.
Qed.

Lemma occurrences_nil (k : Z) : occurrences k [] = 0.
Proof. reflexivity. Qed.

Lemma occurrences_cons (k n : Z) (l : list Z) :
  occurrences k (n :: l) = (if k =? n then 1 else 0) + occurrences k l.
Proof.
  unfold occurrences. simpl.
  destruct (Z.eq_dec n k) as [->|Hne].
  - rewrite Z.eqb_refl. lia.
  - destruct (Z.eqb_spec k n); [congruence | lia].
Qed.

Lemma occurrences_app (k : Z) (l1 l2 : list Z) :
  occurrences k (l1 ++ l2) = occurrences k l1 + occurrences k l2.
Proof. unfold occurrences. rewrite count_occ_app. lia. Qed.

Lemma occurrences_nonneg (k : Z) (l : list Z) : 0 <= occurrences k l.
Proof. unfold occurrences. lia. Qed.

Lemma occurrences_pos_in (k : Z) (l : list Z) :
  0 < occurrences k l <-> In k l.
Proof.
  unfold occurrences. rewrite (count_occ_In Z.eq_dec). lia.
Qed.

Lemma tabulates_balls (w : Z) (bs : list Z) (t : dict num) (c : Z -> Z) :
  0 < w -> tabulates t c ->
  tabulates (fold_left (bump (of_Z w)) bs t)
            (fun k => c k + w * occurrences k bs).
Proof.
  intros Hw. revert t c. induction bs as [|n bs IH]; intros t c Ht; simpl.
  - eapply tabulates_ext; [|exact Ht]. intros k.
    rewrite occurrences_nil. lia.
  - eapply tabulates_ext; [|apply IH, tabulates_bump; eauto].
    intros k. cbv beta. rewrite occurrences_cons.
    destruct (k =? n); lia.
Qed.

Lemma tabulates_draws (w : Z) (ds : list LottoDraw) (t : dict num)
  (c : Z -> Z) :
  0 < w -> tabulates t c ->
  tabulates (fold_left (fun freq draw =>
                          fold_left (bump (of_Z w)) (balls draw) freq)
                       ds t)
            (fun k => c k + w * occurrences k (ballsOf ds)).
Proof.
  intros Hw. revert t c.
  induction ds as [|d ds IH]; intros t c Ht; cbn [fold_left].
  - eapply tabulates_ext; [|exact Ht]. intros k.
    change (ballsOf []) with (@nil Z). rewrite occurrences_nil. lia.
  - eapply tabulates_ext; [|apply IH, tabulates_balls; eauto].
    intros k. cbv beta.
    change (ballsOf (d :: ds)) with (balls d ++ ballsOf ds)%list.
    rewrite occurrences_app. lia.
Qed.

Lemma calculateRecentFrequency_tabulates (this : LottoPredictionEngine)
  (drawCount : Z) :
  tabulates (calculateRecentFrequency this drawCount)
    (fun k => occurrences k (ballsOf (slice_from (- drawCount) (draws this)))).
Proof.
  unfold calculateRecentFrequency.
  eapply tabulates_ext;
    [|apply (tabulates_draws 1 _ [] (fun _ => 0)); [lia | apply tabulates_nil]].
  intros k. cbv beta. lia.
Qed.

Lemma calculateAllTimeFrequency_tabulates (this : LottoPredictionEngine) :
  tabulates (calculateAllTimeFrequency this)
    (fun k => occurrences k (ballsOf (olderDraws this))
              + 2 * occurrences k (ballsOf (last100Draws this))).
Proof.
  unfold calculateAllTimeFrequency.
  rewrite (fold_indexed_recent this
             (fun (b : bool) freq draw =>
                fold_left (bump (if b then of_Z 2 else of_Z 1))
                          (balls draw) freq)).
  eapply tabulates_ext;
    [|apply (tabulates_draws 2), (tabulates_draws 1 _ [] (fun _ => 0));
      [lia | lia | apply tabulates_nil]].
  intros k. cbv beta. lia.
Qed.

(** ** Totals of the weighted counts *)

Lemma toZ_of_Z (z : Z) : toZ (of_Z z) = z.
Proof. unfold toZ, of_Z. apply Qfloor_Z. Qed.

Lemma tabulates_in (t : dict num) (c : Z -> Z) (k : Z) (v : num) :
  tabulates t c -> In (k, v) t -> v = of_Z (c k) /\ 0 < c k.
Proof.
  intros [Hs H] Hin. apply (in_sorted_lookup k v t Hs) in Hin.
  destruct (H k) as [H0 Hk]. rewrite Hk in Hin.
  destruct (Z.eqb_spec (c k) 0); [discriminate|].
  injection Hin as <-. split; [reflexivity | lia].
Qed.

Lemma fold_add_values (t : dict num) (a : Z) :
  Forall (fun kv => snd kv = of_Z (toZ (snd kv))) t ->
  fold_left add (Object_values t) (of_Z a) = of_Z (a + integerTotal t).
Proof.
  intros H. revert a. induction H as [|[k v] t Hv _ IH]; intros a; simpl.
  - now rewrite Z.add_0_r.
  - simpl in Hv. rewrite Hv at 1. rewrite add_of_Z, IH. f_equal. lia.
Qed.

Lemma tabulates_dictTotal (t : dict num) (c : Z -> Z) :
  tabulates t c -> dictTotal t = of_Z (integerTotal t).
Proof.
  intros Ht. unfold dictTotal. change zero with (of_Z 0).
  rewrite fold_add_values; trivial.
  apply Forall_forall. intros [k v] Hin.
  destruct (tabulates_in t c k v Ht Hin) as [-> _].
  cbn [snd]. now rewrite toZ_of_Z.
Qed.

Lemma integerTotal_store (k : Z) (v : num) (t : dict num) :
  StronglySorted Z.lt (map fst t) ->
  integerTotal (store k v t)
  = integerTotal t - toZ (orElse (lookup k t) zero) + toZ v.
Proof.
  induction t as [|[k' v'] t IH]; simpl; intros H.
  - change (toZ zero) with 0. lia.
  - inversion H as [|x l Hs Hf]; subst.
    destruct (Z.eqb_spec k k') as [->|Hne]; simpl; [lia|].
    destruct (Z.ltb_spec k k'); simpl.
    + assert (Hnone : lookup k t = None).
      { destruct (lookup k t) as [u|] eqn:E; trivial. exfalso.
        apply lookup_in in E. rewrite Forall_forall in Hf.
        specialize (Hf k (in_map fst _ _ E)). simpl in Hf. lia. }
      rewrite Hnone. change (toZ (orElse None zero)) with 0. lia.
    + rewrite IH by trivial. lia.
Qed.

Lemma integerTotal_bump (t : dict num) (c : Z -> Z) (w n : Z) :
  tabulates t c ->
  integerTotal (bump (of_Z w) t n) = integerTotal t + w.
Proof.
  intros Ht. pose proof (tabulates_get_or0 t c n Ht) as Hn.
  unfold bump. rewrite integerTotal_store by apply Ht.
  rewrite Hn, add_of_Z, toZ_of_Z.
  destruct Ht as [_ H]. destruct (H n) as [_ Hl]. rewrite Hl.
  destruct (Z.eqb_spec (c n) 0) as [E|E]; cbn [orElse].
  - change (toZ zero) with 0. lia.
  - rewrite toZ_of_Z. lia.
Qed.

Lemma integerTotal_balls (w : Z) (bs : list Z) (t : dict num) (c : Z -> Z) :
  0 < w -> tabulates t c ->
  integerTotal (fold_left (bump (of_Z w)) bs t)
  = integerTotal t + w * Z.of_nat (length bs).
Proof.
  intros Hw. revert t c. induction bs as [|n bs IH]; intros t c Ht.
  - simpl. lia.
  - cbn [fold_left length].
    rewrite (IH _ _ (tabulates_bump t c w n Hw Ht)).
    rewrite (integerTotal_bump t c w n Ht). lia.
Qed.

Lemma integerTotal_draws (w : Z) (ds : list LottoDraw) (t : dict num)
  (c : Z -> Z) :
  0 < w -> tabulates t c ->
  integerTotal (fold_left (fun freq draw =>
                             fold_left (bump (of_Z w)) (balls draw) freq)
                          ds t)
  = integerTotal t + w * 6 * Z.of_nat (length ds).
Proof.
  intros Hw. revert t c. induction ds as [|d ds IH]; intros t c Ht.
  - simpl. lia.
  - cbn [fold_left length].
    rewrite (IH _ _ (tabulates_balls w (balls d) t c Hw Ht)).
    rewrite (integerTotal_balls w (balls d) t c Hw Ht).
    change (length (balls d)) with 6%nat. lia.
Qed.

Lemma calculateTotalWeightedDraws_split (this : LottoPredictionEngine) :
  calculateTotalWeightedDraws this
  = Z.of_nat (length (olderDraws this))
    + 2 * Z.of_nat (length (last100Draws this)).
Proof.
  unfold calculateTotalWeightedDraws.
  rewrite length_olderDraws, length_last100Draws.
  destruct (Z.leb_spec (Z.of_nat (length (draws this))) 100); lia.
Qed.

(** ** Gaps, expected gaps and due numbers *)

Lemma in_indexed_r {A : Type} (l : list A) (i : nat) (x : A) :
  In (i, x) (indexed l) -> In x l.
Proof. unfold indexed. apply in_combine_r. Qed.

(** A number that no draw holds has no gap. *)
Lemma gapsOf_never_drawn (this : LottoPredictionEngine) (num : Z) :
  existsb (fun d => includes (balls d) num) (draws this) = false ->
  gapsOf this num = [].
Proof.
  intros H. unfold gapsOf.
  assert (Hst : fold_left (gapStep this num) (indexed (draws this)) ([], -1)
                = ([], -1)).
  { apply (fold_left_invariant_in (fun st => st = ([], -1))); trivial.
    intros st [i d] Hin ->. apply in_indexed_r in Hin.
    unfold gapStep.
    destruct (includes (balls d) num) eqn:E; trivial.
    assert (Ht : existsb (fun d => includes (balls d) num) (draws this)
                 = true)
      by (apply existsb_exists; eauto).
    congruence. }
  rewrite Hst. reflexivity.
Qed.

Lemma gapStep_absent (this : LottoPredictionEngine) (num : Z)
  (l : list (nat * LottoDraw)) (st : list Z * Z) :
  existsb (fun e => includes (balls (snd e)) num) l = false ->
  fold_left (gapStep this num) l st = st.
Proof.
  revert st. induction l as [|[i d] l IH]; intros st H;
    cbn [existsb fold_left snd] in *; trivial.
  apply orb_false_iff in H. destruct H as [Hd Hl].
  destruct st as [gs lastSeen]. unfold gapStep at 2. rewrite Hd.
  now apply IH.
Qed.

Lemma existsb_combine_snd {A B : Type} (p : B -> bool) (l : list A)
  (m : list B) :
  existsb p m = false -> existsb (fun e => p (snd e)) (combine l m) = false.
Proof.
  revert l. induction m as [|b m IH]; intros [|a l] H; simpl in *; trivial.
  apply orb_false_iff in H. destruct H as [Hb Hm].
  rewrite Hb. now apply IH.
Qed.

(** The current gap of a number is the number of draws after the last
    draw that holds it. *)
Lemma lastGap_distance (this : LottoPredictionEngine) (num : Z)
  (before after : list LottoDraw) (d : LottoDraw) :
  draws this = (before ++ d :: after)%list ->
  includes (balls d) num = true ->
  existsb (fun d' => includes (balls d') num) after = false ->
  lastGap (gapsOf this num) = Z.of_nat (length after).
Proof.
  intros Hd Hin Hafter.
  assert (Hlen : Z.of_nat (length (draws this)) - 1
                 - Z.of_nat (length before) = Z.of_nat (length after))
    by (rewrite Hd, length_app; simpl; lia).
  assert (Hne : negb (Z.of_nat (length before) =? -1) = true)
    by (destruct (Z.eqb_spec (Z.of_nat (length before)) (-1));
        [lia|trivial]).
  assert (Hfold : exists gs,
             fold_left (gapStep this num) (indexed (draws this)) ([], -1)
             = (gs, Z.of_nat (length before))).
  { rewrite Hd, indexed_app, fold_left_app.
    change (combine (seq (length before) (length (d :: after))) (d :: after))
      with ((length before, d)
              :: combine (seq (S (length before)) (length after)) after).
    destruct (fold_left (gapStep this num) (indexed before) ([], -1))
      as [gs lastSeen].
    cbn [fold_left]. rewrite gapStep_absent
      by (apply (existsb_combine_snd (fun d' => includes (balls d') num));
          exact Hafter).
    unfold gapStep. rewrite Hin.
    destruct (negb (lastSeen =? -1)); eexists; reflexivity. }
  destruct Hfold as [gs Hfold].
  unfold gapsOf. rewrite Hfold, Hne, Hlen. unfold lastGap.
  destruct (isRecentIndex this (Z.of_nat (length before)));
    now rewrite last_last.
Qed.

Lemma calculateGaps_in (this : LottoPredictionEngine) (n : Z) (g : list Z) :
  In (n, g) (calculateGaps this) -> In n domain /\ g = gapsOf this n.
Proof.
  unfold calculateGaps. rewrite in_map_iff.
  intros [m [E Hm]]. injection E as -> ->. now split.
Qed.

Lemma finitePos_of_Z (z : Z) : 0 < z -> finitePos (of_Z z).
Proof.
  intros H. exists (inject_Z z). split; [reflexivity|].
  change 0%Q with (inject_Z 0). now rewrite <- Zlt_Qlt.
Qed.

Lemma finitePos_div (x y : num) :
  finitePos x -> finitePos y -> finitePos (div x y).
Proof.
  intros [a [-> Ha]] [b [-> Hb]]. unfold div.
  destruct (Qeq_bool b 0) eqn:E.
  - apply Qeq_bool_eq in E. rewrite E in Hb. lra.
  - eexists. split; [reflexivity|]. rewrite Qred_correct.
    apply Qlt_shift_div_l; trivial. lra.
Qed.

Lemma get_or0_gtb_pos (k : Z) (t : dict num) :
  positiveValues t -> gtb (get_or0 k t) zero = true ->
  finitePos (get_or0 k t).
Proof.
  intros Ht H. apply gtb_zero_cases in H. destruct H as [H|H]; trivial.
  destruct (get_or0_nonneg k t Ht) as [q [Hq _]]. congruence.
Qed.

(** The expected gap of a number of the domain: the total weighted draw
    count over its weighted frequency, or the count itself. *)
Lemma expectedGap_cases (this : LottoPredictionEngine) (n : Z) :
  In n domain ->
  let total := of_Z (calculateTotalWeightedDraws this) in
  exists e : num,
    lookup n (calculateExpectedGaps this) = Some e /\
    (e = total \/ exists f, finitePos f /\ e = div total f).
Proof.
  intros Hn total. unfold calculateExpectedGaps. cbv zeta.
  rewrite (lookup_map_domain_in
             (fun num =>
                if gtb (get_or0 num (calculateAllTimeFrequency this)) zero
                then div (of_Z (calculateTotalWeightedDraws this))
                         (get_or0 num (calculateAllTimeFrequency this))
                else of_Z (calculateTotalWeightedDraws this)) domain n Hn).
  eexists. split; [reflexivity|].
  destruct (gtb (get_or0 n (calculateAllTimeFrequency this)) zero) eqn:E;
    [right | now left].
  eexists. split; [|reflexivity].
  apply get_or0_gtb_pos; trivial.
  apply calculateAllTimeFrequency_positive.
Qed.

Lemma calculateTotalWeightedDraws_pos (this : LottoPredictionEngine) :
  draws this <> [] -> 0 < calculateTotalWeightedDraws this.
Proof.
  intros H. unfold calculateTotalWeightedDraws.
  destruct (draws this) as [|d l]; [congruence|].
  destruct (Z.leb_spec (Z.of_nat (length (d :: l))) 100);
    simpl length in *; lia.
Qed.

Lemma calculateTotalWeightedDraws_nonneg (this : LottoPredictionEngine) :
  0 <= calculateTotalWeightedDraws this.
Proof.
  unfold calculateTotalWeightedDraws.
  destruct (Z.leb_spec (Z.of_nat (length (draws this))) 100); lia.
Qed.

Lemma expectedGap_nonneg (this : LottoPredictionEngine) (n : Z) :
  In n domain ->
  finiteNonNeg (get_num n (calculateExpectedGaps this)).
Proof.
  intros Hn. destruct (expectedGap_cases this n Hn) as [e [He Hc]].
  unfold get_num. rewrite He.
  pose proof (nonneg_of_Z _ (calculateTotalWeightedDraws_nonneg this)) as Ht.
  destruct Hc as [-> | [f [Hf ->]]]; trivial.
  now apply nonneg_div_pos.
Qed.

Lemma gtb_of_Z_nonneg (z : Z) (x : num) :
  finiteNonNeg x -> gtb (of_Z z) x = true -> 0 < z.
Proof.
  intros [q [-> Hq]] H. unfold gtb, ltb, of_Z, Qltb in H.
  apply negb_true_iff in H.
  assert (Hlt : (q < inject_Z z)%Q).
  { apply Qnot_le_lt. intros Hle. apply Qle_bool_iff in Hle. congruence. }
  assert (H0 : (inject_Z 0 < inject_Z z)%Q)
    by (eapply Qle_lt_trans; [exact Hq | exact Hlt]).
  now rewrite <- Zlt_Qlt in H0.
Qed.

Lemma NoDup_map_filter {A B : Type} (g : A -> B) (f : A -> bool)
  (l : list A) :
  NoDup (map g l) -> NoDup (map g (filter f l)).
Proof.
  induction l as [|a l IH]; simpl; intros H; [constructor|].
  inversion H as [|x m Hnot Hnd]; subst.
  destruct (f a); simpl; [|auto].
  constructor; [|auto].
  intros Hin. apply Hnot. apply in_map_iff in Hin.
  destruct Hin as [b [E Hb]]. apply filter_In in Hb.
  rewrite <- E. apply in_map. tauto.
Qed.

Lemma keys_calculateGaps (this : LottoPredictionEngine) :
  map fst (calculateGaps this) = domain.
Proof. unfold calculateGaps. rewrite map_map. apply map_id. Qed.

Lemma includes_ballsOf (ds : list LottoDraw) (n : Z) :
  existsb (fun d => includes (balls d) n) ds = true <-> In n (ballsOf ds).
Proof.
  unfold ballsOf. rewrite existsb_exists, in_flat_map.
  split; intros [d [Hd H]]; exists d; split; trivial;
    now apply includes_true.
Qed.

(** What the filter of [identifyDueNumbers] keeps. *)
Lemma due_entry (this : LottoPredictionEngine) (n : Z) :
  In n (identifyDueNumbers this) ->
  In n domain /\
  gtb (of_Z (lastGap (gapsOf this n)))
      (mul (get_num n (calculateExpectedGaps this)) (Fin (3 # 2))) = true.
Proof.
  unfold identifyDueNumbers. cbv zeta.
  change 10 with (Z.of_nat 10). rewrite slice_firstn.
  intros Hn. apply in_map_iff in Hn.
  destruct Hn as [[n' g] [E Hin]]. simpl in E. subst n'.
  apply in_firstn in Hin.
  apply (Permutation_in _ (sort_by_perm _ _)) in Hin.
  apply filter_In in Hin. destruct Hin as [Hin Hdue].
  apply calculateGaps_in in Hin. destruct Hin as [Hdom ->].
  now split.
Qed.

Lemma cold_in_domain (this : LottoPredictionEngine) (n : Z) :
  In n (identifyColdNumbers this) -> In n domain.
Proof.
  unfold identifyColdNumbers. cbv zeta.
  change 15 with (Z.of_nat 15). rewrite slice_firstn.
  intros H. apply in_firstn in H. apply filter_In in H. tauto.
Qed.

(** ** Sorting by a comparator *)

Section SortedBy.
Context {A : Type} (cmp : A -> A -> num) (P : A -> Prop)
        (R : A -> A -> Prop).
Hypothesis R_trans :
  forall a b c, R a b -> R b c -> R a c.
Hypothesis cmp_after :
  forall a b, P a -> P b -> gtb (cmp a b) zero = true -> R b a.
Hypothesis cmp_before :
  forall a b, P a -> P b -> gtb (cmp a b) zero = false -> R a b.

Lemma insert_by_sorted (x : A) (l : list A) :
  P x -> Forall P l -> StronglySorted R l ->
  StronglySorted R (insert_by cmp x l).
Proof.
  intros Hx HP Hs. induction Hs as [|y l Hs IH Hy]; simpl.
  - repeat constructor.
  - inversion HP as [|y' l' Py Pl]; subst.
    destruct (gtb (cmp x y) zero) eqn:E.
    + constructor; [auto|].
      apply Forall_forall. intros z Hz.
      apply (Permutation_in _ (insert_by_perm cmp x l)) in Hz.
      destruct Hz as [<- | Hz]; [now apply cmp_after|].
      rewrite Forall_forall in Hy. auto.
    + constructor; [now constructor|].
      constructor; [now apply cmp_before|].
      apply Forall_forall. intros z Hz. rewrite Forall_forall in Hy.
      apply R_trans with y; [now apply cmp_before | auto].
Qed.

Lemma sort_by_sorted (l : list A) :
  Forall P l -> StronglySorted R (sort_by cmp l).
Proof.
  unfold sort_by. induction 1 as [|x l Hx Hl IH]; simpl; [constructor|].
  apply insert_by_sorted; trivial.
  apply Forall_forall. intros z Hz.
  apply (Permutation_in _ (sort_by_perm cmp l)) in Hz.
  rewrite Forall_forall in Hl. auto.
Qed.
End SortedBy.

Lemma StronglySorted_app_inv {A : Type} (R : A -> A -> Prop)
  (l1 l2 : list A) :
  StronglySorted R (l1 ++ l2) ->
  forall a b, In a l1 -> In b l2 -> R a b.
Proof.
  induction l1 as [|x l1 IH]; simpl; intros Hs a b Ha Hb; [tauto|].
  inversion Hs as [|y l Hs' Hx]; subst.
  destruct Ha as [<- | Ha]; [|eauto].
  rewrite Forall_forall in Hx. apply Hx. apply in_or_app. now right.
Qed.

Lemma StronglySorted_firstn {A : Type} (R : A -> A -> Prop) (n : nat)
  (l : list A) :
  StronglySorted R l -> StronglySorted R (firstn n l).
Proof.
  intros Hs. revert n. induction Hs as [|x l Hs IH Hx]; intros [|n];
    simpl; try constructor; auto.
  apply Forall_forall. intros z Hz. apply in_firstn in Hz.
  rewrite Forall_forall in Hx. auto.
Qed.

Lemma StronglySorted_map {A B : Type} (R : B -> B -> Prop) (f : A -> B)
  (l : list A) :
  StronglySorted (fun a b => R (f a) (f b)) l ->
  StronglySorted R (map f l).
Proof.
  induction 1 as [|x l Hs IH Hx]; simpl; constructor; trivial.
  now apply Forall_map.
Qed.

(** ** Frequencies of a window and the sets made from them *)

Lemma neg_of_Z (z : Z) : neg (of_Z z) = of_Z (- z).
Proof.
  unfold neg, of_Z. f_equal. rewrite <- inject_Z_opp.
  apply Qred_inject_Z.
Qed.

Lemma sub_of_Z (a b : Z) : sub (of_Z a) (of_Z b) = of_Z (a - b).
Proof. unfold sub. now rewrite neg_of_Z, add_of_Z. Qed.

(** The balls of the last [n] draws. *)
Lemma window_skipn (this : LottoPredictionEngine) (n : nat) :
  (0 < n)%nat ->
  lastBalls this n = ballsOf (skipn (length (draws this) - n) (draws this)).
Proof.
  intros Hn. unfold lastBalls. now rewrite slice_from_skipn.
Qed.

Lemma in_skipn_le {A : Type} (a b : nat) (l : list A) (x : A) :
  (b <= a)%nat -> In x (skipn a l) -> In x (skipn b l).
Proof.
  intros Hab H. replace a with ((a - b) + b)%nat in H by lia.
  rewrite <- skipn_skipn in H.
  rewrite <- (firstn_skipn (a - b) (skipn b l)).
  apply in_or_app. now right.
Qed.

Lemma in_ballsOf_skipn (a b : nat) (l : list LottoDraw) (x : Z) :
  (b <= a)%nat -> In x (ballsOf (skipn a l)) -> In x (ballsOf (skipn b l)).
Proof.
  intros Hab. unfold ballsOf. rewrite !in_flat_map.
  intros [d [Hd Hx]]. exists d. split; trivial.
  now apply in_skipn_le with a.
Qed.

(** A window holds the balls of every shorter window. *)
Lemma lastBalls_mono (this : LottoPredictionEngine) (n m : nat) (x : Z) :
  (0 < n <= m)%nat -> In x (lastBalls this n) -> In x (lastBalls this m).
Proof.
  intros Hnm. rewrite !window_skipn by lia.
  apply in_ballsOf_skipn. lia.
Qed.

(** The entries of the frequency table of a window. *)
Lemma recentFrequency_entry (this : LottoPredictionEngine) (n : nat)
  (e : Z * num) :
  In e (calculateRecentFrequency this (Z.of_nat n)) ->
  snd e = of_Z (occurrences (fst e) (lastBalls this n)) /\
  0 < occurrences (fst e) (lastBalls this n).
Proof.
  intros He. destruct e as [k v].
  pose proof (calculateRecentFrequency_tabulates this (Z.of_nat n)) as Ht.
  destruct (tabulates_in _ _ k v Ht He) as [Hv Hpos].
  simpl. unfold lastBalls. now split.
Qed.

Lemma recentFrequency_keys_NoDup (this : LottoPredictionEngine) (k : Z) :
  NoDup (map fst (calculateRecentFrequency this k)).
Proof.
  destruct (calculateRecentFrequency_tabulates this k) as [Hs _].
  apply StronglySorted_Sorted in Hs.
  revert Hs. generalize (map fst (calculateRecentFrequency this k)).
  intros l Hs. apply Sorted_StronglySorted in Hs;
    [|intros a b c; apply Z.lt_trans].
  induction Hs as [|x l Hs IH Hx]; constructor; trivial.
  intros Hin. rewrite Forall_forall in Hx. specialize (Hx x Hin). lia.
Qed.

(** Sorting the entries of the frequency table of a window by
    [byValueDescending] orders them by falling number of occurrences. *)
Lemma sort_recentFrequency_sorted (this : LottoPredictionEngine) (n : nat)
  (l : list (Z * num)) :
  Forall (fun e => In e (calculateRecentFrequency this (Z.of_nat n))) l ->
  StronglySorted
    (fun a b => occurrences (fst b) (lastBalls this n)
                <= occurrences (fst a) (lastBalls this n))
    (sort_by byValueDescending l).
Proof.
  intros Hl.
  apply (sort_by_sorted byValueDescending
           (fun e => snd e = of_Z (occurrences (fst e) (lastBalls this n))));
    cycle 3.
  - eapply Forall_impl; [|exact Hl].
    intros e He. now apply recentFrequency_entry.
  - intros a b c. lia.
  - intros a b Ha Hb. unfold byValueDescending.
    rewrite Ha, Hb, sub_of_Z, gtb_of_Z_zero. intros H.
    apply Z.ltb_lt in H. lia.
  - intros a b Ha Hb. unfold byValueDescending.
    rewrite Ha, Hb, sub_of_Z, gtb_of_Z_zero. intros H.
    apply Z.ltb_ge in H. lia.
Qed.

Lemma in_occurrences (n : Z) (l : list Z) :
  In n l <-> 0 < occurrences n l.
Proof.
  unfold occurrences. rewrite (count_occ_In Z.eq_dec). lia.
Qed.

Lemma cold_test (this : LottoPredictionEngine) (n : Z) :
  match lookup n (calculateRecentFrequency this 20) with
  | Some v => falsy v
  | None => true
  end = (occurrences n (lastBalls this 20) =? 0).
Proof.
  pose proof (calculateRecentFrequency_tabulates this 20) as [_ Ht].
  destruct (Ht n) as [Hge Hn]. rewrite Hn.
  unfold lastBalls. change (Z.of_nat 20) with 20.
  match goal with
  | |- context [?x =? 0] => destruct (Z.eqb_spec x 0) as [E|E]
  end; trivial.
  unfold falsy, of_Z. apply not_true_is_false. intros H.
  apply Qeq_bool_eq in H. change 0%Q with (inject_Z 0) in H.
  rewrite inject_Z_injective in H. exact (E H).
Qed.

Lemma cold_unseen (this : LottoPredictionEngine) (n : Z) :
  In n (identifyColdNumbers this) ->
  occurrences n (lastBalls this 20) = 0.
Proof.
  unfold identifyColdNumbers. cbv zeta.
  change 15 with (Z.of_nat 15). rewrite slice_firstn.
  intros H. apply in_firstn in H. apply filter_In in H.
  destruct H as [_ H]. rewrite cold_test in H. now apply Z.eqb_eq.
Qed.

Lemma hot_seen (this : LottoPredictionEngine) (n : Z) :
  In n (identifyHotNumbers this) ->
  0 < occurrences n (lastBalls this 15).
Proof.
  unfold identifyHotNumbers. cbv zeta.
  change 12 with (Z.of_nat 12). change 15 with (Z.of_nat 15).
  rewrite slice_firstn. intros Hn. apply in_map_iff in Hn.
  destruct Hn as [e [<- He]]. apply in_firstn in He.
  apply (Permutation_in _ (sort_by_perm _ _)) in He.
  now apply (recentFrequency_entry this 15 e).
Qed.

Lemma avoid_seen (this : LottoPredictionEngine) (n : Z) :
  In n (identifyAvoidNumbers this) ->
  3 <= occurrences n (lastBalls this 10).
Proof.
  unfold identifyAvoidNumbers. cbv zeta.
  change 8 with (Z.of_nat 8). change 10 with (Z.of_nat 10).
  rewrite slice_firstn. intros Hn. apply in_map_iff in Hn.
  destruct Hn as [e [<- He]]. apply in_firstn in He.
  apply (Permutation_in _ (sort_by_perm _ _)) in He.
  apply filter_In in He. destruct He as [He Hge].
  destruct (recentFrequency_entry this 10 e He) as [Hv _].
  destruct e as [k v]. simpl in *. subst v.
  unfold geb in Hge. rewrite leb_of_Z in Hge. now apply Z.leb_le.
Qed.

(** ** Sums, their mean and their deviation *)

Lemma fold_left_app_flat_map {A B : Type} (g : B -> list A) (l : list B)
  (acc : list A) :
  fold_left (fun acc b => acc ++ g b) l acc = (acc ++ flat_map g l)%list.
Proof.
  revert acc. induction l as [|b l IH]; intros acc; simpl.
  - now rewrite app_nil_r.
  - now rewrite IH, app_assoc.
Qed.

Lemma flat_map_singleton {A B : Type} (f : A -> B) (l : list A) :
  flat_map (fun a => [f a]) l = map f l.
Proof. induction l as [|a l IH]; simpl; congruence. Qed.

Lemma length_flat_map_pair {A B : Type} (f : A -> B) (l : list A) :
  length (flat_map (fun a => [f a; f a]) l) = (2 * length l)%nat.
Proof. induction l as [|a l IH]; simpl; lia. Qed.

Lemma weightedSumsOf_split (this : LottoPredictionEngine) :
  weightedSumsOf this
  = (map ballSum (olderDraws this)
     ++ flat_map (fun d => [ballSum d; ballSum d]) (last100Draws this))%list.
Proof.
  unfold weightedSumsOf.
  rewrite (fold_indexed_recent this
             (fun (b : bool) ws d =>
                ws ++ repeat (ballSum d) (if b then 2%nat else 1%nat))).
  rewrite (fold_left_app_flat_map (fun d => repeat (ballSum d) 2)).
  rewrite (fold_left_app_flat_map (fun d => repeat (ballSum d) 1)).
  simpl. now rewrite flat_map_singleton.
Qed.

Lemma fold_left_map_acc {A B C : Type} (f : A -> C -> A) (g : B -> C)
  (l : list B) (a : A) :
  fold_left (fun acc b => f acc (g b)) l a = fold_left f (map g l) a.
Proof. revert a. induction l as [|b l IH]; intros a; simpl; auto. Qed.

Lemma square_nonneg (x : num) :
  is_finite x = true -> finiteNonNeg (pow x 2).
Proof.
  destruct x as [| |q|]; try discriminate. intros _.
  eexists. split; [reflexivity|]. rewrite Qred_correct.
  change (0 <= q ^ 2)%Q. simpl. apply Qsqr_nonneg.
Qed.

Lemma finitePos_of_nat (n : nat) : (0 < n)%nat -> finitePos (of_nat n).
Proof. intros H. apply finitePos_of_Z. lia. Qed.

(** The variance of a non-empty list around a finite mean is finite and
    not negative. *)
Lemma varianceOf_nonneg (values : list Z) (mean : num) :
  values <> [] -> is_finite mean = true ->
  finiteNonNeg (varianceOf values mean).
Proof.
  intros Hne Hm. unfold varianceOf.
  apply nonneg_div_pos.
  - rewrite (fold_left_map_acc add (fun val => pow (sub (of_Z val) mean) 2)).
    destruct (total_nonneg
                (map (fun val => pow (sub (of_Z val) mean) 2) values) 0)
      as [t [Ht Hle]].
    + apply Forall_forall. intros x Hx. apply in_map_iff in Hx.
      destruct Hx as [v [<- _]]. apply square_nonneg.
      destruct mean; try discriminate. reflexivity.
    + exists t. split; trivial.
  - apply finitePos_of_nat. destruct values; [congruence | simpl; lia].
Qed.

Lemma Qsqrt_nonneg (q : Q) : (0 <= Qsqrt q)%Q.
Proof.
  unfold Qsqrt. cbv zeta.
  destruct (_ && _).
  - unfold Qle. simpl. rewrite Z.mul_1_r. apply Z.sqrt_nonneg.
  - rewrite Qred_correct. unfold Qle. simpl. rewrite Z.mul_1_r.
    apply Z.sqrt_nonneg.
Qed.

Lemma sqrt_nonneg (x : num) : finiteNonNeg x -> finiteNonNeg (sqrt x).
Proof.
  intros [q [-> Hq]]. unfold sqrt, Qltb.
  assert (H : Qle_bool 0 q = true) by now apply Qle_bool_iff.
  rewrite H. simpl. eexists. split; [reflexivity|]. apply Qsqrt_nonneg.
Qed.

Lemma round_finite (q : Q) : round (Fin q) = of_Z (Qfloor (q + (1 # 2))).
Proof. reflexivity. Qed.

Lemma round_le (p q : Q) :
  (p <= q)%Q -> Qfloor (p + (1 # 2)) <= Qfloor (q + (1 # 2)).
Proof. intros H. apply Qfloor_resp_le. lra. Qed.

Lemma meanOf_Fin (values : list Z) :
  values <> [] -> exists m : Q, meanOf values = Fin m.
Proof.
  intros H. pose proof (meanOf_finite values H) as Hf.
  destruct (meanOf values) as [| |m|]; try discriminate. now exists m.
Qed.

(** ** Consecutive patterns *)

Lemma countConsecutive_bounds (numbers : list Z) :
  0 <= countConsecutive numbers <= Z.of_nat (length numbers - 1).
Proof.
  induction numbers as [|a l IH]; [simpl; lia|].
  destruct l as [|b l]; [simpl; lia|].
  change (countConsecutive (a :: b :: l))
    with ((if b =? a + 1 then 1 else 0) + countConsecutive (b :: l)).
  simpl length in *. destruct (b =? a + 1); lia.
Qed.

Lemma consecutiveCount_bounds (d : LottoDraw) :
  0 <= countConsecutive (sort_ascending (balls d)) <= 5.
Proof.
  pose proof (countConsecutive_bounds (sort_ascending (balls d))) as H.
  rewrite (Permutation_length (sort_ascending_perm (balls d))) in H.
  simpl length in H. lia.
Qed.

(** Counts between 0 and 5 fall into exactly one of the six buckets. *)
Lemma buckets_partition (counts : list Z) :
  Forall (fun c => 0 <= c <= 5) counts ->
  (length (filter (fun c => Z.eqb c 0%Z) counts)
   + length (filter (fun c => Z.eqb c 1%Z) counts)
   + length (filter (fun c => Z.eqb c 2%Z) counts)
   + length (filter (fun c => Z.eqb c 3%Z) counts)
   + length (filter (fun c => Z.eqb c 4%Z) counts)
   + length (filter (fun c => Z.eqb c 5%Z) counts))%nat
  = length counts.
Proof.
  induction 1 as [|c counts Hc _ IH]; [reflexivity|].
  cbn [filter length].
  assert (Hcase : c = 0 \/ c = 1 \/ c = 2 \/ c = 3 \/ c = 4 \/ c = 5)
    by lia.
  destruct Hcase as [-> | [-> | [-> | [-> | [-> | ->]]]]];
    cbn [Z.eqb Pos.eqb length]; lia.
Qed.

(** ** The ranking of the scores *)

Lemma in_lookup_NoDup {A : Type} (t : dict A) (k : Z) (v : A) :
  NoDup (map fst t) -> In (k, v) t -> lookup k t = Some v.
Proof.
  induction t as [|[k' v'] t IH]; simpl; intros Hnd Hin; [contradiction|].
  inversion Hnd as [|x l Hnot Hnd']; subst.
  destruct Hin as [E | Hin].
  - injection E as -> ->. now rewrite Z.eqb_refl.
  - destruct (Z.eqb_spec k k') as [-> | _]; [|auto].
    exfalso. apply Hnot. apply in_map_iff. now exists (k', v).
Qed.

Lemma nonNegative_finiteNonNeg (x : num) :
  nonNegative x = true -> finiteNonNeg x.
Proof.
  destruct x as [| |q|]; try discriminate. intros H. exists q.
  split; trivial.
  unfold nonNegative, geb, leb, zero, of_Z in H. simpl in H.
  now apply Qle_bool_iff in H.
Qed.

Lemma gtb_sub_finite (x y : Q) :
  gtb (sub (Fin y) (Fin x)) zero = negb (Qle_bool y x).
Proof.
  unfold sub, neg, add, gtb, ltb, zero, of_Z, Qltb. f_equal.
  destruct (Qle_bool y x) eqn:E.
  - apply Qle_bool_iff. apply Qle_bool_iff in E.
    rewrite !Qred_correct. change (inject_Z 0) with 0%Q. lra.
  - apply not_true_is_false. intros H. apply Qle_bool_iff in H.
    rewrite !Qred_correct in H. change (inject_Z 0) with 0%Q in H.
    assert (Hle : (y <= x)%Q) by lra.
    apply Qle_bool_iff in Hle. congruence.
Qed.

(** Sorting entries with finite values by [byValueDescending] orders
    them by falling value. *)
Lemma sort_byValueDescending_sorted (l : list (Z * num)) :
  Forall (fun e => is_finite (snd e) = true) l ->
  StronglySorted (fun a b => geb (snd a) (snd b) = true)
                 (sort_by byValueDescending l).
Proof.
  apply (sort_by_sorted byValueDescending
           (fun e => is_finite (snd e) = true)).
  - intros [ka [| |a|]] [kb [| |b|]] [kc [| |c|]]; simpl;
      try discriminate; trivial.
    unfold geb, leb. rewrite !Qle_bool_iff. intros H1 H2. lra.
  - intros [ka [| |a|]] [kb [| |b|]]; try discriminate. intros _ _.
    unfold byValueDescending. cbn [snd]. rewrite gtb_sub_finite.
    intros H. apply negb_true_iff in H. unfold geb, leb.
    apply Qle_bool_iff.
    apply Qlt_le_weak, Qnot_le_lt. intros Hle.
    apply Qle_bool_iff in Hle. congruence.
  - intros [ka [| |a|]] [kb [| |b|]]; try discriminate. intros _ _.
    unfold byValueDescending. cbn [snd]. rewrite gtb_sub_finite.
    intros H. apply negb_false_iff in H. exact H.
Qed.

Lemma StronglySorted_impl_in {A : Type} (R S : A -> A -> Prop)
  (l : list A) :
  (forall a b, In a l -> In b l -> R a b -> S a b) ->
  StronglySorted R l -> StronglySorted S l.
Proof.
  intros H Hs. induction Hs as [|x l Hs IH Hx]; constructor.
  - apply IH. intros a b Ha Hb. apply H; now right.
  - rewrite Forall_forall in *. intros y Hy.
    apply H; [now left | now right | auto].
Qed.

(** ** The empty history *)

Lemma mul_zero_l (a : Q) : mul zero (Fin a) = zero.
Proof.
  unfold mul, zero, of_Z. now f_equal.
Qed.

(** The score of every number on the empty history, for finite
    weights. *)
Lemma empty_history_score (w : PredictionWeights) (n : Z) :
  is_finite (frequency w) = true ->
  is_finite (recency w) = true ->
  is_finite (gaps w) = true ->
  In n domain ->
  let this := {| draws := []; weights := w |} in
  lookup n (calculateNumberScores this (performCompleteAnalysis this))
  = Some zero.
Proof.
  intros Hf Hr Hg Hn this.
  unfold calculateNumberScores. cbv zeta.
  rewrite (lookup_map_domain_in _ domain n Hn). f_equal.
  change (Analysis.allTimeFrequency (performCompleteAnalysis this))
    with (@nil (Z * num)).
  change (Analysis.recentFrequency (performCompleteAnalysis this))
    with (@nil (Z * num)).
  change (Analysis.avoidNumbers (performCompleteAnalysis this))
    with (@nil Z).
  change (Analysis.dueNumbers (performCompleteAnalysis this))
    with (@nil Z).
  change (Analysis.hotNumbers (performCompleteAnalysis this))
    with (@nil Z).
  change (Analysis.expectedGaps (performCompleteAnalysis this))
    with (map (fun num : Z => (num, zero)) domain).
  unfold get_num. rewrite (lookup_map_domain_in (fun _ => zero) domain n Hn).
  change (gtb zero zero) with false. cbv iota.
  cbn [includes existsb get_or0 lookup weights this].
  change (max_list (Object_values [])) with NInf.
  change (div zero NInf) with zero.
  destruct (frequency w) as [| |a|]; try discriminate.
  destruct (recency w) as [| |b|]; try discriminate.
  destruct (gaps w) as [| |c|]; try discriminate.
  rewrite mul_zero_l.
  change (mul zero (of_Z 100)) with zero.
  change (mul zero (of_Z 25)) with zero.
  change (mul zero (of_Z 50)) with zero.
  change (Num.min zero (of_Z 100)) with zero.
  rewrite !mul_zero_l. reflexivity.
Qed.

(** Sorting entries whose values are all 0 leaves them in place. *)
Lemma sort_by_all_zero (l : list Z) :
  sort_by byValueDescending (map (fun n => (n, zero)) l)
  = map (fun n => (n, zero)) l.
Proof.
  unfold sort_by. induction l as [|x l IH]; simpl; [reflexivity|].
  rewrite IH. destruct l as [|y l]; reflexivity.
Qed.

Lemma map_lookup_ext (t : dict num) (g : Z -> num) :
  map fst t = domain ->
  (forall n, In n domain -> lookup n t = Some (g n)) ->
  t = map (fun n => (n, g n)) domain.
Proof.
  intros keys H.
  assert (Hnd : NoDup (map fst t)) by (rewrite keys; apply NoDup_domain).
  assert (Hin : forall k v, In (k, v) t -> v = g k).
  { intros k v Hkv.
    assert (Hk : In k domain)
      by (rewrite <- keys; apply in_map_iff; now exists (k, v)).
    pose proof (in_lookup_NoDup t k v Hnd Hkv) as E.
    rewrite (H k Hk) in E. congruence. }
  rewrite <- keys. clear keys H Hnd.
  induction t as [|[k v] t IH]; simpl; [reflexivity|].
  rewrite (Hin k v) by now left. f_equal.
  apply IH. intros k' v' H'. apply Hin. now right.
Qed.

(** ** Drawing from a pool *)

Lemma removeAt_perm (randomIndex : nat) (candidatePool : list Z) :
  (randomIndex < length candidatePool)%nat ->
  Permutation candidatePool
    (nth randomIndex candidatePool 0 :: removeAt randomIndex candidatePool).
Proof.
  unfold removeAt. revert candidatePool.
  induction randomIndex as [|i IH]; intros [|x l] H; simpl in *; try lia.
  - reflexivity.
  - rewrite (IH l) at 1 by lia. apply perm_swap.
Qed.

(** The loop moves elements from the pool to the selection: what it
    returns, with what is left of the pool, is a permutation of the
    selection and the pool it started from. *)
Lemma poolLoop_perm (rnd : RandomSource) (left : nat)
  (candidatePool selected : list Z) (k : nat) :
  exists rest : list Z,
    Permutation (selected ++ candidatePool)
                (fst (poolLoop rnd left candidatePool selected k) ++ rest).
Proof.
  revert candidatePool selected k.
  induction left as [|left IH]; intros pool sel k; simpl.
  - now exists pool.
  - destruct (Nat.ltb_spec 0 (length pool)) as [Hpos | _];
      [|now exists pool].
    destruct (IH (removeAt (randomIndexBelow rnd k (of_nat (length pool)))
                           pool)
                 (sel ++ [nth (randomIndexBelow rnd k (of_nat (length pool)))
                              pool 0])
                 (S k)) as [rest Hrest].
    exists rest. rewrite <- Hrest, <- app_assoc. simpl.
    apply Permutation_app_head, removeAt_perm.
    now apply randomIndexBelow_lt.
Qed.

Lemma length_removeAt (randomIndex : nat) (candidatePool : list Z) :
  (randomIndex < length candidatePool)%nat ->
  length (removeAt randomIndex candidatePool)
  = (length candidatePool - 1)%nat.
Proof.
  intros H. apply removeAt_perm in H. apply Permutation_length in H.
  simpl in H. lia.
Qed.

Lemma poolLoop_length (rnd : RandomSource) (left : nat)
  (candidatePool selected : list Z) (k : nat) :
  (left <= length candidatePool)%nat ->
  length (fst (poolLoop rnd left candidatePool selected k))
  = (length selected + left)%nat.
Proof.
  revert candidatePool selected k.
  induction left as [|left IH]; intros pool sel k H; simpl; [lia|].
  destruct (Nat.ltb_spec 0 (length pool)) as [Hpos | Hz]; [|lia].
  rewrite IH.
  - rewrite length_app. simpl. lia.
  - rewrite length_removeAt by now apply randomIndexBelow_lt. lia.
Qed.

Lemma poolLoop_incl (rnd : RandomSource) (candidatePool : list Z)
  (k : nat) :
  incl (fst (poolLoop rnd 6 candidatePool [] k)) candidatePool.
Proof.
  destruct (poolLoop_perm rnd 6 candidatePool [] k) as [rest H].
  intros x Hx. apply (Permutation_in x (Permutation_sym H)).
  apply in_or_app. now left.
Qed.

Lemma poolLoop_NoDup (rnd : RandomSource) (candidatePool : list Z)
  (k : nat) :
  NoDup candidatePool -> NoDup (fst (poolLoop rnd 6 candidatePool [] k)).
Proof.
  destruct (poolLoop_perm rnd 6 candidatePool [] k) as [rest H].
  intros Hnd. apply (Permutation_NoDup H) in Hnd.
  now apply NoDup_app_remove_r in Hnd.
Qed.

(** The pool of every strategy holds numbers of the domain. *)
Lemma poolOf_domain (analysis : Analysis.t) (strategy : Strategy)
  (topCandidates : list Z) :
  incl topCandidates domain ->
  incl (Analysis.dueNumbers analysis ++ Analysis.coldNumbers analysis)
       domain ->
  incl (poolOf strategy topCandidates analysis) domain.
Proof.
  intros Htop Hdc n. destruct strategy; simpl poolOf.
  - intros H. apply filter_In in H. apply Htop. tauto.
  - change 15 with (Z.of_nat 15). rewrite slice_firstn.
    intros H. apply in_firstn in H. now apply Hdc.
  - apply Htop.
Qed.

Lemma due_cold_domain (this : LottoPredictionEngine) :
  incl (Analysis.dueNumbers (performCompleteAnalysis this)
        ++ Analysis.coldNumbers (performCompleteAnalysis this))
       domain.
Proof.
  cbn [Analysis.dueNumbers Analysis.coldNumbers performCompleteAnalysis].
  intros n H. apply in_app_or in H.
  destruct H as [H | H];
    [now apply due_entry in H | now apply cold_in_domain in H].
Qed.

(** The alternative sets for scores over the domain: the balanced set is
    always made, from the 20 best candidates. *)
Lemma generateAlternativeSets_sets (rnd : RandomSource) (scores : dict num)
  (analysis : Analysis.t) (k : nat) :
  map fst scores = domain ->
  incl (Analysis.dueNumbers analysis ++ Analysis.coldNumbers analysis)
       domain ->
  let sets := fst (generateAlternativeSets rnd scores analysis k) in
  (1 <= length sets <= 3)%nat /\
  Forall (Forall (fun n => 1 <= n <= 49)) sets /\
  NoDup (last sets []).
Proof.
  intros keys Hdc.
  unfold generateAlternativeSets. cbv zeta.
  change 20 with (Z.of_nat 20). rewrite slice_firstn.
  set (top := firstn 20 (rankedCandidates scores)).
  assert (Htop : incl top domain).
  { intros n Hn. apply in_firstn in Hn. apply in_domain.
    now apply (ranked_in scores keys). }
  assert (Hnd : NoDup top) by (apply NoDup_firstn, ranked_NoDup, keys).
  assert (Hlen : length top = 20%nat).
  { unfold top. apply firstn_length_le.
    rewrite (ranked_length scores keys). lia. }
  assert (Hset : forall strategy k0,
             Forall (fun n => 1 <= n <= 49)
                    (sort_ascending
                       (fst (poolLoop rnd 6 (poolOf strategy top analysis)
                                      [] k0)))).
  { intros strategy k0. apply Forall_forall. intros n Hn.
    apply (Permutation_in _ (sort_ascending_perm _)) in Hn.
    apply poolLoop_incl in Hn. apply in_domain.
    now apply (poolOf_domain analysis strategy top Htop Hdc). }
  cbn [fold_left].
  pose proof (Hset conservative k) as H1.
  destruct (poolLoop rnd 6 (poolOf conservative top analysis) [] k)
    as [s1 k1].
  cbn [fst] in H1.
  assert (Hstep2 : forall alternatives : list (list Z),
             (length alternatives <= 1)%nat ->
             Forall (Forall (fun n => 1 <= n <= 49)) alternatives ->
             let sets :=
               fst (fold_left
                      (fun '(alternatives, k) strategy =>
                         let '(selected, k) :=
                           poolLoop rnd 6 (poolOf strategy top analysis)
                                    [] k in
                         if (length selected =? 6)%nat
                         then (alternatives ++ [sort_ascending selected], k)
                         else (alternatives, k))
                      [aggressive; balanced] (alternatives, k1)) in
             (1 <= length sets <= 3)%nat /\
             Forall (Forall (fun n => 1 <= n <= 49)) sets /\
             NoDup (last sets [])).
  { intros alternatives Hal Hdom. cbn [fold_left].
    pose proof (Hset aggressive k1) as H2.
    destruct (poolLoop rnd 6 (poolOf aggressive top analysis) [] k1)
      as [s2 k2].
    cbn [fst] in H2.
    assert (Hstep3 : forall alternatives : list (list Z),
               (length alternatives <= 2)%nat ->
               Forall (Forall (fun n => 1 <= n <= 49)) alternatives ->
               let sets :=
                 fst (let '(selected, k) :=
                        poolLoop rnd 6 (poolOf balanced top analysis)
                                 [] k2 in
                      if (length selected =? 6)%nat
                      then (alternatives ++ [sort_ascending selected], k)
                      else (alternatives, k)) in
               (1 <= length sets <= 3)%nat /\
               Forall (Forall (fun n => 1 <= n <= 49)) sets /\
               NoDup (last sets [])).
    { intros alts Hal' Hdom'.
      pose proof (Hset balanced k2) as H3.
      pose proof (poolLoop_length rnd 6 top [] k2 ltac:(lia)) as H6.
      pose proof (poolLoop_NoDup rnd top k2 Hnd) as Hnd3.
      change (poolOf balanced top analysis) with top in *.
      destruct (poolLoop rnd 6 top [] k2) as [s3 k3].
      cbn [fst] in H3, H6, Hnd3. cbn [length Nat.add] in H6. rewrite H6.
      cbn [Nat.eqb fst]. rewrite length_app, last_last.
      split; [cbn [length]; lia|]. split.
      - apply Forall_app. split; trivial. now constructor.
      - eapply Permutation_NoDup;
          [symmetry; apply sort_ascending_perm | exact Hnd3]. }
    destruct (length s2 =? 6)%nat.
    - apply Hstep3.
      + rewrite length_app. cbn [length]. lia.
      + apply Forall_app. split; trivial. now constructor.
    - apply Hstep3; [lia | trivial]. }
  destruct (length s1 =? 6)%nat.
  - apply Hstep2; [cbn [length app]; lia|]. now constructor.
  - apply Hstep2; [cbn [length]; lia | constructor].
Qed.

(** ** Loops that add a weight per element *)

Lemma fold_left_counting {A B : Type} (P : A -> Z -> Prop) (G : A -> B -> A)
  (w : Z) (l : list B) (a : A) (s : Z) :
  (forall a s b, P a s -> P (G a b) (s + w)) ->
  P a s -> P (fold_left G l a) (s + w * Z.of_nat (length l)).
Proof.
  intros HG. revert a s. induction l as [|b l IH]; intros a s Ha.
  - simpl. now rewrite Z.mul_0_r, Z.add_0_r.
  - cbn [fold_left length].
    replace (s + w * Z.of_nat (S (length l)))
      with ((s + w) + w * Z.of_nat (length l)) by lia.
    apply IH, HG, Ha.
Qed.

Lemma fold_left_weighted {A B : Type} (P : A -> Z -> Prop) (F : A -> B -> A)
  (wt : B -> Z) (l : list B) (a : A) (s : Z) :
  (forall a s b, P a s -> P (F a b) (s + wt b)) ->
  P a s ->
  P (fold_left F l a) (fold_left (fun acc b => acc + wt b) l s).
Proof.
  intros HF. revert a s. induction l as [|b l IH]; intros a s Ha; simpl.
  - exact Ha.
  - apply IH, HF, Ha.
Qed.

Lemma fold_left_add_const {B : Type} (c : Z) (l : list B) (s : Z) :
  fold_left (fun acc _ => acc + c) l s = s + c * Z.of_nat (length l).
Proof.
  revert s. induction l as [|b l IH]; intros s.
  - simpl. lia.
  - cbn [fold_left length]. rewrite IH. lia.
Qed.

(** The weights of the draws add up to the total weighted draw count. *)
Lemma weights_total (this : LottoPredictionEngine) (c : Z) :
  fold_left (fun acc (e : nat * LottoDraw) =>
               acc + c * (if isRecentIndex this (Z.of_nat (fst e))
                          then 2 else 1))
            (indexed (draws this)) 0
  = c * calculateTotalWeightedDraws this.
Proof.
  transitivity
    (fold_left (fun acc '(index, _) =>
                  acc + c * (if isRecentIndex this (Z.of_nat index)
                             then 2 else 1))
               (indexed (draws this)) 0).
  - apply fold_left_ext_in. now intros acc [index draw] _.
  - rewrite (fold_indexed_recent this
               (fun (b : bool) (acc : Z) (_ : LottoDraw) =>
                  acc + c * (if b then 2 else 1))).
    rewrite !fold_left_add_const, calculateTotalWeightedDraws_split. lia.
Qed.

(** ** The range distribution *)

Lemma integerRanges_total (r : RangeDistribution) (s : Z) :
  integerRanges r s -> rangeTotal r = of_Z s.
Proof.
  intros [a [b [c [d [e [-> H]]]]]]. unfold rangeTotal.
  cbn [range_1_10 range_11_20 range_21_30 range_31_40 range_41_49].
  rewrite !add_of_Z. now f_equal.
Qed.

(** ** The bonus frequency *)

Lemma tabulates_bonus (w : Z) (ds : list LottoDraw) (t : dict num)
  (c : Z -> Z) :
  0 < w -> tabulates t c ->
  tabulates (fold_left (fun freq draw => bump (of_Z w) freq (BB draw)) ds t)
            (fun k => c k + w * occurrences k (bonusBallsOf ds)).
Proof.
  intros Hw Ht. unfold bonusBallsOf.
  rewrite (fold_left_map_acc (bump (of_Z w)) BB).
  now apply tabulates_balls.
Qed.

(** ** Bounds *)

Lemma boundedBy_nonneg (x : num) (q : Q) : boundedBy x q -> finiteNonNeg x.
Proof. intros [a [-> [H _]]]. now exists a. Qed.

Lemma boundedBy_weaken (x : num) (p q : Q) :
  boundedBy x p -> (p <= q)%Q -> boundedBy x q.
Proof. intros [a [-> [H0 H1]]] Hpq. exists a. split; trivial. lra. Qed.

Lemma boundedBy_self (x : num) :
  finiteNonNeg x -> exists q : Q, x = Fin q /\ boundedBy x q.
Proof.
  intros [a [-> Ha]]. exists a. split; trivial. exists a. split; trivial. lra.
Qed.

Lemma boundedBy_add (x y : num) (p q : Q) :
  boundedBy x p -> boundedBy y q -> boundedBy (add x y) (p + q).
Proof.
  intros [a [-> Ha]] [b [-> Hb]]. eexists. split; [reflexivity|].
  rewrite Qred_correct. lra.
Qed.

Lemma boundedBy_mul (x y : num) (p q : Q) :
  boundedBy x p -> boundedBy y q -> boundedBy (mul x y) (p * q).
Proof.
  intros [a [-> [Ha0 Ha1]]] [b [-> [Hb0 Hb1]]].
  eexists. split; [reflexivity|]. rewrite Qred_correct. split.
  - now apply Qmult_le_0_compat.
  - apply Qle_trans with (a * q)%Q.
    + rewrite !(Qmult_comm a). apply Qmult_le_compat_r; trivial.
    + apply Qmult_le_compat_r; trivial. lra.
Qed.

Lemma boundedBy_min_100 (x : num) :
  finiteNonNeg x -> boundedBy (Num.min x (of_Z 100)) 100.
Proof.
  intros [a [-> Ha]]. unfold Num.min, leb, of_Z.
  destruct (Qle_bool a (inject_Z 100)) eqn:E.
  - exists a. split; trivial. apply Qle_bool_iff in E.
    change (inject_Z 100) with 100%Q in E. lra.
  - exists 100%Q. split; [reflexivity | lra].
Qed.

Lemma boundedBy_scale_down (cond : bool) (s : num) (c p : Q) :
  (0 <= c <= 1)%Q -> boundedBy s p ->
  boundedBy (if cond then mul s (Fin c) else s) p.
Proof.
  intros Hc Hs. destruct cond; trivial.
  apply boundedBy_weaken with (p * 1)%Q; [|lra].
  apply boundedBy_mul; trivial. exists c. split; trivial.
Qed.

Lemma boundedBy_scale_up (cond : bool) (s : num) (c p : Q) :
  (1 <= c)%Q -> boundedBy s p ->
  boundedBy (if cond then mul s (Fin c) else s) (p * c).
Proof.
  intros Hc Hs. destruct cond.
  - apply boundedBy_mul; trivial. exists c. split; trivial. lra.
  - destruct Hs as [a [-> [H0 H1]]]. exists a. split; trivial.
    split; trivial. apply Qle_trans with (p * 1)%Q; [lra|].
    rewrite !(Qmult_comm p). apply Qmult_le_compat_r; lra.
Qed.

(** [Math.max(...xs)] over positive values is at least each of them. *)
Lemma max_list_upper (l : list num) (acc : num) :
  Forall finitePos l -> acc = NInf \/ finitePos acc ->
  (fold_left Num.max l acc = NInf \/ finitePos (fold_left Num.max l acc)) /\
  leb acc (fold_left Num.max l acc) = true /\
  Forall (fun x => leb x (fold_left Num.max l acc) = true) l.
Proof.
  intros Hl. revert acc. induction Hl as [|x l [q [-> Hq]] _ IH];
    intros acc Hacc; simpl.
  - split; trivial. split; [|constructor].
    destruct Hacc as [-> | [a [-> _]]]; [reflexivity|].
    unfold leb. apply Qle_bool_iff. lra.
  - assert (Hnext : Num.max acc (Fin q) = NInf \/
                    finitePos (Num.max acc (Fin q))).
    { right. destruct Hacc as [-> | [a [-> Ha]]].
      - exists q. now split.
      - unfold Num.max. destruct (leb (Fin a) (Fin q)); eexists; eauto. }
    destruct (IH _ Hnext) as [Hm [Hle Hall]].
    split; trivial.
    assert (Hstep : leb acc (Num.max acc (Fin q)) = true /\
                    leb (Fin q) (Num.max acc (Fin q)) = true).
    { destruct Hacc as [-> | [a [-> Ha]]].
      - split; [reflexivity|]. unfold Num.max, leb.
        apply Qle_bool_iff. lra.
      - unfold Num.max, leb. destruct (Qle_bool a q) eqn:E.
        + split; [exact E | apply Qle_bool_iff; lra].
        + split; [apply Qle_bool_iff; lra|].
          apply Qle_bool_iff, Qlt_le_weak, Qnot_le_lt. intros H.
          apply Qle_bool_iff in H. congruence. }
    assert (Htrans : forall x y z,
               leb x y = true -> leb y z = true -> leb x z = true).
    { intros [| |a|] [| |b|] [| |c|]; simpl; try discriminate; trivial.
      unfold leb. rewrite !Qle_bool_iff. lra. }
    destruct Hstep as [H1 H2].
    split; [now apply Htrans with (Num.max acc (Fin q))|].
    constructor; [now apply Htrans with (Num.max acc (Fin q)) | exact Hall].
Qed.

(** A frequency over the largest frequency is between 0 and 1. *)
Lemma ratio_boundedBy (k : Z) (t : dict num) :
  positiveValues t ->
  boundedBy (div (get_or0 k t) (max_list (Object_values t))) 1.
Proof.
  intros Ht.
  assert (Hvals : Forall finitePos (Object_values t)).
  { unfold Object_values. apply Forall_map. exact Ht. }
  destruct (max_list_upper _ NInf Hvals (or_introl eq_refl))
    as [Hm [_ Hall]].
  fold (max_list (Object_values t)) in Hm, Hall.
  unfold get_or0. destruct (lookup k t) as [v|] eqn:E.
  - apply lookup_in in E.
    assert (Hv : In v (Object_values t)).
    { unfold Object_values. apply in_map_iff. now exists (k, v). }
    rewrite Forall_forall in Hall, Hvals.
    specialize (Hall v Hv). destruct (Hvals v Hv) as [a [-> Ha]].
    destruct Hm as [Hm | [m [Hm Hm0]]]; rewrite Hm in *; [discriminate|].
    unfold leb in Hall. apply Qle_bool_iff in Hall.
    cbn [or0]. unfold div.
    destruct (Qeq_bool m 0) eqn:E0;
      [apply Qeq_bool_eq in E0; rewrite E0 in Hm0; lra|].
    eexists. split; [reflexivity|]. rewrite Qred_correct. split.
    + apply Qle_shift_div_l; trivial. lra.
    + apply Qle_shift_div_r; trivial. lra.
  - destruct Hm as [-> | [m [-> Hm0]]].
    + exists 0%Q. split; [reflexivity | lra].
    + unfold div, zero, of_Z.
      destruct (Qeq_bool m 0) eqn:E0;
        [apply Qeq_bool_eq in E0; rewrite E0 in Hm0; lra|].
      eexists. split; [reflexivity|]. rewrite Qred_correct.
      change (inject_Z 0) with 0%Q. split.
      * apply Qle_shift_div_l; trivial. lra.
      * apply Qle_shift_div_r; trivial. lra.
Qed.

Lemma boundedBy_of_Z (z : Z) : 0 <= z -> boundedBy (of_Z z) (inject_Z z).
Proof.
  intros H. exists (inject_Z z). split; [reflexivity|]. split; [|lra].
  change 0%Q with (inject_Z 0). now rewrite <- Zle_Qle.
Qed.

Section ScoreBound.

Variable this : LottoPredictionEngine.
Variables wf wr wg : Q.
Hypothesis frequency_weight : frequency (weights this) = Fin wf.
Hypothesis recency_weight : recency (weights this) = Fin wr.
Hypothesis gaps_weight : gaps (weights this) = Fin wg.
Hypothesis wf_nonneg : (0 <= wf)%Q.
Hypothesis wr_nonneg : (0 <= wr)%Q.
Hypothesis wg_nonneg : (0 <= wg)%Q.

Lemma score_boundedBy (n : Z) (s : num) :
  lookup n (calculateNumberScores this (performCompleteAnalysis this))
  = Some s ->
  boundedBy s ((0 + 1 * wf * 100 + 100 * wr + 100 * wg)
               * (3 # 2) * (6 # 5)).
Proof.
  unfold calculateNumberScores. cbv zeta. intros H.
  apply lookup_map_domain in H. subst s.
  cbn [Analysis.allTimeFrequency Analysis.recentFrequency Analysis.gaps
       Analysis.expectedGaps Analysis.avoidNumbers Analysis.dueNumbers
       Analysis.hotNumbers performCompleteAnalysis].
  rewrite frequency_weight, recency_weight, gaps_weight.
  apply boundedBy_scale_up; [lra|].
  apply boundedBy_scale_up; [lra|].
  apply boundedBy_scale_down; [lra|].
  repeat apply boundedBy_add.
  - exists 0%Q. split; [reflexivity | lra].
  - apply boundedBy_mul; [apply boundedBy_mul|].
    + apply ratio_boundedBy, calculateAllTimeFrequency_positive.
    + exists wf. split; trivial. lra.
    + exists 100%Q. split; [reflexivity | lra].
  - apply boundedBy_mul; [|exists wr; split; trivial; lra].
    apply boundedBy_min_100.
    apply nonneg_mul; [|now apply nonneg_of_Z].
    apply get_or0_nonneg, calculateRecentFrequency_positive.
  - apply boundedBy_mul; [|exists wg; split; trivial; lra].
    apply boundedBy_min_100.
    apply nonneg_mul; [|now apply nonneg_of_Z].
    destruct (gtb (get_num n (calculateExpectedGaps this)) zero) eqn:E;
      [|apply nonneg_zero].
    pose proof (nonneg_of_Z _ (currentGap_nonneg this n)) as Hgap.
    apply gtb_zero_cases in E. destruct E as [-> | Hpos].
    + apply nonneg_div_inf; auto.
    + now apply nonneg_div_pos.
Qed.

End ScoreBound.

(** ** The bonus ball frequencies *)

Lemma bonusFrequency_tabulates (this : LottoPredictionEngine) :
  tabulates (bonusFrequency this)
    (fun k => occurrences k (bonusBallsOf (olderDraws this))
              + 2 * occurrences k (bonusBallsOf (last100Draws this))).
Proof.
  unfold bonusFrequency.
  rewrite (fold_indexed_recent this
             (fun (b : bool) freq draw =>
                bump (if b then of_Z 2 else of_Z 1) freq (BB draw))).
  eapply tabulates_ext;
    [|apply (tabulates_bonus 2), (tabulates_bonus 1 _ [] (fun _ => 0));
      [lia | lia | apply tabulates_nil]].
  intros k. cbv beta. lia.
Qed.

Lemma bonusFrequency_positive (this : LottoPredictionEngine) :
  positiveValues (bonusFrequency this).
Proof.
  unfold bonusFrequency.
  apply fold_left_invariant; [|constructor].
  intros freq [index draw] Hfreq. apply bump_positive; trivial.
  destruct (isRecentIndex this (Z.of_nat index));
    [apply finitePos_2 | apply finitePos_1].
Qed.

Lemma boundedBy_between (x : num) (z : Z) :
  boundedBy x (inject_Z z) -> between zero (of_Z z) x = true.
Proof.
  intros [a [-> [H0 H1]]]. unfold between, leb, zero, of_Z.
  apply andb_true_iff. split; now apply Qle_bool_iff.
Qed.

(** ** The properties *)

(** X1.  The table of calculateAllTimeFrequency holds, for every number, the
    number of its occurrences among the main balls of the draws before the
    last 100 plus twice the number of its occurrences among those of the
    last 100 draws (of all draws when there are at most 100); a number that
    occurs in no draw has no entry. *)
Theorem calculateAllTimeFrequency_counts (this : LottoPredictionEngine)
  (n : Z) :
  let seen := occurrences n (ballsOf (olderDraws this))
              + 2 * occurrences n (ballsOf (last100Draws this)) in
  length (last100Draws this) = Nat.min (length (draws this)) 100 /\
  draws this = (olderDraws this ++ last100Draws this)%list /\
  lookup n (calculateAllTimeFrequency this)
  = if seen =? 0 then None else Some (of_Z seen).
Proof.
  cbv zeta. split; [apply length_last100Draws|]. split.
  - unfold olderDraws, last100Draws. now rewrite firstn_skipn.
  - destruct (calculateAllTimeFrequency_tabulates this) as [_ H]. apply H.
Qed.

(** X2.  The values of the weighted frequency table add up to six times the
    total weighted draw count of calculateTotalWeightedDraws: every draw
    gives its weight to six entries. *)
Theorem allTimeFrequency_total (this : LottoPredictionEngine) :
  dictTotal (calculateAllTimeFrequency this)
  = of_Z (6 * calculateTotalWeightedDraws this).
Proof.
  rewrite (tabulates_dictTotal _ _ (calculateAllTimeFrequency_tabulates this)).
  f_equal. unfold calculateAllTimeFrequency.
  rewrite (fold_indexed_recent this
             (fun (b : bool) freq draw =>
                fold_left (bump (if b then of_Z 2 else of_Z 1))
                          (balls draw) freq)).
  rewrite (integerTotal_draws 2 (last100Draws this) _
             (fun k => 0 + 1 * occurrences k (ballsOf (olderDraws this))));
    [|lia|apply (tabulates_draws 1 _ [] (fun _ => 0));
          [lia | apply tabulates_nil]].
  rewrite (integerTotal_draws 1 (olderDraws this) [] (fun _ => 0));
    [|lia|apply tabulates_nil].
  rewrite calculateTotalWeightedDraws_split. simpl integerTotal. lia.
Qed.

(** X3.  The table of calculateRecentFrequency(drawCount) holds, for every
    number, the number of its occurrences among the main balls of the draws
    of draws.slice(-drawCount); a number that does not occur there has no
    entry. *)
Theorem calculateRecentFrequency_counts (this : LottoPredictionEngine)
  (drawCount : nat) (n : Z) :
  let seen := occurrences n (lastBalls this drawCount) in
  lookup n (calculateRecentFrequency this (Z.of_nat drawCount))
  = if seen =? 0 then None else Some (of_Z seen).
Proof.
  cbv zeta.
  destruct (calculateRecentFrequency_tabulates this (Z.of_nat drawCount))
    as [_ H].
  apply H.
Qed.

(** X4.  When a draw holds the number n and no later draw does, the last
    element of the gap array of n, which the scoring and the due numbers
    read as the current gap, is the number of draws after that draw. *)
Theorem currentGap_counts_later_draws (this : LottoPredictionEngine)
  (n : Z) (before after : list LottoDraw) (d : LottoDraw) :
  draws this = (before ++ d :: after)%list ->
  includes (balls d) n = true ->
  existsb (fun d' => includes (balls d') n) after = false ->
  lastGap (gapsOf this n) = Z.of_nat (length after).
Proof. apply lastGap_distance. Qed.

Lemma currentGap_counts_later_draws_witness :
  draws (newEngine [draw_1_to_6; draw_sum_100; draw_sum_100] noCustomWeights)
  = ([] ++ draw_1_to_6 :: [draw_sum_100; draw_sum_100])%list /\
  includes (balls draw_1_to_6) 1 = true /\
  existsb (fun d' => includes (balls d') 1) [draw_sum_100; draw_sum_100]
  = false /\
  lastGap (gapsOf (newEngine [draw_1_to_6; draw_sum_100; draw_sum_100]
                             noCustomWeights) 1)
  = Z.of_nat (length [draw_sum_100; draw_sum_100]).
Proof.
  split; [reflexivity|]. split; [reflexivity|]. split; [reflexivity|].
  apply (currentGap_counts_later_draws
           (newEngine [draw_1_to_6; draw_sum_100; draw_sum_100]
                      noCustomWeights)
           1 [] [draw_sum_100; draw_sum_100] draw_1_to_6);
    reflexivity.
Defined.

(** X5.  On a non-empty history the expected gap of every number from 1 to
    49 is a finite number greater than 0, so the guard expectedGap > 0 of
    the scoring holds for every number. *)
Theorem calculateExpectedGaps_positive (this : LottoPredictionEngine)
  (n : Z) :
  (0 < length (draws this))%nat ->
  1 <= n <= 49 ->
  exists e : num,
    lookup n (calculateExpectedGaps this) = Some e /\ finitePos e.
Proof.
  intros Hlen Hn. apply in_domain in Hn.
  assert (Hne : draws this <> [])
    by (destruct (draws this); simpl in *; [lia | congruence]).
  destruct (expectedGap_cases this n Hn) as [e [He Hc]].
  exists e. split; trivial.
  pose proof (finitePos_of_Z _ (calculateTotalWeightedDraws_pos this Hne))
    as Ht.
  destruct Hc as [-> | [f [Hf ->]]]; trivial.
  now apply finitePos_div.
Qed.

Lemma calculateExpectedGaps_positive_witness :
  (0 < length (draws (newEngine [draw_1_to_6] noCustomWeights)))%nat /\
  1 <= 7 <= 49 /\
  exists e : num,
    lookup 7 (calculateExpectedGaps (newEngine [draw_1_to_6] noCustomWeights))
    = Some e /\ finitePos e.
Proof.
  split; [simpl; lia|]. split; [lia|].
  apply (calculateExpectedGaps_positive
           (newEngine [draw_1_to_6] noCustomWeights) 7);
    [simpl; lia | lia].
Defined.

(** X6.  The six consecutive patterns partition the draws: the frequency of
    the pattern with count c is the number of draws with c consecutive pairs
    divided by the number of draws, and these six numbers of draws add up to
    the number of draws. *)
Theorem analyzeConsecutivePatterns_partition (this : LottoPredictionEngine) :
  exists counts : list nat,
    length counts = 6%nat /\
    list_sum counts = length (draws this) /\
    analyzeConsecutivePatterns this
    = map (fun '(count, n) =>
             {| cp_count := Z.of_nat count;
                cp_frequency := div (of_nat n)
                                    (of_nat (length (draws this))) |})
          (combine (seq 0 6) counts).
Proof.
  unfold analyzeConsecutivePatterns. cbv zeta.
  set (counts := map (fun draw => countConsecutive
                                    (sort_ascending (balls draw)))
                     (draws this)).
  assert (Hb : Forall (fun c => 0 <= c <= 5) counts).
  { apply Forall_forall. intros c Hc. apply in_map_iff in Hc.
    destruct Hc as [d [<- _]]. apply consecutiveCount_bounds. }
  pose proof (buckets_partition counts Hb) as Hpart.
  unfold counts at 7 in Hpart. rewrite length_map in Hpart.
  exists (map (fun count => length (filter (fun c => c =? count) counts))
              [0; 1; 2; 3; 4; 5]).
  split; [reflexivity|]. split; [|reflexivity].
  cbn [map list_sum fold_right]. lia.
Qed.

(** X7.  On a non-empty history analyzePositionPatterns returns twelve
    entries, a mean and a variance for each of the six positions, and every
    one of them is a finite number. *)
Theorem analyzePositionPatterns_finite (this : LottoPredictionEngine) :
  (0 < length (draws this))%nat ->
  length (analyzePositionPatterns this) = 12%nat /\
  Forall (fun kv => is_finite (snd kv) = true)
         (analyzePositionPatterns this).
Proof.
  intros Hlen. split; [reflexivity|].
  assert (Hne : forall field : LottoDraw -> Z, map field (draws this) <> []).
  { intros field H. apply (f_equal (@length Z)) in H.
    rewrite length_map in H. simpl in H. lia. }
  assert (Hmean : forall field : LottoDraw -> Z,
             is_finite (meanOf (map field (draws this))) = true)
    by (intros field; apply meanOf_finite, Hne).
  assert (Hvar : forall field : LottoDraw -> Z,
             is_finite (varianceOf (map field (draws this))
                                   (meanOf (map field (draws this)))) = true).
  { intros field.
    destruct (varianceOf_nonneg _ _ (Hne field) (Hmean field))
      as [q [-> _]].
    reflexivity. }
  unfold analyzePositionPatterns. cbn [flat_map app].
  repeat constructor; cbn [snd]; auto.
Qed.

Lemma analyzePositionPatterns_finite_witness :
  (0 < length (draws (newEngine [draw_1_to_6; draw_sum_100]
                                noCustomWeights)))%nat /\
  length (analyzePositionPatterns
            (newEngine [draw_1_to_6; draw_sum_100] noCustomWeights))
  = 12%nat /\
  Forall (fun kv => is_finite (snd kv) = true)
         (analyzePositionPatterns
            (newEngine [draw_1_to_6; draw_sum_100] noCustomWeights)).
Proof.
  split; [simpl; lia|].
  apply (analyzePositionPatterns_finite
           (newEngine [draw_1_to_6; draw_sum_100] noCustomWeights)).
  simpl; lia.
Defined.

(** X8.  The weighted sums of analyzeSumDistribution are the sums of the
    draws before the last 100, each once, followed by the sums of the last
    100 draws, each twice; their number is the total weighted draw count. *)
Theorem weightedSumsOf_recent_twice (this : LottoPredictionEngine) :
  weightedSumsOf this
  = (map ballSum (olderDraws this)
     ++ flat_map (fun d => [ballSum d; ballSum d]) (last100Draws this))%list /\
  Z.of_nat (length (weightedSumsOf this)) = calculateTotalWeightedDraws this.
Proof.
  split; [apply weightedSumsOf_split|].
  rewrite weightedSumsOf_split, calculateTotalWeightedDraws_split.
  rewrite length_app, length_map, length_flat_map_pair. lia.
Qed.

(** X9.  The five counters of analyzeRangeDistribution add up to six times
    the total weighted draw count: every ball of every draw is counted in
    exactly one range, with the weight of its draw. *)
Theorem analyzeRangeDistribution_total (this : LottoPredictionEngine) :
  rangeTotal (analyzeRangeDistribution this)
  = of_Z (6 * calculateTotalWeightedDraws this).
Proof.
  apply integerRanges_total. rewrite <- weights_total.
  unfold analyzeRangeDistribution.
  apply (fold_left_weighted integerRanges _
           (fun e : nat * LottoDraw =>
              6 * (if isRecentIndex this (Z.of_nat (fst e)) then 2 else 1))).
  - intros r s [index draw] Hr. cbv zeta. cbn [fst].
    replace (s + 6 * (if isRecentIndex this (Z.of_nat index) then 2 else 1))
      with (s + (if isRecentIndex this (Z.of_nat index) then 2 else 1)
                * Z.of_nat (length (balls draw)))
      by (simpl length; lia).
    assert (Hstep : forall w : Z,
               integerRanges
                 (fold_left
                    (fun r n =>
                       if n <=? 10 then
                         {| range_1_10 := add (range_1_10 r) (of_Z w);
                            range_11_20 := range_11_20 r;
                            range_21_30 := range_21_30 r;
                            range_31_40 := range_31_40 r;
                            range_41_49 := range_41_49 r |}
                       else if n <=? 20 then
                         {| range_1_10 := range_1_10 r;
                            range_11_20 := add (range_11_20 r) (of_Z w);
                            range_21_30 := range_21_30 r;
                            range_31_40 := range_31_40 r;
                            range_41_49 := range_41_49 r |}
                       else if n <=? 30 then
                         {| range_1_10 := range_1_10 r;
                            range_11_20 := range_11_20 r;
                            range_21_30 := add (range_21_30 r) (of_Z w);
                            range_31_40 := range_31_40 r;
                            range_41_49 := range_41_49 r |}
                       else if n <=? 40 then
                         {| range_1_10 := range_1_10 r;
                            range_11_20 := range_11_20 r;
                            range_21_30 := range_21_30 r;
                            range_31_40 := add (range_31_40 r) (of_Z w);
                            range_41_49 := range_41_49 r |}
                       else
                         {| range_1_10 := range_1_10 r;
                            range_11_20 := range_11_20 r;
                            range_21_30 := range_21_30 r;
                            range_31_40 := range_31_40 r;
                            range_41_49 := add (range_41_49 r) (of_Z w) |})
                    (balls draw) r)
                 (s + w * Z.of_nat (length (balls draw)))).
    { intros w. apply fold_left_counting; trivial.
      intros r' s' n [a [b [c [d [e [-> H]]]]]].
      cbn [range_1_10 range_11_20 range_21_30 range_31_40 range_41_49].
      rewrite !add_of_Z.
      destruct (n <=? 10); [|destruct (n <=? 20);
                              [|destruct (n <=? 30); [|destruct (n <=? 40)]]];
        do 5 eexists; (split; [reflexivity | lia]). }
    destruct (isRecentIndex this (Z.of_nat index)); apply Hstep.
  - exists 0, 0, 0, 0, 0. split; reflexivity.
Qed.

(** X10.  On a history of at least 11 draws both windows of analyzeTrends
    hold a draw: the recent trend is a finite number and the volatility is a
    finite number that is not negative. *)
Theorem analyzeTrends_defined (this : LottoPredictionEngine) :
  (11 <= length (draws this))%nat ->
  is_finite (recentTrend (analyzeTrends this)) = true /\
  finiteNonNeg (volatility (analyzeTrends this)).
Proof.
  intros Hlen. unfold analyzeTrends. cbn [recentTrend volatility].
  assert (Hrecent : map ballSum (slice_from (-10) (draws this)) <> []).
  { intros H. apply (f_equal (@length Z)) in H.
    rewrite length_map in H.
    change (-10) with (- Z.of_nat 10) in H.
    rewrite slice_from_length in H by lia.
    change (@length Z []) with 0%nat in H. lia. }
  assert (Holder : map ballSum (slice (-20) (-10) (draws this)) <> []).
  { intros H. apply (f_equal (@length Z)) in H.
    rewrite length_map in H. unfold slice, clamp_index in H.
    change (-20 <? 0) with true in H. change (-10 <? 0) with true in H.
    cbv iota in H. rewrite length_firstn, length_skipn in H.
    change (@length Z []) with 0%nat in H. lia. }
  destruct (meanOf_Fin _ Hrecent) as [r Hr].
  destruct (meanOf_Fin _ Holder) as [o Ho].
  rewrite Hr, Ho. split; [reflexivity|].
  apply sqrt_nonneg. now apply varianceOf_nonneg.
Qed.

Lemma analyzeTrends_defined_witness :
  (11 <= length (draws (newEngine (repeat draw_1_to_6 11)
                                  noCustomWeights)))%nat /\
  is_finite (recentTrend (analyzeTrends (newEngine (repeat draw_1_to_6 11)
                                                   noCustomWeights))) = true /\
  finiteNonNeg (volatility (analyzeTrends (newEngine (repeat draw_1_to_6 11)
                                                     noCustomWeights))).
Proof.
  split; [simpl; lia|].
  apply (analyzeTrends_defined (newEngine (repeat draw_1_to_6 11)
                                          noCustomWeights)).
  simpl; lia.
Defined.

(** X11.  A cycle length from 3 to 10 that is at least the number of draws
    is reported by detectCycles: its loop makes no comparison.  So every
    history of at most 3 draws, the empty one included, reports all the
    lengths from 3 to 10. *)
Theorem detectCycles_short_history (this : LottoPredictionEngine)
  (cycleLength : nat) :
  (length (draws this) <= cycleLength)%nat ->
  (3 <= cycleLength <= 10)%nat ->
  In cycleLength (detectCycles this).
Proof.
  intros Hlen HL. unfold detectCycles. cbv zeta.
  apply filter_In. split; [apply in_seq; lia|].
  apply cycleScan_spec. intros j _ Hj. exfalso.
  rewrite cycleSums_last30, length_map, length_skipn in Hj. lia.
Qed.

Lemma detectCycles_short_history_witness :
  (length (draws (newEngine (repeat draw_1_to_6 3) noCustomWeights)) <= 3)%nat
  /\ (3 <= 3 <= 10)%nat /\
  In 3%nat (detectCycles (newEngine (repeat draw_1_to_6 3) noCustomWeights)).
Proof.
  split; [simpl; lia|]. split; [lia|].
  apply (detectCycles_short_history
           (newEngine (repeat draw_1_to_6 3) noCustomWeights) 3);
    [simpl; lia | lia].
Defined.

(** X12.  The hot numbers are at most 12 distinct numbers, each occurring in
    the last 15 draws, in the order of falling number of occurrences there;
    no number outside the list occurs more often in the last 15 draws than a
    number of the list. *)
Theorem identifyHotNumbers_top (this : LottoPredictionEngine) :
  let hot := identifyHotNumbers this in
  let seen := fun n => occurrences n (lastBalls this 15) in
  (length hot <= 12)%nat /\
  NoDup hot /\
  Forall (fun n => 0 < seen n) hot /\
  StronglySorted (fun a b => seen b <= seen a) hot /\
  forall a b, In a hot -> ~ In b hot -> seen b <= seen a.
Proof.
  cbv zeta.
  assert (Hseen : Forall (fun n => 0 < occurrences n (lastBalls this 15))
                         (identifyHotNumbers this))
    by (apply Forall_forall; intros n Hn; now apply hot_seen).
  revert Hseen. unfold identifyHotNumbers. cbv zeta.
  change 12 with (Z.of_nat 12). change 15 with (Z.of_nat 15).
  rewrite slice_firstn.
  set (freq := calculateRecentFrequency this (Z.of_nat 15)).
  intros Hseen.
  assert (Hperm : Permutation (sort_by byValueDescending freq) freq)
    by apply sort_by_perm.
  assert (Hsorted :
            StronglySorted
              (fun a b => occurrences (fst b) (lastBalls this 15)
                          <= occurrences (fst a) (lastBalls this 15))
              (sort_by byValueDescending freq)).
  { apply sort_recentFrequency_sorted. now apply Forall_forall. }
  split; [|split; [|split; [|split]]].
  - rewrite length_map. apply firstn_le_length.
  - rewrite <- firstn_map. apply NoDup_firstn.
    eapply Permutation_NoDup;
      [symmetry; apply Permutation_map; exact Hperm|].
    apply recentFrequency_keys_NoDup.
  - exact Hseen.
  - apply StronglySorted_map. now apply StronglySorted_firstn.
  - intros a b Ha Hb.
    destruct (Z.le_gt_cases (occurrences b (lastBalls this 15)) 0)
      as [Hz | Hpos].
    + apply in_map_iff in Ha. destruct Ha as [e [<- He]].
      apply in_firstn in He. apply (Permutation_in _ Hperm) in He.
      pose proof (recentFrequency_entry this 15 e He). lia.
    + pose proof (calculateRecentFrequency_tabulates this (Z.of_nat 15))
        as [_ Ht].
      destruct (Ht b) as [_ Hb'].
      change (ballsOf (slice_from (- Z.of_nat 15) (draws this)))
        with (lastBalls this 15) in Hb'.
      destruct (Z.eqb_spec (occurrences b (lastBalls this 15)) 0); [lia|].
      apply lookup_in in Hb'. fold freq in Hb'.
      apply (Permutation_in _ (Permutation_sym Hperm)) in Hb'.
      rewrite <- (firstn_skipn 12 (sort_by byValueDescending freq)) in Hb'.
      apply in_app_or in Hb'. destruct Hb' as [Hb' | Hb'].
      * exfalso. apply Hb. apply in_map_iff. eexists. split; [|exact Hb'].
        reflexivity.
      * apply in_map_iff in Ha. destruct Ha as [e [<- He]].
        rewrite <- (firstn_skipn 12 (sort_by byValueDescending freq))
          in Hsorted.
        exact (StronglySorted_app_inv _ _ _ Hsorted _ _ He Hb').
Qed.

(** X13.  The cold numbers are the first 15, in ascending order, of the
    numbers from 1 to 49 that do not occur in the last 20 draws. *)
Theorem identifyColdNumbers_unseen (this : LottoPredictionEngine) :
  identifyColdNumbers this
  = firstn 15
      (filter (fun n => occurrences n (lastBalls this 20) =? 0) domain).
Proof.
  unfold identifyColdNumbers. cbv zeta.
  change 15 with (Z.of_nat 15). rewrite slice_firstn. f_equal.
  apply filter_ext. intros n. apply cold_test.
Qed.

(** X14.  The due numbers are at most 10 distinct numbers from 1 to 49; each
    was drawn at least once, and none is held by the draw at the last index.
    A number that was never drawn is never due. *)
Theorem identifyDueNumbers_overdue (this : LottoPredictionEngine) :
  (length (identifyDueNumbers this) <= 10)%nat /\
  NoDup (identifyDueNumbers this) /\
  Forall (overdue this) (identifyDueNumbers this).
Proof.
  assert (Hall : Forall (overdue this) (identifyDueNumbers this)).
  { apply Forall_forall. intros n Hn.
    apply due_entry in Hn. destruct Hn as [Hdom Hdue].
    assert (Hgap : 0 < lastGap (gapsOf this n)).
    { eapply gtb_of_Z_nonneg; [|exact Hdue].
      apply nonneg_mul; [now apply expectedGap_nonneg|].
      exists (3 # 2)%Q. split; [reflexivity | lra]. }
    split; [now apply in_domain|]. split.
    - apply includes_ballsOf.
      destruct (existsb _ (draws this)) eqn:E; trivial.
      rewrite (gapsOf_never_drawn this n E) in Hgap.
      unfold lastGap in Hgap. simpl in Hgap. lia.
    - intros older newest Hd Hin. apply includes_true in Hin.
      rewrite (lastGap_distance this n older [] newest Hd Hin eq_refl)
        in Hgap.
      simpl in Hgap. lia. }
  revert Hall. unfold identifyDueNumbers. cbv zeta.
  change 10 with (Z.of_nat 10). rewrite slice_firstn.
  set (kept := filter _ (calculateGaps this)).
  set (sorted := sort_by _ kept).
  intros Hall.
  assert (Hperm : Permutation sorted kept) by apply sort_by_perm.
  split; [|split; [|exact Hall]].
  - rewrite length_map. apply firstn_le_length.
  - rewrite <- firstn_map. apply NoDup_firstn.
    eapply Permutation_NoDup;
      [symmetry; apply Permutation_map; exact Hperm|].
    apply NoDup_map_filter. rewrite keys_calculateGaps. apply NoDup_domain.
Qed.

(** X15.  The numbers to avoid are at most 8 distinct numbers, each
    occurring at least 3 times in the last 10 draws, in the order of falling
    number of occurrences there. *)
Theorem identifyAvoidNumbers_frequent (this : LottoPredictionEngine) :
  let avoid := identifyAvoidNumbers this in
  let seen := fun n => occurrences n (lastBalls this 10) in
  (length avoid <= 8)%nat /\
  NoDup avoid /\
  Forall (fun n => 3 <= seen n) avoid /\
  StronglySorted (fun a b => seen b <= seen a) avoid.
Proof.
  cbv zeta.
  assert (Hseen : Forall (fun n => 3 <= occurrences n (lastBalls this 10))
                         (identifyAvoidNumbers this))
    by (apply Forall_forall; intros n Hn; now apply avoid_seen).
  revert Hseen. unfold identifyAvoidNumbers. cbv zeta.
  change 8 with (Z.of_nat 8). change 10 with (Z.of_nat 10).
  rewrite slice_firstn.
  set (freq := calculateRecentFrequency this (Z.of_nat 10)).
  set (kept := filter _ freq).
  intros Hseen.
  assert (Hperm : Permutation (sort_by byValueDescending kept) kept)
    by apply sort_by_perm.
  split; [|split; [|split]].
  - rewrite length_map. apply firstn_le_length.
  - rewrite <- firstn_map. apply NoDup_firstn.
    eapply Permutation_NoDup;
      [symmetry; apply Permutation_map; exact Hperm|].
    apply NoDup_map_filter. apply recentFrequency_keys_NoDup.
  - exact Hseen.
  - apply StronglySorted_map. apply StronglySorted_firstn.
    apply sort_recentFrequency_sorted.
    apply Forall_forall. intros e He. apply filter_In in He. tauto.
Qed.

(** X16.  No cold number is a hot number or a number to avoid: the windows
    of 15 and of 10 draws lie within the window of 20 draws. *)
Theorem coldNumbers_disjoint (this : LottoPredictionEngine) :
  Forall (fun n => ~ In n (identifyHotNumbers this) /\
                   ~ In n (identifyAvoidNumbers this))
         (identifyColdNumbers this).
Proof.
  apply Forall_forall. intros n Hcold. apply cold_unseen in Hcold.
  assert (Hnot : forall m, (0 < m <= 20)%nat ->
                           ~ 0 < occurrences n (lastBalls this m)).
  { intros m Hm Hpos. apply in_occurrences in Hpos.
    apply (lastBalls_mono this m 20) in Hpos; [|lia].
    apply in_occurrences in Hpos. lia. }
  split; intros Hin.
  - apply hot_seen in Hin. apply (Hnot 15%nat); [lia | trivial].
  - apply avoid_seen in Hin. apply (Hnot 10%nat); lia.
Qed.

(** X17.  On a non-empty history the bounds and the target of the optimal
    sum range are integers, and min is at most target, which is at most max.
    *)
Theorem calculateOptimalSumRange_ordered (this : LottoPredictionEngine) :
  (0 < length (draws this))%nat ->
  let range := calculateOptimalSumRange this in
  exists lo t hi : Z,
    min range = of_Z lo /\ target range = of_Z t /\ max range = of_Z hi /\
    lo <= t <= hi.
Proof.
  intros Hlen. cbv zeta.
  assert (Hne : weightedSumsOf this <> []).
  { apply weightedSumsOf_nonempty. destruct (draws this); simpl in *;
      [lia | congruence]. }
  unfold calculateOptimalSumRange, analyzeSumDistribution. cbn [sd_mean
    sd_stdDev min max target].
  destruct (meanOf_Fin _ Hne) as [m Hm]. rewrite Hm.
  destruct (sqrt_nonneg _ (varianceOf_nonneg (weightedSumsOf this) (Fin m)
                             Hne eq_refl)) as [s [Hs Hs0]].
  rewrite Hs. unfold sub, add, neg. rewrite !round_finite.
  do 3 eexists. split; [reflexivity|]. split; [reflexivity|].
  split; [reflexivity|].
  split; apply round_le; rewrite !Qred_correct; lra.
Qed.

Lemma calculateOptimalSumRange_ordered_witness :
  (0 < length (draws (newEngine [draw_1_to_6; draw_sum_100]
                                noCustomWeights)))%nat /\
  let range :=
    calculateOptimalSumRange
      (newEngine [draw_1_to_6; draw_sum_100] noCustomWeights) in
  exists lo t hi : Z,
    min range = of_Z lo /\ target range = of_Z t /\ max range = of_Z hi /\
    lo <= t <= hi.
Proof.
  split; [simpl; lia|].
  apply (calculateOptimalSumRange_ordered
           (newEngine [draw_1_to_6; draw_sum_100] noCustomWeights)).
  simpl; lia.
Defined.

(** X18.  detectPatterns returns at most two messages: the bias toward high
    numbers and the bias toward low numbers are never reported together. *)
Theorem detectPatterns_at_most_two (this : LottoPredictionEngine) :
  (length (detectPatterns this) <= 2)%nat /\
  ~ (In "Recent bias toward high numbers"%string (detectPatterns this) /\
     In "Recent bias toward low numbers"%string (detectPatterns this)).
Proof.
  unfold detectPatterns. cbv zeta.
  set (avgHighs := meanOf _).
  set (p3 := match find _ _ with Some _ => _ | None => _ end).
  assert (Hp3 : p3 = [] \/
                p3 = ["Higher than normal consecutive number frequency"
                      %string]).
  { unfold p3. destruct (find _ _) as [p|]; [|now left].
    destruct (gtb _ _); [now right | now left]. }
  assert (Hex : gtb avgHighs (of_Z 4) = true ->
                ltb avgHighs (of_Z 2) = true -> False).
  { destruct avgHighs as [| |q|]; try discriminate.
    unfold gtb, ltb, of_Z, Qltb. intros H1 H2.
    apply negb_true_iff in H1, H2.
    assert (H4 : ~ (q <= inject_Z 4)%Q)
      by (intros Hle; apply Qle_bool_iff in Hle; congruence).
    assert (H2' : ~ (inject_Z 2 <= q)%Q)
      by (intros Hle; apply Qle_bool_iff in Hle; congruence).
    apply H4. apply Qnot_le_lt in H2'.
    apply Qlt_le_weak. eapply Qlt_trans; [exact H2'|]. reflexivity. }
  destruct (gtb avgHighs (of_Z 4)) eqn:E1,
           (ltb avgHighs (of_Z 2)) eqn:E2;
    try (exfalso; now apply Hex);
    destruct Hp3 as [-> | ->]; (split; [simpl; lia|]);
    simpl; intros [H1 H2]; intuition discriminate.
Qed.

(** X19.  When every weight is finite and 0 or more, no score is greater
    than the score that the same operations, in the same order, give to a
    number with the largest frequency and both other components at their
    cap of 100 that is due and hot and not to avoid, that is
    ((((0 + 1 * wf * 100) + 100 * wr) + 100 * wg) * 1.5) * 1.2 for the
    frequency, recency and gaps weights wf, wr and wg. *)
Theorem scores_bounded (this : LottoPredictionEngine) (n : Z) (s : num) :
  nonNegativeWeights (weights this) = true ->
  lookup n (calculateNumberScores this (performCompleteAnalysis this))
  = Some s ->
  leb s (maximalScore (weights this)) = true.
Proof.
  intros Hw Hs.
  unfold nonNegativeWeights in Hw. rewrite !andb_true_iff in Hw.
  destruct Hw as [[[[[Hf Hr] Hg] _] _] _].
  apply nonNegative_finiteNonNeg in Hf, Hr, Hg.
  destruct Hf as [wf [Ef Hf]], Hr as [wr [Er Hr]], Hg as [wg [Eg Hg]].
  destruct (score_boundedBy this wf wr wg Ef Er Eg Hf Hr Hg n s Hs)
    as [q [-> [_ Hq]]].
  unfold maximalScore. cbv zeta. rewrite Ef, Er, Eg.
  unfold add, mul, leb, zero, of_Z.
  apply Qle_bool_iff. rewrite !Qred_correct.
  change (inject_Z 0) with 0%Q. change (inject_Z 1) with 1%Q.
  change (inject_Z 100) with 100%Q. lra.
Qed.

Lemma scores_bounded_witness :
  nonNegativeWeights (weights (newEngine [draw_1_to_6] noCustomWeights))
  = true /\
  lookup 1 (calculateNumberScores
              (newEngine [draw_1_to_6] noCustomWeights)
              (performCompleteAnalysis
                 (newEngine [draw_1_to_6] noCustomWeights)))
  = Some (Fin (36 # 1)) /\
  leb (Fin (36 # 1))
      (maximalScore (weights (newEngine [draw_1_to_6] noCustomWeights)))
  = true.
Proof.
  split; [reflexivity|]. split; [vm_compute; reflexivity|].
  apply (scores_bounded (newEngine [draw_1_to_6] noCustomWeights) 1
           (Fin (36 # 1)));
    [reflexivity | vm_compute; reflexivity].
Defined.

(** X20.  When every weight is finite and 0 or more, the candidates of the
    selection are the 49 numbers of the domain, each once, in the order of
    falling score. *)
Theorem rankedCandidates_by_score (this : LottoPredictionEngine) :
  nonNegativeWeights (weights this) = true ->
  let scores := calculateNumberScores this (performCompleteAnalysis this) in
  Permutation (rankedCandidates scores) domain /\
  StronglySorted
    (fun a b : Z => geb (get_num a scores) (get_num b scores) = true)
    (rankedCandidates scores).
Proof.
  intros Hw.
  unfold nonNegativeWeights in Hw. rewrite !andb_true_iff in Hw.
  destruct Hw as [[[[[Hf Hr] Hg] _] _] _].
  apply nonNegative_finiteNonNeg in Hf, Hr, Hg.
  intros scores.
  assert (keys : map fst scores = domain)
    by apply keys_calculateNumberScores.
  assert (Hscore : forall n s, lookup n scores = Some s -> finiteNonNeg s)
    by exact (score_nonneg this Hf Hr Hg).
  clearbody scores.
  assert (Hnd : NoDup (map fst scores))
    by (rewrite keys; apply NoDup_domain).
  split; [now apply ranked_perm_domain|].
  assert (Hfin : Forall (fun e => is_finite (snd e) = true) scores).
  { apply Forall_forall. intros [n s] Hin.
    destruct (Hscore n s (in_lookup_NoDup scores n s Hnd Hin))
      as [q [-> _]].
    reflexivity. }
  unfold rankedCandidates. apply StronglySorted_map.
  eapply StronglySorted_impl_in;
    [|apply sort_byValueDescending_sorted; exact Hfin].
  intros [a sa] [b sb] Ha Hb Hab. cbn [fst snd] in *.
  assert (Hget : forall n s, In (n, s) (sort_by byValueDescending scores) ->
                             get_num n scores = s).
  { intros n s Hin. apply (Permutation_in _ (sort_by_perm _ _)) in Hin.
    unfold get_num. now rewrite (in_lookup_NoDup scores n s Hnd Hin). }
  now rewrite (Hget a sa Ha), (Hget b sb Hb).
Qed.

Lemma rankedCandidates_by_score_witness :
  nonNegativeWeights (weights (newEngine [draw_1_to_6] noCustomWeights))
  = true /\
  let scores :=
    calculateNumberScores
      (newEngine [draw_1_to_6] noCustomWeights)
      (performCompleteAnalysis (newEngine [draw_1_to_6] noCustomWeights)) in
  Permutation (rankedCandidates scores) domain /\
  StronglySorted
    (fun a b : Z => geb (get_num a scores) (get_num b scores) = true)
    (rankedCandidates scores).
Proof.
  split; [reflexivity|].
  apply (rankedCandidates_by_score (newEngine [draw_1_to_6] noCustomWeights)).
  reflexivity.
Defined.

(** X21.  On the empty history with finite frequency, recency and gaps
    weights, every number from 1 to 49 has the score 0, and the candidates
    of the selection are 1, 2, ..., 49 in this order. *)
Theorem empty_history_ranking (this : LottoPredictionEngine) :
  draws this = [] ->
  is_finite (frequency (weights this)) = true ->
  is_finite (recency (weights this)) = true ->
  is_finite (gaps (weights this)) = true ->
  let scores := calculateNumberScores this (performCompleteAnalysis this) in
  scores = map (fun n => (n, zero)) domain /\
  rankedCandidates scores = domain.
Proof.
  intros Hd Hf Hr Hg. destruct this as [ds w].
  cbn [draws weights] in Hd, Hf, Hr, Hg. subst ds. intros scores.
  assert (Hs : scores = map (fun n => (n, zero)) domain).
  { apply (map_lookup_ext scores (fun _ => zero)).
    - apply keys_calculateNumberScores.
    - intros n Hn. now apply (empty_history_score w n). }
  clearbody scores. subst scores. split; [reflexivity|].
  unfold rankedCandidates. rewrite sort_by_all_zero, map_map.
  apply map_id.
Qed.

Lemma empty_history_ranking_witness :
  draws (newEngine [] noCustomWeights) = [] /\
  is_finite (frequency (weights (newEngine [] noCustomWeights))) = true /\
  is_finite (recency (weights (newEngine [] noCustomWeights))) = true /\
  is_finite (gaps (weights (newEngine [] noCustomWeights))) = true /\
  let scores :=
    calculateNumberScores
      (newEngine [] noCustomWeights)
      (performCompleteAnalysis (newEngine [] noCustomWeights)) in
  scores = map (fun n => (n, zero)) domain /\
  rankedCandidates scores = domain.
Proof.
  do 4 (split; [reflexivity|]).
  apply (empty_history_ranking (newEngine [] noCustomWeights));
    reflexivity.
Defined.

(** X22.  The bonus frequency table of predictBonusBall holds, for every
    number, the number of draws before the last 100 whose bonus ball it is
    plus twice the number of such draws among the last 100; a number that is
    no bonus ball has no entry. *)
Theorem bonusFrequency_counts (this : LottoPredictionEngine) (n : Z) :
  let seen := occurrences n (bonusBallsOf (olderDraws this))
              + 2 * occurrences n (bonusBallsOf (last100Draws this)) in
  lookup n (bonusFrequency this)
  = if seen =? 0 then None else Some (of_Z seen).
Proof.
  cbv zeta. destruct (bonusFrequency_tabulates this) as [_ H]. apply H.
Qed.

(** X23.  predictBonusBall gives a bonus score to each number from 1 to 49,
    and every bonus score is between 0 and 100, on every history. *)
Theorem bonusScoresOf_range (this : LottoPredictionEngine) :
  map fst (bonusScoresOf this) = domain /\
  Forall (fun kv => between zero (of_Z 100) (snd kv) = true)
         (bonusScoresOf this).
Proof.
  split; [apply keys_bonusScoresOf|].
  unfold bonusScoresOf. cbv zeta.
  apply Forall_map, Forall_forall. intros n _. cbn [snd].
  apply boundedBy_between.
  apply boundedBy_weaken with (1 * 100)%Q; [|now compute].
  apply boundedBy_mul.
  - apply ratio_boundedBy, bonusFrequency_positive.
  - exists 100%Q. split; [reflexivity | lra].
Qed.

(** X24.  The bonus ball is one of the first five numbers of the bonus
    ranking, although ten are kept as topBonus, and predictBonusBall calls
    Math.random once. *)
Theorem predictBonusBall_top_five (rnd : RandomSource)
  (this : LottoPredictionEngine) (analysis : Analysis.t) (k : nat) :
  In (fst (predictBonusBall rnd this analysis k))
     (firstn 5 (rankedCandidates (bonusScoresOf this))) /\
  snd (predictBonusBall rnd this analysis k) = S k.
Proof.
  split; [|reflexivity].
  unfold predictBonusBall. cbn [fst].
  change 10 with (Z.of_nat 10). rewrite slice_firstn.
  pose proof (ranked_length _ (keys_bonusScoresOf this)) as Hranked.
  assert (Hlen : length (firstn 10 (rankedCandidates (bonusScoresOf this)))
                 = 10%nat)
    by (apply firstn_length_le; lia).
  rewrite Hlen.
  change (Num.min (of_nat 10) (of_Z 5)) with (of_nat 5).
  pose proof (randomIndexBelow_lt rnd k 5 ltac:(lia)) as Hidx.
  set (i := randomIndexBelow rnd k (of_nat 5)) in *.
  assert (E : nth i (firstn 10 (rankedCandidates (bonusScoresOf this))) 0
              = nth i (firstn 5 (rankedCandidates (bonusScoresOf this))) 0).
  { rewrite !nth_firstn.
    destruct (Nat.ltb_spec i 10), (Nat.ltb_spec i 5); trivial; lia. }
  rewrite E. apply nth_In. rewrite firstn_length_le; lia.
Qed.

(** X25.  On a non-empty history the confidence of a prediction is a number
    from 10 to 95, whatever the weights and the values of Math.random. *)
Theorem confidence_in_range (rnd : RandomSource)
  (this : LottoPredictionEngine) :
  (0 < length (draws this))%nat ->
  between (of_Z 10) (of_Z 95) (confidence (generatePrediction rnd this))
  = true.
Proof.
  intros Hlen. apply confidence_nonempty_history.
  destruct (draws this); simpl in *; [lia | congruence].
Qed.

Lemma confidence_in_range_witness :
  (0 < length (draws (newEngine [draw_1_to_6] noCustomWeights)))%nat /\
  between (of_Z 10) (of_Z 95)
          (confidence (generatePrediction alwaysHalf
                         (newEngine [draw_1_to_6] noCustomWeights)))
  = true.
Proof.
  split; [simpl; lia|].
  apply (confidence_in_range alwaysHalf
           (newEngine [draw_1_to_6] noCustomWeights)).
  simpl; lia.
Defined.

(** X26.  generateReasoning returns from 3 to 7 lines, and the first one is
    the fixed line on the doubled weight of the last 100 draws. *)
Theorem generateReasoning_lines (analysis : Analysis.t)
  (selectedNumbers : list Z) :
  let lines := generateReasoning analysis selectedNumbers in
  (3 <= length lines <= 7)%nat /\
  hd_error lines
  = Some "Analysis uses doubled weight for last 100 draws vs normal weight for older data"%string.
Proof.
  cbv zeta. split; [|reflexivity].
  unfold generateReasoning. cbv zeta.
  rewrite !length_app.
  destruct (0 <? length (selectedIn (Analysis.dueNumbers analysis)
                                    selectedNumbers))%nat,
           (0 <? length (selectedIn (Analysis.hotNumbers analysis)
                                    selectedNumbers))%nat,
           (0 <? length (selectedIn (Analysis.coldNumbers analysis)
                                    selectedNumbers))%nat,
           (0 <? length (Analysis.detectedPatterns analysis))%nat;
    cbn [length]; lia.
Qed.

(** X27.  generatePrediction has from 1 to 3 alternative sets; every number
    of a set is from 1 to 49; the last set, made by the balanced strategy
    from the 20 best candidates, is always there and holds distinct numbers.
    *)
Theorem generateAlternativeSets_balanced (rnd : RandomSource)
  (this : LottoPredictionEngine) (k : nat) :
  let analysis := performCompleteAnalysis this in
  let scores := calculateNumberScores this analysis in
  let sets := fst (generateAlternativeSets rnd scores analysis k) in
  (1 <= length sets <= 3)%nat /\
  Forall (Forall (fun n => 1 <= n <= 49)) sets /\
  NoDup (last sets []).
Proof.
  intros analysis scores.
  apply generateAlternativeSets_sets.
  - apply keys_calculateNumberScores.
  - apply due_cold_domain.
Qed.
